(** * Junior College Result: the result computation engine

    A shallow embedding of [backend/services/result_service.py], of the
    handlers and helpers of [backend/routes/teacher_routes.py] that enter,
    change, delete and list marks and show the complete table, and of the
    handler of [backend/routes/admin_routes.py] that runs the engine.

    Modelling conventions.
    - The relational store is a record of five tables, each a list of rows
      in the order the store returns them.  A query [filter_by(...).all()]
      is a [filter], [filter_by(...).first()] is the first matching row.
    - A row that was loaded, mutated and added back to the session is
      written back at the position it was read from; a row created with
      [Result()] / [Mark()] is appended.  Pending rows are visible to later
      queries of the same session (autoflush), so the loop of
      [generate_results_for_division] threads the [Result] table.
    - Numeric columns hold Python floats (binary64).  A float is modelled
      by the rational [Q] it denotes.  An addition or a division gives the
      binary64 nearest to the exact result, ties to even
      ([nearest_double]); [round(x, 2)] gives the binary64 nearest to the
      exact value of [x] rounded to hundredths, ties to even, as CPython
      computes it; the built-in [sum] adds from left to right.
      Comparisons are exact.  NaN, the infinities, overflow and the sign
      of zero are outside the model.  A nullable column is an [option].
    - Python dicts are [gmap]s; a dict built in a loop keeps the last value
      assigned to a key. *)

From Stdlib Require Import ZArith QArith Qround Qpower Qabs Lia Lqa.
From stdpp Require Import gmap strings list sorting.

Local Open Scope string_scope.
Local Open Scope Q_scope.
Local Open Scope list_scope.

(** ** Data model (the columns the engine and the mark handlers touch) *)

Module Subject.
Record t := mk { subject_id : Z; subject_code : string }.
End Subject.

Module Student.
Record t := mk {
  roll_no : Z;
  name : string;
  division : string;
  optional_subject : option string;
  optional_subject_2 : option string }.
End Student.

Module TeacherSubjectAllocation.
Record t := mk { teacher_id : Z; subject_id : Z; division : string }.
End TeacherSubjectAllocation.

Module Mark.
Record t := mk {
  mark_id : Z;
  roll_no : Z;
  division : string;
  subject_id : Z;
  unit1 : option Q;
  unit2 : option Q;
  term : option Q;
  annual : option Q;
  tot : option Q;
  sub_avg : option Q;
  grace : option Q;
  entered_by : option Z }.
End Mark.

(** The eight [<field>_avg] / [<field>_grace] column pairs of [Result];
    the source addresses them through [setattr(result, f"{field}_avg", _)]. *)
Inductive subject_field := eng | eco | bk | oc | hindi | it | maths | sp.

Global Instance subject_field_eq_dec : EqDecision subject_field.
Proof. solve_decision. Defined.

Module Result.
Record t := mk {
  roll_no : Z;
  name : string;
  division : string;
  eng_avg : option Q;   eng_grace : option Q;
  eco_avg : option Q;   eco_grace : option Q;
  bk_avg : option Q;    bk_grace : option Q;
  oc_avg : option Q;    oc_grace : option Q;
  hindi_avg : option Q; hindi_grace : option Q;
  it_avg : option Q;    it_grace : option Q;
  maths_avg : option Q; maths_grace : option Q;
  sp_avg : option Q;    sp_grace : option Q;
  total_grace : option Q;
  percentage : option Q;
  evs_grade : option string;
  pe_grade : option string }.

(** [getattr(result, f"{field}_avg")] and [getattr(result, f"{field}_grace")] *)
Definition get_avg (f : subject_field) (r : t) : option Q :=
  match f with
  | eng => eng_avg r | eco => eco_avg r | bk => bk_avg r | oc => oc_avg r
  | hindi => hindi_avg r | it => it_avg r | maths => maths_avg r | sp => sp_avg r
  end.

Definition get_grace (f : subject_field) (r : t) : option Q :=
  match f with
  | eng => eng_grace r | eco => eco_grace r | bk => bk_grace r | oc => oc_grace r
  | hindi => hindi_grace r | it => it_grace r | maths => maths_grace r | sp => sp_grace r
  end.

(** The value a column gets when column [f] is assigned [v]. *)
Definition upd {A} (f g : subject_field) (v old : A) : A :=
  if decide (f = g) then v else old.

(** [setattr(result, f"{field}_avg", v)] *)
Definition set_avg (f : subject_field) (v : option Q) (r : t) : t :=
  mk (roll_no r) (name r) (division r)
     (upd f eng v (eng_avg r)) (eng_grace r)
     (upd f eco v (eco_avg r)) (eco_grace r)
     (upd f bk v (bk_avg r)) (bk_grace r)
     (upd f oc v (oc_avg r)) (oc_grace r)
     (upd f hindi v (hindi_avg r)) (hindi_grace r)
     (upd f it v (it_avg r)) (it_grace r)
     (upd f maths v (maths_avg r)) (maths_grace r)
     (upd f sp v (sp_avg r)) (sp_grace r)
     (total_grace r) (percentage r) (evs_grade r) (pe_grade r).

(** [setattr(result, f"{field}_grace", v)] *)
Definition set_grace (f : subject_field) (v : option Q) (r : t) : t :=
  mk (roll_no r) (name r) (division r)
     (eng_avg r) (upd f eng v (eng_grace r))
     (eco_avg r) (upd f eco v (eco_grace r))
     (bk_avg r) (upd f bk v (bk_grace r))
     (oc_avg r) (upd f oc v (oc_grace r))
     (hindi_avg r) (upd f hindi v (hindi_grace r))
     (it_avg r) (upd f it v (it_grace r))
     (maths_avg r) (upd f maths v (maths_grace r))
     (sp_avg r) (upd f sp v (sp_grace r))
     (total_grace r) (percentage r) (evs_grade r) (pe_grade r).

Definition set_total_grace (v : option Q) (r : t) : t :=
  mk (roll_no r) (name r) (division r)
     (eng_avg r) (eng_grace r) (eco_avg r) (eco_grace r)
     (bk_avg r) (bk_grace r) (oc_avg r) (oc_grace r)
     (hindi_avg r) (hindi_grace r) (it_avg r) (it_grace r)
     (maths_avg r) (maths_grace r) (sp_avg r) (sp_grace r)
     v (percentage r) (evs_grade r) (pe_grade r).

Definition set_percentage (v : option Q) (r : t) : t :=
  mk (roll_no r) (name r) (division r)
     (eng_avg r) (eng_grace r) (eco_avg r) (eco_grace r)
     (bk_avg r) (bk_grace r) (oc_avg r) (oc_grace r)
     (hindi_avg r) (hindi_grace r) (it_avg r) (it_grace r)
     (maths_avg r) (maths_grace r) (sp_avg r) (sp_grace r)
     (total_grace r) v (evs_grade r) (pe_grade r).

Definition set_evs_grade (v : option string) (r : t) : t :=
  mk (roll_no r) (name r) (division r)
     (eng_avg r) (eng_grace r) (eco_avg r) (eco_grace r)
     (bk_avg r) (bk_grace r) (oc_avg r) (oc_grace r)
     (hindi_avg r) (hindi_grace r) (it_avg r) (it_grace r)
     (maths_avg r) (maths_grace r) (sp_avg r) (sp_grace r)
     (total_grace r) (percentage r) v (pe_grade r).

Definition set_pe_grade (v : option string) (r : t) : t :=
  mk (roll_no r) (name r) (division r)
     (eng_avg r) (eng_grace r) (eco_avg r) (eco_grace r)
     (bk_avg r) (bk_grace r) (oc_avg r) (oc_grace r)
     (hindi_avg r) (hindi_grace r) (it_avg r) (it_grace r)
     (maths_avg r) (maths_grace r) (sp_avg r) (sp_grace r)
     (total_grace r) (percentage r) (evs_grade r) v.

(** [Result()] followed by the three assignments of the source: every
    other column of the new object reads [None]. *)
Definition new (roll : Z) (nm dv : string) : t :=
  mk roll nm dv None None None None None None None None
     None None None None None None None None None None None None.
End Result.

(** The relational store. *)
Record DB := mkDB {
  subject_table : list Subject.t;
  student_table : list Student.t;
  allocation_table : list TeacherSubjectAllocation.t;
  mark_table : list Mark.t;
  result_table : list Result.t }.

(** ** Python built-ins used by the engine *)

(** Nearest integer, ties to even. *)
Definition round_half_even (q : Q) : Z :=
  let f := Qfloor q in
  match Qcompare (q - inject_Z f)%Q (1 # 2)%Q with
  | Lt => f
  | Gt => (f + 1)%Z
  | Eq => if Z.even f then f else (f + 1)%Z
  end.

(** [floor (log2 q)] for a positive [q]. *)
Definition flog2 (q : Q) : Z :=
  let e0 := (Z.log2 (Qnum q) - Z.log2 (Zpos (Qden q)))%Z in
  if Qle_bool (2 ^ e0) q then e0 else (e0 - 1)%Z.

(** The exponent of the unit in the last place of a binary64 at [q]: 52
    bits below the leading one, and no lower than the subnormals'. *)
Definition ulp_exp (q : Q) : Z := Z.max (-1074) (flog2 (Qabs q) - 52).

(** The binary64 nearest to [q], ties to even. *)
Definition nearest_double (q : Q) : Q :=
  if Qeq_bool q 0 then 0
  else Qred (inject_Z (round_half_even (q / 2 ^ ulp_exp q)) * 2 ^ ulp_exp q).

(** [x + y] and [x / y] on floats *)
Definition fadd (x y : Q) : Q := nearest_double (x + y).
Definition fdiv (x y : Q) : Q := nearest_double (x / y).

(** [round(x, 2)]: the exact value of [x] is rounded to hundredths, and the
    decimal that gives is read back as a float. *)
Definition round2 (q : Q) : Q :=
  nearest_double (Qmake (round_half_even (q * 100)%Q) 100).

(** [sum(xs)] on floats *)
Definition float_sum (xs : list Q) : Q := foldl fadd 0 xs.

(** [x or 0.0] on a nullable number: [None] and zero are falsy. *)
Definition or_zero (x : option Q) : Q :=
  match x with
  | Some g => if Qeq_bool g 0 then 0 else g
  | None => 0
  end.

(** [x if x is not None else 0.0] *)
Definition not_none_or_zero (x : option Q) : Q :=
  match x with Some g => g | None => 0 end.

(** [sum(g for g in gs if g is not None)] *)
Definition sum_not_none (gs : list (option Q)) : Q :=
  float_sum (omap id gs).

(** ** [generate_results_for_division] *)

(** [{s.subject_id: s.subject_code for s in Subject.query.all()}] *)
Definition subjects_dict (ss : list Subject.t) : gmap Z string :=
  foldl (λ d s, <[Subject.subject_id s := Subject.subject_code s]> d) ∅ ss.

(** The [mark_map] loop: subject code to the student's mark. *)
Definition build_mark_map (subjects : gmap Z string) (ms : list Mark.t)
  : gmap string Mark.t :=
  foldl (λ mark_map m,
           match subjects !! Mark.subject_id m with
           | Some code => if decide (code = EmptyString) then mark_map
                          else <[code := m]> mark_map
           | None => mark_map
           end) ∅ ms.

Definition grading_only : list string := ["EVS"; "PE"].
Definition optional_codes : list string := ["HINDI"; "IT"; "MATHS"; "SP"].

(** One iteration of the loop over the division's allocations. *)
Definition base_required_step (subjects : gmap Z string)
    (base_required : list string) (a : TeacherSubjectAllocation.t)
  : list string :=
  match subjects !! TeacherSubjectAllocation.subject_id a with
  | Some code =>
      if decide (code = EmptyString) then base_required
      else if decide (code ∈ grading_only ∨ code ∈ optional_codes)
           then base_required
      else if decide (code ∈ base_required) then base_required
      else base_required ++ [code]
  | None => base_required
  end.

(** The loop that fills [base_required]. *)
Definition base_required_loop (subjects : gmap Z string)
    (allocs : list TeacherSubjectAllocation.t) : list string :=
  foldl (base_required_step subjects) [] allocs.

Definition base_required_of (subjects : gmap Z string)
    (allocs : list TeacherSubjectAllocation.t) : list string :=
  match allocs with
  | [] => ["ENG"; "ECO"; "BK"; "OC"]
  | _ => base_required_loop subjects allocs
  end.

Definition required_codes_of (base_required : list string) (student : Student.t)
  : list string :=
  let required_codes := base_required in
  let required_codes :=
    match Student.optional_subject student with
    | Some c => if bool_decide (c ∈ ["HINDI"; "IT"]) then required_codes ++ [c]
                else required_codes
    | None => required_codes
    end in
  match Student.optional_subject_2 student with
  | Some c => if bool_decide (c ∈ ["MATHS"; "SP"]) then required_codes ++ [c]
              else required_codes
  | None => required_codes
  end.

(** The [missing_required] loop: some required code has no mark, or a mark
    whose annual is null. *)
Definition missing_required (mark_map : gmap string Mark.t)
    (required_codes : list string) : bool :=
  existsb (λ code, match mark_map !! code with
                   | Some m => match Mark.annual m with Some _ => false | None => true end
                   | None => true
                   end) required_codes.

(** *** The [Result] table inside the session *)

Definition result_matches (roll : Z) (dv : string) (r : Result.t) : bool :=
  bool_decide (Result.roll_no r = roll ∧ Result.division r = dv).

(** [Result.query.filter_by(roll_no=roll, division=dv).first()] *)
Definition query_result (roll : Z) (dv : string) (rs : list Result.t)
  : option Result.t :=
  List.find (result_matches roll dv) rs.

(** [db.session.add(row)] for the row that the query above returned, after
    its attributes were assigned: the row is replaced where it stands. *)
Fixpoint write_back (roll : Z) (dv : string) (r' : Result.t)
    (rs : list Result.t) : list Result.t :=
  match rs with
  | [] => []
  | r :: rs' =>
      if result_matches roll dv r then r' :: rs'
      else r :: write_back roll dv r' rs'
  end.

(** *** Scoring of a complete student *)

(** The loop state: the result object, [total] and [count]. *)
Definition scoring : Type := Result.t * Q * Z.

Definition core_fields : list (string * subject_field) :=
  [("ENG", eng); ("ECO", eco); ("BK", bk); ("OC", oc)].

(** One iteration of the loop over the core subjects. *)
Definition core_step (mark_map : gmap string Mark.t) (st : scoring)
    (cf : string * subject_field) : scoring :=
  let '(result, total, count) := st in
  match mark_map !! cf.1 with
  | Some m =>
      let annual := not_none_or_zero (Mark.annual m) in
      let grace := or_zero (Mark.grace m) in
      (Result.set_grace cf.2 (Some grace)
         (Result.set_avg cf.2 (Some annual) result),
       fadd total annual, (count + 1)%Z)
  | None => st
  end.

(** The body shared by the four optional branches ([result.<f>_avg] is read
    back right after it was assigned [annual]). *)
Definition optional_pass (code : string) (f : subject_field)
    (mark_map : gmap string Mark.t) (st : scoring) : scoring :=
  let '(result, total, count) := st in
  let m := mark_map !! code in
  let annual := match m with
                | Some m' => not_none_or_zero (Mark.annual m')
                | None => 0
                end in
  let result := Result.set_avg f (Some annual) result in
  let result :=
    Result.set_grace f
      (Some (match m with
             | Some m' => not_none_or_zero (Mark.grace m')
             | None => 0
             end)) result in
  (result, fadd total annual, (count + 1)%Z).

Definition optional_group_1 (mark_map : gmap string Mark.t)
    (student : Student.t) (st : scoring) : scoring :=
  if decide (Student.optional_subject student = Some "HINDI")
  then optional_pass "HINDI" hindi mark_map st
  else if decide (Student.optional_subject student = Some "IT")
  then optional_pass "IT" it mark_map st
  else st.

Definition optional_group_2 (mark_map : gmap string Mark.t)
    (student : Student.t) (st : scoring) : scoring :=
  if decide (Student.optional_subject_2 student = Some "MATHS")
  then optional_pass "MATHS" maths mark_map st
  else if decide (Student.optional_subject_2 student = Some "SP")
  then optional_pass "SP" sp mark_map st
  else st.

(** The threshold chain applied to an EVS or PE annual. *)
Definition letter_grade (a : Q) : string :=
  if Qle_bool 75 a then "A+"
  else if Qle_bool 60 a then "A"
  else if Qle_bool 50 a then "B"
  else if Qle_bool 35 a then "C"
  else "F".

(** [m = mark_map.get(code); if m and m.annual is not None: <grade> = ...] *)
Definition grade_pass (code : string)
    (set_grade : option string → Result.t → Result.t)
    (mark_map : gmap string Mark.t) (result : Result.t) : Result.t :=
  match mark_map !! code with
  | Some m =>
      match Mark.annual m with
      | Some a => set_grade (Some (letter_grade a)) result
      | None => result
      end
  | None => result
  end.

(** The seven columns summed into [total_grace], in source order. *)
Definition total_grace_columns (result : Result.t) : list (option Q) :=
  [Result.eng_grace result; Result.hindi_grace result; Result.it_grace result;
   Result.maths_grace result; Result.sp_grace result; Result.bk_grace result;
   Result.oc_grace result].

Definition final_calc (st : scoring) : Result.t :=
  let '(result, total, count) := st in
  let result :=
    Result.set_total_grace (Some (sum_not_none (total_grace_columns result)))
      result in
  if (0 <? count)%Z
  then Result.set_percentage (Some (round2 (fdiv total (inject_Z count))))
         result
  else result.

(** Everything between "All required marks are present" and
    [db.session.add(result)]. *)
Definition score_student (mark_map : gmap string Mark.t) (student : Student.t)
    (result : Result.t) : Result.t :=
  let st := foldl (core_step mark_map) (result, 0, 0%Z) core_fields in
  let st := optional_group_1 mark_map student st in
  let st := optional_group_2 mark_map student st in
  let result := final_calc st in
  let result := grade_pass "EVS" Result.set_evs_grade mark_map result in
  grade_pass "PE" Result.set_pe_grade mark_map result.

(** *** The loop body and the whole operation *)

Definition student_marks (db : DB) (student : Student.t) : list Mark.t :=
  filter (λ m, Mark.roll_no m = Student.roll_no student
               ∧ Mark.division m = Student.division student) (mark_table db).

Definition division_allocs (db : DB) (dv : string)
  : list TeacherSubjectAllocation.t :=
  filter (λ a, TeacherSubjectAllocation.division a = dv) (allocation_table db).

Definition student_mark_map (db : DB) (student : Student.t)
  : gmap string Mark.t :=
  build_mark_map (subjects_dict (subject_table db)) (student_marks db student).

Definition student_required_codes (db : DB) (student : Student.t)
  : list string :=
  required_codes_of
    (base_required_of (subjects_dict (subject_table db))
       (division_allocs db (Student.division student))) student.

(** One iteration of [for student in students]. *)
Definition student_pass (db : DB) (rs : list Result.t) (student : Student.t)
  : list Result.t :=
  let roll := Student.roll_no student in
  let dv := Student.division student in
  let mark_map := student_mark_map db student in
  let required_codes := student_required_codes db student in
  if missing_required mark_map required_codes then
    match query_result roll dv rs with
    | Some existing =>
        write_back roll dv (Result.set_percentage None existing) rs
    | None => rs
    end
  else
    match query_result roll dv rs with
    | Some result => write_back roll dv (score_student mark_map student result) rs
    | None =>
        rs ++ [score_student mark_map student
                 (Result.new roll (Student.name student) dv)]
    end.

Definition division_students (db : DB) (division : string) : list Student.t :=
  filter (λ s, Student.division s = division) (student_table db).

Definition generate_results_for_division (division : string) (db : DB) : DB :=
  mkDB (subject_table db) (student_table db) (allocation_table db)
       (mark_table db)
       (foldl (student_pass db) (result_table db)
          (division_students db division)).

(** ** The mark handlers of [teacher_routes.py]

    A handler takes the store and returns the committed store with the HTTP
    status, or [Raised] when an exception escapes.  Nothing is written
    unless the handler reaches [db.session.commit()].  The payload is the
    dict returned by the schema's [load]; an absent key is [None], and a
    component that is present is a number.  The exceptions of [load], of
    [float] on a value that is not a number and of the commit are outside
    the model.  The engine is passed in as [recompute], which answers
    [None] when the call raises, so that the [try] /
    [except Exception: pass] around it can be followed. *)

Inductive outcome := Status (code : Z) | Raised.

Record MarkData := mkData {
  d_subject_id : option Z;
  d_roll_no : option Z;
  d_division : option string;
  d_unit1 : option Q;
  d_unit2 : option Q;
  d_term : option Q;
  d_annual : option Q;
  d_grace : option Q }.

(** [data.get(key, 0)] followed by [float] *)
Definition get_or_zero (x : option Q) : Q := default 0 x.

(** [x < lo or x > hi] *)
Definition outside (lo hi x : Q) : bool :=
  negb (Qle_bool lo x) || negb (Qle_bool x hi).

(** [Subject.query.get(subject_id)] *)
Definition get_subject (db : DB) (sid : Z) : option Subject.t :=
  List.find (λ s, bool_decide (Subject.subject_id s = sid)) (subject_table db).

(** [Mark.query.get(mark_id)] *)
Definition get_mark (db : DB) (mid : Z) : option Mark.t :=
  List.find (λ m, bool_decide (Mark.mark_id m = mid)) (mark_table db).

Definition _check_teacher_allocation (db : DB) (teacher_id subject_id : Z)
    (division : option string) : option TeacherSubjectAllocation.t :=
  List.find (λ a, bool_decide
                    (TeacherSubjectAllocation.teacher_id a = teacher_id
                     ∧ TeacherSubjectAllocation.subject_id a = subject_id
                     ∧ Some (TeacherSubjectAllocation.division a) = division))
    (allocation_table db).

(** The key the store gives an inserted mark. *)
Definition next_mark_id (ms : list Mark.t) : Z :=
  (foldr (λ m acc, Z.max (Mark.mark_id m) acc) 0 ms + 1)%Z.

Definition with_marks (db : DB) (ms : list Mark.t) : DB :=
  mkDB (subject_table db) (student_table db) (allocation_table db) ms
       (result_table db).

(** The range checks shared by [enter_marks] and [update_marks]: the three
    on the components, then the one on grace. *)
Definition components_ok (unit1 unit2 term annual : Q) : bool :=
  negb (outside 0 25 unit1 || outside 0 25 unit2)
  && negb (outside 0 50 term)
  && negb (outside 0 100 annual).

Definition grace_ok (GRACE_MAX : Z) (grace : Q) : bool :=
  negb (outside 0 (inject_Z GRACE_MAX) grace).

(** [POST /teacher/marks] *)
Definition enter_marks (GRACE_MAX : Z) (user_id : Z) (data : MarkData)
    (db : DB) : DB * outcome :=
  match d_subject_id data ≫= get_subject db with
  | None => (db, Status 404)
  | Some subject =>
    match _check_teacher_allocation db user_id (Subject.subject_id subject)
            (d_division data) with
    | None => (db, Status 403)
    | Some _ =>
      match List.find (λ s, bool_decide
                              (Some (Student.roll_no s) = d_roll_no data
                               ∧ Some (Student.division s) = d_division data))
              (student_table db) with
      | None => (db, Status 404)
      | Some student =>
        let code := Subject.subject_code subject in
        if bool_decide (code ∈ ["HINDI"; "IT"])
           && negb (bool_decide (Student.optional_subject student = Some code))
        then (db, Status 400)
        else if bool_decide (code ∈ ["MATHS"; "SP"])
           && negb (bool_decide (Student.optional_subject_2 student = Some code))
        then (db, Status 400)
        else
          match List.find (λ m, bool_decide
                                  (Mark.roll_no m = Student.roll_no student
                                   ∧ Mark.division m = Student.division student
                                   ∧ Mark.subject_id m = Subject.subject_id subject))
                  (mark_table db) with
          | Some _ => (db, Status 409)
          | None =>
            let unit1 := get_or_zero (d_unit1 data) in
            let unit2 := get_or_zero (d_unit2 data) in
            let term := get_or_zero (d_term data) in
            let annual := get_or_zero (d_annual data) in
            let grace := get_or_zero (d_grace data) in
            if negb (components_ok unit1 unit2 term annual)
            then (db, Status 400)
            else if negb (grace_ok GRACE_MAX grace)
            then (db, Status 400)
            else
              let tot := fadd (fadd (fadd unit1 unit2) term) annual in
              let sub_avg := round2 (fdiv tot 2) in
              let mark :=
                Mark.mk (next_mark_id (mark_table db))
                  (Student.roll_no student) (Student.division student)
                  (Subject.subject_id subject)
                  (Some unit1) (Some unit2) (Some term) (Some annual)
                  (Some tot) (Some sub_avg) (Some 0) (Some user_id) in
              (with_marks db (mark_table db ++ [mark]), Status 201)
          end
      end
    end
  end.

(** The mutated mark written back on commit. *)
Definition replace_mark (mid : Z) (m' : Mark.t) (ms : list Mark.t)
  : list Mark.t :=
  (λ m, if bool_decide (Mark.mark_id m = mid) then m' else m) <$> ms.

(** [try: generate_results_for_division(dv) except Exception: pass] *)
Definition try_recompute (recompute : string → DB → option DB) (dv : string)
    (db : DB) : DB :=
  default db (recompute dv db).

(** [PUT /teacher/marks/<mark_id>] *)
Definition update_marks (GRACE_MAX : Z) (recompute : string → DB → option DB)
    (mark_id user_id : Z) (data : MarkData) (db : DB) : DB * outcome :=
  match get_mark db mark_id with
  | None => (db, Status 404)
  | Some mark =>
    match get_subject db (Mark.subject_id mark) with
    | None => (db, Status 404)
    | Some subject =>
      match _check_teacher_allocation db user_id (Subject.subject_id subject)
              (Some (Mark.division mark)) with
      | None => (db, Status 403)
      | Some _ =>
        let unit1 := get_or_zero (d_unit1 data) in
        let unit2 := get_or_zero (d_unit2 data) in
        let term := get_or_zero (d_term data) in
        let annual := get_or_zero (d_annual data) in
        if negb (components_ok unit1 unit2 term annual)
        then (db, Status 400)
        else
        match (match d_grace data with
               | Some g => Some g
               | None => Mark.grace mark
               end) with
        | None => (db, Raised)
        | Some grace =>
          if negb (grace_ok GRACE_MAX grace)
          then (db, Status 400)
          else
            let tot := fadd (fadd (fadd unit1 unit2) term) annual in
            let sub_avg := round2 (fdiv tot 2) in
            match d_unit1 data, d_unit2 data, d_term data, d_annual data with
            | Some u1, Some u2, Some t, Some a =>
                let mark' :=
                  Mark.mk (Mark.mark_id mark) (Mark.roll_no mark)
                    (Mark.division mark) (Mark.subject_id mark)
                    (Some u1) (Some u2) (Some t) (Some a)
                    (Some tot) (Some sub_avg)
                    (match d_grace data with
                     | Some g => Some g
                     | None => Mark.grace mark
                     end)
                    (Mark.entered_by mark) in
                let db1 := with_marks db (replace_mark mark_id mark' (mark_table db)) in
                (try_recompute recompute (Mark.division mark) db1, Status 200)
            | _, _, _, _ => (db, Raised)
            end
        end
      end
    end
  end.

(** [DELETE /teacher/marks/<mark_id>] *)
Definition delete_mark (recompute : string → DB → option DB)
    (mark_id user_id : Z) (user_type : string) (db : DB) : DB * outcome :=
  match get_mark db mark_id with
  | None => (db, Status 404)
  | Some mark =>
    if negb (bool_decide (user_type = "ADMIN"))
       && negb (bool_decide (Mark.entered_by mark = Some user_id))
    then (db, Status 403)
    else
      let db1 :=
        with_marks db
          (filter (λ m, Mark.mark_id m ≠ mark_id) (mark_table db)) in
      (try_recompute recompute (Mark.division mark) db1, Status 200)
  end.

(** The engine as the handlers call it. *)
Definition engine (dv : string) (db : DB) : option DB :=
  Some (generate_results_for_division dv db).

(** ** The loop seen from a single row

    The body of the loop reads the [Result] table through one query, for
    the student's own row, and writes that row only.  [row_pass] is the
    body as a function of the query's answer. *)

Definition student_complete (db : DB) (student : Student.t) : bool :=
  negb (missing_required (student_mark_map db student)
          (student_required_codes db student)).

Definition row_pass (db : DB) (student : Student.t)
    (existing : option Result.t) : option Result.t :=
  if missing_required (student_mark_map db student)
       (student_required_codes db student)
  then Result.set_percentage None <$> existing
  else Some (score_student (student_mark_map db student) student
               (default (Result.new (Student.roll_no student)
                           (Student.name student) (Student.division student))
                  existing)).

(** The body on a row that exists. *)
Definition row_update (db : DB) (student : Student.t) (r : Result.t)
  : Result.t :=
  if missing_required (student_mark_map db student)
       (student_required_codes db student)
  then Result.set_percentage None r
  else score_student (student_mark_map db student) student r.

Definition same_key (roll : Z) (dv : string) (student : Student.t) : bool :=
  bool_decide (Student.roll_no student = roll ∧ Student.division student = dv).

(** The iterations of [students] that address the row [(roll, dv)]. *)
Definition row_run (db : DB) (roll : Z) (dv : string)
    (students : list Student.t) (r : Result.t) : Result.t :=
  foldl (λ r s, if same_key roll dv s then row_update db s r else r)
    r students.

Definition row_run_opt (db : DB) (roll : Z) (dv : string)
    (students : list Student.t) (o : option Result.t) : option Result.t :=
  foldl (λ o s, if same_key roll dv s then row_pass db s o else o)
    o students.

(** The result, total and count components of the scoring loops. *)
Definition core_rows (mark_map : gmap string Mark.t)
    (l : list (string * subject_field)) (r : Result.t) : Result.t :=
  foldl (λ r cf, match mark_map !! cf.1 with
                 | Some m =>
                     Result.set_grace cf.2 (Some (or_zero (Mark.grace m)))
                       (Result.set_avg cf.2
                          (Some (not_none_or_zero (Mark.annual m))) r)
                 | None => r
                 end) r l.

Definition core_total (mark_map : gmap string Mark.t)
    (l : list (string * subject_field)) (t : Q) : Q :=
  foldl (λ t cf, match mark_map !! cf.1 with
                 | Some m => fadd t (not_none_or_zero (Mark.annual m))
                 | None => t
                 end) t l.

Definition core_count (mark_map : gmap string Mark.t)
    (l : list (string * subject_field)) (c : Z) : Z :=
  foldl (λ c cf, match mark_map !! cf.1 with
                 | Some m => (c + 1)%Z
                 | None => c
                 end) c l.

(** [m.annual if m and m.annual is not None else 0.0] for [m = mark_map.get(code)] *)
Definition annual_of (mark_map : gmap string Mark.t) (code : string) : Q :=
  match mark_map !! code with
  | Some m => not_none_or_zero (Mark.annual m)
  | None => 0
  end.

Definition grace_of (mark_map : gmap string Mark.t) (code : string) : Q :=
  match mark_map !! code with
  | Some m => not_none_or_zero (Mark.grace m)
  | None => 0
  end.

Definition optional_row (code : string) (f : subject_field)
    (mark_map : gmap string Mark.t) (r : Result.t) : Result.t :=
  Result.set_grace f (Some (grace_of mark_map code))
    (Result.set_avg f (Some (annual_of mark_map code)) r).

(** The optional subject scored by each group, if any. *)
Definition chosen_1 (student : Student.t) : option (string * subject_field) :=
  if decide (Student.optional_subject student = Some "HINDI")
  then Some ("HINDI", hindi)
  else if decide (Student.optional_subject student = Some "IT")
  then Some ("IT", it)
  else None.

Definition chosen_2 (student : Student.t) : option (string * subject_field) :=
  if decide (Student.optional_subject_2 student = Some "MATHS")
  then Some ("MATHS", maths)
  else if decide (Student.optional_subject_2 student = Some "SP")
  then Some ("SP", sp)
  else None.

Definition chosen_row (ch : option (string * subject_field))
    (mark_map : gmap string Mark.t) (r : Result.t) : Result.t :=
  match ch with Some (code, f) => optional_row code f mark_map r | None => r end.

Definition chosen_total (ch : option (string * subject_field))
    (mark_map : gmap string Mark.t) (t : Q) : Q :=
  match ch with
  | Some (code, _) => fadd t (annual_of mark_map code)
  | None => t
  end.

Definition chosen_count (ch : option (string * subject_field)) (c : Z) : Z :=
  match ch with Some _ => (c + 1)%Z | None => c end.

Definition scored_row (mark_map : gmap string Mark.t) (student : Student.t)
    (r : Result.t) : Result.t :=
  chosen_row (chosen_2 student) mark_map
    (chosen_row (chosen_1 student) mark_map (core_rows mark_map core_fields r)).

Definition scored_total (mark_map : gmap string Mark.t) (student : Student.t) : Q :=
  chosen_total (chosen_2 student) mark_map
    (chosen_total (chosen_1 student) mark_map
       (core_total mark_map core_fields 0)).

Definition scored_count (mark_map : gmap string Mark.t) (student : Student.t) : Z :=
  chosen_count (chosen_2 student)
    (chosen_count (chosen_1 student) (core_count mark_map core_fields 0%Z)).

(** The columns of [Result], and a uniform way to read one. *)
Inductive column :=
| c_roll_no | c_name | c_division
| c_avg (f : subject_field) | c_grace (f : subject_field)
| c_total_grace | c_percentage | c_evs_grade | c_pe_grade.

Inductive value :=
| VInt (z : Z) | VStr (s : string) | VNum (q : option Q)
| VGrade (g : option string).

Definition read (c : column) (r : Result.t) : value :=
  match c with
  | c_roll_no => VInt (Result.roll_no r)
  | c_name => VStr (Result.name r)
  | c_division => VStr (Result.division r)
  | c_avg f => VNum (Result.get_avg f r)
  | c_grace f => VNum (Result.get_grace f r)
  | c_total_grace => VNum (Result.total_grace r)
  | c_percentage => VNum (Result.percentage r)
  | c_evs_grade => VGrade (Result.evs_grade r)
  | c_pe_grade => VGrade (Result.pe_grade r)
  end.

(** [F] assigns column [c] a value that does not depend on the row, or
    leaves the column alone. *)
Definition overwrites (c : column) (F : Result.t → Result.t) : Prop :=
  (∃ v, ∀ r, read c (F r) = v) ∨ (∀ r, read c (F r) = read c r).

(** [r'] is the row [r] with some columns assigned: same identity. *)
Definition same_identity (r r' : Result.t) : Prop :=
  Result.roll_no r' = Result.roll_no r
  ∧ Result.name r' = Result.name r
  ∧ Result.division r' = Result.division r.

(** [total_grace] holds the sum of the seven columns as they stand. *)
Definition total_grace_settled (r : Result.t) : Prop :=
  Result.total_grace r = Some (sum_not_none (total_grace_columns r)).

(** Some student of the list addresses the row and is complete. *)
Definition scores_row (db : DB) (roll : Z) (dv : string)
    (students : list Student.t) : bool :=
  existsb (λ s, same_key roll dv s && student_complete db s) students.

Global Instance column_eq_dec : EqDecision column.
Proof. solve_decision. Defined.

(** ** Reference definitions, written from the specification

    These follow the words of the design document; the properties below
    compare them with the definitions taken from the source. *)

(** "Deduplicate, preserving first-seen order." *)
Fixpoint dedup_first (seen l : list string) : list string :=
  match l with
  | [] => []
  | c :: l' =>
      if decide (c ∈ seen) then dedup_first seen l'
      else c :: dedup_first (seen ++ [c]) l'
  end.

(** "collect all teacher-subject allocations for the division; map each to
    its subject code" *)
Definition allocation_codes (subjects : gmap Z string)
    (allocs : list TeacherSubjectAllocation.t) : list string :=
  omap (λ a, subjects !! TeacherSubjectAllocation.subject_id a) allocs.

Definition fallback_codes : list string := ["ENG"; "ECO"; "BK"; "OC"].

(** The resolver as the specification words it: the fallback applies when
    the deduplicated list is empty. *)
Definition spec_base_required (subjects : gmap Z string)
    (allocs : list TeacherSubjectAllocation.t) : list string :=
  match dedup_first []
          (filter (λ c, (c ∉ grading_only) ∧ (c ∉ optional_codes))
             (allocation_codes subjects allocs)) with
  | [] => fallback_codes
  | l => l
  end.

(** "append the student's optional_subject if it is HINDI or IT, and
    optional_subject_2 if it is MATHS or SP" *)
Definition optional_extension (student : Student.t) : list string :=
  match Student.optional_subject student with
  | Some c => if bool_decide (c = "HINDI" ∨ c = "IT") then [c] else []
  | None => []
  end ++
  match Student.optional_subject_2 student with
  | Some c => if bool_decide (c = "MATHS" ∨ c = "SP") then [c] else []
  | None => []
  end.

Definition spec_required_codes (subjects : gmap Z string)
    (allocs : list TeacherSubjectAllocation.t) (student : Student.t)
  : list string :=
  spec_base_required subjects allocs ++ optional_extension student.

(** The resolver as the source has it: the fallback applies when the
    division has no allocation at all, and an allocation whose subject has
    an empty code is skipped like one whose subject is unknown. *)
Definition resolved_base_required (subjects : gmap Z string)
    (allocs : list TeacherSubjectAllocation.t) : list string :=
  match allocs with
  | [] => fallback_codes
  | _ => dedup_first []
           (filter (λ c, c ≠ EmptyString
                         ∧ (c ∉ grading_only) ∧ (c ∉ optional_codes))
              (allocation_codes subjects allocs))
  end.

(** "S is the sum of the annual values of exactly those required subjects
    and n is their number": the annuals of [codes], added as floats in the
    order of the list. *)
Definition annual_sum (mark_map : gmap string Mark.t) (codes : list string) : Q :=
  float_sum (omap (λ code, mark_map !! code ≫= Mark.annual) codes).

Definition mean_of_required (mark_map : gmap string Mark.t)
    (codes : list string) : Q :=
  round2 (fdiv (annual_sum mark_map codes)
            (inject_Z (Z.of_nat (length codes)))).

(** The subjects that are scored: those of the four core codes for which
    the student has a mark row, and the student's chosen optionals. *)
Definition scored_codes (mark_map : gmap string Mark.t) (student : Student.t)
  : list string :=
  filter (λ code, is_Some (mark_map !! code)) fallback_codes
  ++ optional_extension student.

(** The codes scored by the optional groups. *)
Definition chosen_codes (ch : option (string * subject_field)) : list string :=
  match ch with Some (code, _) => [code] | None => [] end.

(** The student's roll number occurs once in the division. *)
Definition unique_rolls (db : DB) (division : string) : Prop :=
  NoDup (Student.roll_no <$> division_students db division).

(** The columns of the [<field>_avg] / [<field>_grace] pairs. *)
Definition subject_column (c : column) : bool :=
  match c with c_avg _ | c_grace _ => true | _ => false end.

(** The annual of the student's mark for [code], when there is one. *)
Definition annual_mark (db : DB) (student : Student.t) (code : string)
  : option Q :=
  student_mark_map db student !! code ≫= Mark.annual.

(** The grade bands of the specification, as a relation. *)
Definition grade_band (a : Q) (g : string) : Prop :=
  (75 <= a ∧ g = "A+")
  ∨ (60 <= a ∧ a < 75 ∧ g = "A")
  ∨ (50 <= a ∧ a < 60 ∧ g = "B")
  ∨ (35 <= a ∧ a < 50 ∧ g = "C")
  ∨ (a < 35 ∧ g = "F").

(** The grade column after a scoring: the letter grade of the annual, or
    the column as it was when there is no annual. *)
Definition graded_value (annual : option Q) (before : option string)
  : option string :=
  match annual with Some a => Some (letter_grade a) | None => before end.

(** What the specification says of a grade column: with an annual, the
    grade of its band; without, the column as it was. *)
Definition graded (annual : option Q) (before after : option string) : Prop :=
  match annual with
  | Some a => ∃ g, after = Some g ∧ grade_band a g
  | None => after = before
  end.

(** ** Sample stores *)

Definition sample_mark (id roll : Z) (dv : string) (sid : Z)
    (a g : option Q) : Mark.t :=
  Mark.mk id roll dv sid (Some 0) (Some 0) (Some 0) a None None g (Some 1%Z).

Definition sample_subjects : list Subject.t :=
  [Subject.mk 1 "ENG"; Subject.mk 2 "ECO"; Subject.mk 3 "BK";
   Subject.mk 4 "OC"; Subject.mk 5 "HINDI"; Subject.mk 6 "MATHS";
   Subject.mk 7 "EVS"; Subject.mk 8 "PE"].

Definition asha : Student.t := Student.mk 1 "Asha" "A" None None.

Definition core_allocations : list TeacherSubjectAllocation.t :=
  [TeacherSubjectAllocation.mk 1 1 "A"; TeacherSubjectAllocation.mk 1 2 "A";
   TeacherSubjectAllocation.mk 1 3 "A"; TeacherSubjectAllocation.mk 1 4 "A"].

Definition student_101 : Student.t :=
  Student.mk 101 "Ravi" "A" (Some "HINDI") (Some "MATHS").

(** The worked example of the specification: ENG 80, ECO 70, BK 60, OC 90,
    HINDI 75 and MATHS [maths], with some grace marks and EVS / PE marks
    [evs] and [pe]. *)
Definition example_marks (maths evs pe : option Q) : list Mark.t :=
  [sample_mark 1 101 "A" 1 (Some 80) (Some 2);
   sample_mark 2 101 "A" 2 (Some 70) (Some 5);
   sample_mark 3 101 "A" 3 (Some 60) None;
   sample_mark 4 101 "A" 4 (Some 90) (Some 1);
   sample_mark 5 101 "A" 5 (Some 75) (Some 3);
   sample_mark 6 101 "A" 6 maths None;
   sample_mark 7 101 "A" 7 evs None;
   sample_mark 8 101 "A" 8 pe None].

Definition example_db (maths evs pe : option Q) (rs : list Result.t) : DB :=
  mkDB sample_subjects [student_101] core_allocations
       (example_marks maths evs pe) rs.

(** A row left by an earlier run, with a percentage. *)
Definition stale_row : Result.t :=
  Result.mk 101 "Ravi" "A" None None None None None None None None
    None None None None None None None None None
    (Some (nearest_double (7333 # 100))) None None.

(** The worked example, complete and not yet scored. *)
Definition complete_db : DB := example_db (Some 65) None None [].

(** The same with an EVS annual of 74. *)
Definition graded_db : DB := example_db (Some 65) (Some 74) None [].

(** The MATHS annual is null and an earlier run left a percentage. *)
Definition stale_db : DB := example_db None (Some 74) None [stale_row].

(** The MATHS annual is null, the EVS annual is 80, no row yet. *)
Definition ungraded_db : DB := example_db None (Some 80) None [].

(** Division A where only ENG is allocated; the student also has an ECO mark. *)
Definition eng_only_db : DB :=
  mkDB sample_subjects [asha]
       [TeacherSubjectAllocation.mk 1 1 "A"]
       [sample_mark 1 1 "A" 1 (Some 80) None;
        sample_mark 2 1 "A" 2 (Some 40) None] [].

(** Division A with a single allocation, for HINDI. *)
Definition hindi_only_db : DB :=
  mkDB sample_subjects [asha]
       [TeacherSubjectAllocation.mk 1 5 "A"] [] [].

(** Student 101 with every required mark but MATHS entered; teacher 1 also
    teaches MATHS in division A. *)
Definition pending_db : DB :=
  mkDB sample_subjects [student_101]
       (core_allocations ++ [TeacherSubjectAllocation.mk 1 6 "A"])
       [sample_mark 1 101 "A" 1 (Some 80) (Some 2);
        sample_mark 2 101 "A" 2 (Some 70) (Some 5);
        sample_mark 3 101 "A" 3 (Some 60) None;
        sample_mark 4 101 "A" 4 (Some 90) (Some 1);
        sample_mark 5 101 "A" 5 (Some 75) (Some 3)] [].

(** The request that enters the MATHS mark, with a grace of 4. *)
Definition maths_entry : MarkData :=
  mkData (Some 6%Z) (Some 101%Z) (Some "A") (Some 20) (Some 20) (Some 40)
         (Some 65) (Some 4).

(** The store that request leaves. *)
Definition entered_db : DB := (enter_marks 15 1 maths_entry pending_db).1.

(** Division A on the fallback list, with fractional marks: annuals 60.1,
    70, 70 and 70, graces 0.1 for ENG and 0.2 for BK. *)
Definition fraction_db : DB :=
  mkDB sample_subjects [asha] []
       [sample_mark 1 1 "A" 1 (Some (nearest_double (601 # 10)))
          (Some (nearest_double (1 # 10)));
        sample_mark 2 1 "A" 2 (Some 70) None;
        sample_mark 3 1 "A" 3 (Some 70) (Some (nearest_double (2 # 10)));
        sample_mark 4 1 "A" 4 (Some 70) None] [].

(** The boundary examples of the grade bands, as the thresholds give
    them. *)
Definition boundary_examples : list (Q * string) :=
  [(74, "A"); (75, "A+"); (49, "C"); (50, "B")].

(** ** The claims that fail, as they are worded *)

(** The grade sentence for every student with an EVS annual, complete or
    not, as C5 words it. *)
Definition evs_graded_unconditionally (db : DB) (division : string) (s : Student.t)
  : Prop :=
  ∀ a, annual_mark db s "EVS" = Some a →
       ∃ r g, query_result (Student.roll_no s) division
                (result_table (generate_results_for_division division db))
              = Some r
              ∧ Result.evs_grade r = Some g ∧ grade_band a g.

(** The grades stored for student 101 when the EVS and PE annuals are [a]. *)
Definition grades_at (a : Q) : option (option string * option string) :=
  (λ r, (Result.evs_grade r, Result.pe_grade r))
  <$> query_result 101 "A"
        (result_table
           (generate_results_for_division "A"
              (example_db (Some 65) (Some a) (Some a) []))).

(** The boundary examples as C6 words them. *)
Definition boundary_grades_stated : Prop :=
  grades_at 74 = Some (Some "C", Some "C")
  ∧ grades_at 75 = Some (Some "A+", Some "A+")
  ∧ grades_at 49 = Some (Some "F", Some "F")
  ∧ grades_at 50 = Some (Some "B", Some "B").

(** The percentage sentence as C1 words it, for any required list. *)
Definition percentage_is_required_mean (db : DB) (division : string)
    (s : Student.t) : Prop :=
  student_complete db s = true →
  ∃ r p, query_result (Student.roll_no s) division
           (result_table (generate_results_for_division division db))
         = Some r
         ∧ Result.percentage r = Some p
         ∧ p == mean_of_required (student_mark_map db s)
                  (student_required_codes db s).

(** ** More of [teacher_routes.py]: the helpers and the read handlers

    A read handler answers [Json body status] or [Error status]; it leaves
    the store alone, except [view_complete_table], which runs the engine
    first.  A request argument is [None] when absent. *)

Inductive reply (A : Type) := Json (body : A) (status : Z) | Error (status : Z).
Arguments Json {A} body status.
Arguments Error {A} status.

(** [not x] for a request argument: absent or empty. *)
Definition falsy (x : option string) : bool :=
  match x with
  | Some s => bool_decide (s = EmptyString)
  | None => true
  end.

(** [not x] for the answer of [.first()]. *)
Definition absent {A} (x : option A) : bool :=
  match x with None => true | Some _ => false end.

(** The query both [_eligible_student_count_for_subject] and [get_students]
    build: the division's students, narrowed to those enrolled when the
    subject is one of the optional codes. *)
Definition enrolled_query (db : DB) (subject : Subject.t) (division : string)
  : list Student.t :=
  let code := Subject.subject_code subject in
  let query := division_students db division in
  let query :=
    if bool_decide (code ∈ ["HINDI"; "IT"])
    then filter (λ s, Student.optional_subject s = Some code) query
    else query in
  if bool_decide (code ∈ ["MATHS"; "SP"])
  then filter (λ s, Student.optional_subject_2 s = Some code) query
  else query.

Definition _eligible_student_count_for_subject (db : DB) (subject_id : Z)
    (division : string) : nat :=
  match get_subject db subject_id with
  | None => 0%nat
  | Some subject => length (enrolled_query db subject division)
  end.

Definition _marks_count_for_subject (db : DB) (subject_id : Z)
    (division : string) : nat :=
  length (filter (λ m, Mark.subject_id m = subject_id
                       ∧ Mark.division m = division) (mark_table db)).

Definition _are_all_marks_submitted (db : DB) (subject_id : Z)
    (division : string) : bool :=
  let eligible := _eligible_student_count_for_subject db subject_id division in
  if Nat.eqb eligible 0 then false
  else Nat.leb eligible (_marks_count_for_subject db subject_id division).

(** [.order_by(Student.roll_no)] *)
Definition by_roll_no (a b : Student.t) : Prop :=
  (Student.roll_no a ≤ Student.roll_no b)%Z.

Global Instance by_roll_no_dec : RelDecision by_roll_no.
Proof. intros a b. unfold by_roll_no. apply _. Defined.

Definition order_by_roll_no (l : list Student.t) : list Student.t :=
  merge_sort by_roll_no l.

(** [GET /teacher/students] *)
Definition get_students (user_id : Z) (subject_code division : option string)
    (db : DB) : reply (list (Z * string * string)) :=
  if falsy subject_code || falsy division then Error 400
  else
    match List.find (λ s, bool_decide (Some (Subject.subject_code s) = subject_code))
            (subject_table db) with
    | None => Error 404
    | Some subject =>
      match _check_teacher_allocation db user_id (Subject.subject_id subject)
              division with
      | None => Error 403
      | Some _ =>
        let students :=
          order_by_roll_no
            (enrolled_query db subject (default EmptyString division)) in
        Json ((λ s, (Student.roll_no s, Student.name s, Student.division s))
              <$> students) 200
      end
    end.

(** The ["mark"] object of a [list_marks] row. *)
Record MarkJson := mkMarkJson {
  j_mark_id : option Z;
  j_unit1 : option Q;
  j_unit2 : option Q;
  j_term : option Q;
  j_annual : option Q;
  j_tot : option Q;
  j_sub_avg : option Q;
  j_grace : option Q }.

Definition mark_json (m : option Mark.t) : MarkJson :=
  match m with
  | Some m =>
      mkMarkJson (Some (Mark.mark_id m)) (Mark.unit1 m) (Mark.unit2 m)
        (Mark.term m) (Mark.annual m) (Mark.tot m) (Mark.sub_avg m)
        (Mark.grace m)
  | None => mkMarkJson None None None None None None None (Some 0)
  end.

Record MarkRow := mkMarkRow {
  mr_roll_no : Z;
  mr_name : string;
  mr_division : string;
  mr_mark : MarkJson }.

(** [{m.roll_no: m for m in marks}] *)
Definition marks_by_roll (ms : list Mark.t) : gmap Z Mark.t :=
  foldl (λ d m, <[Mark.roll_no m := m]> d) ∅ ms.

(** [GET /teacher/marks].  [subject_id] is the query argument as the
    number the store compares with the integer column, [None] when the
    argument is absent or empty. *)
Definition list_marks (user_id : Z) (user_type : string)
    (subject_id : option Z) (division : option string) (db : DB)
  : reply (list MarkRow) :=
  match subject_id with
  | None => Error 400
  | Some sid =>
    if falsy division then Error 400
    else
      let dv := default EmptyString division in
      if absent (_check_teacher_allocation db user_id sid division)
         && negb (bool_decide (user_type = "ADMIN"))
      then Error 403
      else
        let students := order_by_roll_no (division_students db dv) in
        let marks := filter (λ m, Mark.subject_id m = sid
                                  ∧ Mark.division m = dv) (mark_table db) in
        let marks_map := marks_by_roll marks in
        Json ((λ s, mkMarkRow (Student.roll_no s) (Student.name s)
                      (Student.division s)
                      (mark_json (marks_map !! Student.roll_no s)))
              <$> students) 200
  end.

(** One entry of the ["subjects"] list of a complete-table row. *)
Record SubjectEntry := mkEntry {
  e_code : string;
  e_avg : option Q;
  e_grace : option Q;
  e_final : option Q }.

Record TableRow := mkTableRow {
  t_seq : Z;
  t_roll_no : Z;
  t_name : string;
  t_subjects : list SubjectEntry;
  t_total_avg : Q;
  t_total_grace : Q;
  t_final_total : option Q;
  t_percentage : option Q }.

(** The state of the two loops over the subjects of a row: the entries so
    far, [total_avg] and [total_grace]. *)
Definition tally : Type := list SubjectEntry * Q * Q.

(** The body both loops share, for a subject that is shown. *)
Definition entry_step (result : option Result.t) (st : tally)
    (cf : string * subject_field) : tally :=
  let '(subject_entries, total_avg, total_grace) := st in
  let avg := result ≫= Result.get_avg cf.2 in
  let grace := match result with
               | Some r => Result.get_grace cf.2 r
               | None => Some 0
               end in
  match avg with
  | Some a =>
      (subject_entries
       ++ [mkEntry cf.1 avg grace
             (Some (fadd (or_zero (Some a)) (or_zero grace)))],
       fadd total_avg (or_zero (Some a)), fadd total_grace (or_zero grace))
  | None =>
      (subject_entries ++ [mkEntry cf.1 avg grace None],
       total_avg, total_grace)
  end.

Definition optional_fields : list (string * subject_field) :=
  [("HINDI", hindi); ("IT", it); ("MATHS", maths); ("SP", sp)].

(** [include] of the loop over the optional subjects. *)
Definition includes (s : Student.t) (code : string) : bool :=
  (bool_decide (code ∈ ["HINDI"; "IT"])
   && bool_decide (Student.optional_subject s = Some code))
  || (bool_decide (code ∈ ["MATHS"; "SP"])
      && bool_decide (Student.optional_subject_2 s = Some code)).

Definition optional_entry_step (s : Student.t) (result : option Result.t)
    (st : tally) (cf : string * subject_field) : tally :=
  if includes s cf.1 then entry_step result st cf else st.

(** The row of one student, numbered [idx]. *)
Definition table_row (rs : list Result.t) (idx : Z) (s : Student.t)
  : TableRow :=
  let result :=
    query_result (Student.roll_no s) (Student.division s) rs in
  let st := foldl (entry_step result) ([], 0, 0) core_fields in
  let '(subject_entries, total_avg, total_grace) :=
    foldl (optional_entry_step s result) st optional_fields in
  let final_total :=
    match subject_entries with
    | [] => None
    | _ => Some (fadd total_avg total_grace)
    end in
  mkTableRow idx (Student.roll_no s) (Student.name s) subject_entries
    (round2 total_avg) (round2 total_grace) (round2 <$> final_total)
    (result ≫= Result.percentage).

(** [enumerate(students, start=1)] *)
Definition enumerate_from_1 {A} (l : list A) : list (Z * A) :=
  imap (λ i x, (Z.of_nat i + 1, x)%Z) l.

(** [GET /teacher/complete-table] *)
Definition view_complete_table (recompute : string → DB → option DB)
    (user_id : Z) (user_type : string) (division : option string) (db : DB)
  : DB * reply (list TableRow) :=
  if falsy division then (db, Error 400)
  else
    let dv := default EmptyString division in
    if absent (List.find
                 (λ a, bool_decide
                         (TeacherSubjectAllocation.teacher_id a = user_id
                          ∧ TeacherSubjectAllocation.division a = dv))
                 (allocation_table db))
       && negb (bool_decide (user_type = "ADMIN"))
    then (db, Error 403)
    else
      let db1 := try_recompute recompute dv db in
      let students := order_by_roll_no (division_students db1 dv) in
      (db1,
       Json ((λ '(idx, s), table_row (result_table db1) idx s)
             <$> enumerate_from_1 students) 200).

(** ** Invariants of the store *)

(** "At most one Mark row per (roll_no, division, subject_id)." *)
Definition mark_key (m : Mark.t) : Z * string * Z :=
  (Mark.roll_no m, Mark.division m, Mark.subject_id m).

Definition mark_keys_unique (db : DB) : Prop :=
  NoDup (mark_key <$> mark_table db).

(** At most one Result row per (roll_no, division). *)
Definition result_key (r : Result.t) : Z * string :=
  (Result.roll_no r, Result.division r).

Definition result_keys_unique (rs : list Result.t) : Prop :=
  NoDup (result_key <$> rs).

(** A nullable number within [lo, hi]. *)
Definition within (lo hi : Q) (x : option Q) : Prop :=
  match x with Some v => lo <= v ∧ v <= hi | None => False end.

(** The components a handler accepts. *)
Definition mark_in_range (GRACE_MAX : Z) (m : Mark.t) : Prop :=
  within 0 25 (Mark.unit1 m) ∧ within 0 25 (Mark.unit2 m)
  ∧ within 0 50 (Mark.term m) ∧ within 0 100 (Mark.annual m)
  ∧ within 0 200 (Mark.tot m) ∧ within 0 100 (Mark.sub_avg m)
  ∧ within 0 (inject_Z GRACE_MAX) (Mark.grace m).

(** The pieces of [enter_marks], named. *)
Definition find_student (db : DB) (roll : option Z) (dv : option string)
  : option Student.t :=
  List.find (λ s, bool_decide (Some (Student.roll_no s) = roll
                               ∧ Some (Student.division s) = dv))
    (student_table db).

Definition find_subject_mark (db : DB) (student : Student.t)
    (subject : Subject.t) : option Mark.t :=
  List.find (λ m, bool_decide
                    (Mark.roll_no m = Student.roll_no student
                     ∧ Mark.division m = Student.division student
                     ∧ Mark.subject_id m = Subject.subject_id subject))
    (mark_table db).

(** The enrolment check on an optional subject. *)
Definition enrolled (student : Student.t) (subject : Subject.t) : Prop :=
  let code := Subject.subject_code subject in
  (code ∈ ["HINDI"; "IT"] → Student.optional_subject student = Some code)
  ∧ (code ∈ ["MATHS"; "SP"] → Student.optional_subject_2 student = Some code).

(** The mark [enter_marks] builds. *)
Definition entered_mark (user_id : Z) (data : MarkData) (db : DB)
    (student : Student.t) (subject : Subject.t) : Mark.t :=
  let unit1 := get_or_zero (d_unit1 data) in
  let unit2 := get_or_zero (d_unit2 data) in
  let term := get_or_zero (d_term data) in
  let annual := get_or_zero (d_annual data) in
  let tot := fadd (fadd (fadd unit1 unit2) term) annual in
  Mark.mk (next_mark_id (mark_table db))
    (Student.roll_no student) (Student.division student)
    (Subject.subject_id subject)
    (Some unit1) (Some unit2) (Some term) (Some annual)
    (Some tot) (Some (round2 (fdiv tot 2))) (Some 0) (Some user_id).

(** The mark [update_marks] writes back. *)
Definition updated_mark (mark : Mark.t) (u1 u2 t a grace : Q) : Mark.t :=
  Mark.mk (Mark.mark_id mark) (Mark.roll_no mark) (Mark.division mark)
    (Mark.subject_id mark) (Some u1) (Some u2) (Some t) (Some a)
    (Some (fadd (fadd (fadd u1 u2) t) a))
    (Some (round2 (fdiv (fadd (fadd (fadd u1 u2) t) a) 2)))
    (Some grace) (Mark.entered_by mark).

(** [mark_id] is the primary key of the Mark table. *)
Definition mark_ids_unique (db : DB) : Prop :=
  NoDup (Mark.mark_id <$> mark_table db).


Global Instance enrolled_dec student subject :
  Decision (enrolled student subject).
Proof. unfold enrolled. apply _. Defined.

(** The body of a reply, empty for an error. *)
Definition reply_body {A} (r : reply (list A)) : list A :=
  match r with Json body _ => body | Error _ => [] end.

(** The students [_eligible_student_count_for_subject] counts. *)
Definition eligible_students (db : DB) (subject : Subject.t)
    (division : string) : list Student.t :=
  filter (λ s, Student.division s = division ∧ enrolled s subject)
    (student_table db).

(** The marks [_marks_count_for_subject] counts. *)
Definition subject_marks (db : DB) (subject_id : Z) (division : string)
  : list Mark.t :=
  filter (λ m, Mark.subject_id m = subject_id ∧ Mark.division m = division)
    (mark_table db).

(** ** Sums over the entries of a complete-table row *)

(** The averages that are added up: those of the entries that have one. *)
Definition shown_avgs (entries : list SubjectEntry) : list Q :=
  or_zero ∘ e_avg <$> filter (λ e, is_Some (e_avg e)) entries.

(** The graces that are added up: those of the entries that have an
    average. *)
Definition counted_graces (entries : list SubjectEntry) : list Q :=
  or_zero ∘ e_grace <$> filter (λ e, is_Some (e_avg e)) entries.

(** What the two loops of [view_complete_table] keep true of their state. *)
Definition tally_ok (st : tally) : Prop :=
  let '(entries, total_avg, total_grace) := st in
  total_avg = float_sum (shown_avgs entries)
  ∧ total_grace = float_sum (counted_graces entries)
  ∧ Forall (λ e, e_final e
                 = (λ a, fadd (or_zero (Some a)) (or_zero (e_grace e)))
                   <$> e_avg e)
      entries.

(** ** More invariants of the store *)

Definition student_key (s : Student.t) : Z * string :=
  (Student.roll_no s, Student.division s).

(** A nullable number that is null or within [lo, hi]. *)
Definition null_or_within (lo hi : Q) (x : option Q) : Prop :=
  match x with Some v => lo <= v ∧ v <= hi | None => True end.

Definition annuals_in_range (db : DB) : Prop :=
  Forall (λ m, null_or_within 0 100 (Mark.annual m)) (mark_table db).

Definition percentages_in_range (rs : list Result.t) : Prop :=
  Forall (λ r, null_or_within 0 100 (Result.percentage r)) rs.

(** Annuals and percentages are within 0..100 wherever they are set. *)
Definition ranges_ok (db : DB) : Prop :=
  annuals_in_range db ∧ percentages_in_range (result_table db).

(** The optional subjects the scoring writes for a student. *)
Definition chosen_fields (s : Student.t) : list (string * subject_field) :=
  option_list (chosen_1 s) ++ option_list (chosen_2 s).

(** ** [admin_routes.py]: the handler that runs the engine

    [POST /admin/results/generate]: the engine is called outside any [try],
    on the ["division"] value of the JSON payload. *)
Definition generate_results (division : option string) (db : DB)
  : DB * outcome :=
  if falsy division then (db, Status 400)
  else (generate_results_for_division (default EmptyString division) db,
        Status 200).

(** ** More sample stores *)

(** The worked example, complete, with the row an earlier run left. *)
Definition rerun_db : DB := example_db (Some 65) None None [stale_row].
(** * Properties *)

(** ** Floats *)

Lemma round_half_even_ge (x : Q) (n : Z) :
  inject_Z n <= x → (n ≤ round_half_even x)%Z.
Proof.
  intros H. unfold round_half_even. cbv zeta.
  assert (n ≤ Qfloor x)%Z as Hf.
  { rewrite <- (Qfloor_Z n). by apply Qfloor_resp_le. }
  destruct (Qcompare _ _); [destruct (Z.even _)| |]; lia.
Qed.

Lemma round_half_even_le (x : Q) (n : Z) :
  x <= inject_Z n → (round_half_even x ≤ n)%Z.
Proof.
  intros H. unfold round_half_even. cbv zeta.
  assert (Qfloor x ≤ n)%Z as Hf.
  { rewrite <- (Qfloor_Z n). by apply Qfloor_resp_le. }
  destruct (decide (Qfloor x = n)) as [Hn|Hn].
  - assert (x - inject_Z (Qfloor x) < 1 # 2) as Hlt.
    { rewrite Hn. apply Qle_lt_trans with (y := 0); [|reflexivity].
      apply (Qplus_le_l _ _ (inject_Z n)). ring_simplify. exact H. }
    assert (Qcompare (x - inject_Z (Qfloor x)) (1 # 2) = Lt) as ->
      by (by apply Qlt_alt).
    lia.
  - destruct (Qcompare _ _); [destruct (Z.even _)| |]; lia.
Qed.

Lemma round_half_even_mono (x y : Q) :
  x <= y → (round_half_even x ≤ round_half_even y)%Z.
Proof.
  intros H.
  assert (Qfloor x ≤ Qfloor y)%Z as Hf by (by apply Qfloor_resp_le).
  destruct (decide (Qfloor x = Qfloor y)) as [E|E].
  - unfold round_half_even. cbv zeta. rewrite E.
    destruct (Qcompare (x - inject_Z (Qfloor y)) (1 # 2)) eqn:Ex;
      destruct (Qcompare (y - inject_Z (Qfloor y)) (1 # 2)) eqn:Ey;
      try destruct (Z.even _); try lia; exfalso.
    all: repeat match goal with
                | H : (_ ?= _) = Eq |- _ => apply Qeq_alt in H
                | H : (_ ?= _) = Lt |- _ => apply Qlt_alt in H
                | H : (_ ?= _) = Gt |- _ => apply Qgt_alt in H
                end; lra.
  - assert (round_half_even x ≤ Qfloor x + 1)%Z.
    { apply round_half_even_le. apply Qlt_le_weak, Qlt_floor. }
    assert (Qfloor y ≤ round_half_even y)%Z.
    { apply round_half_even_ge. apply Qfloor_le. }
    lia.
Qed.

Lemma inject_Z_le n m : (n ≤ m)%Z → inject_Z n <= inject_Z m.
Proof. intros H. by rewrite <- Zle_Qle. Qed.

Lemma inject_Z_lt n m : (n < m)%Z → inject_Z n < inject_Z m.
Proof. intros H. by rewrite <- Zlt_Qlt. Qed.

Lemma pow2_pos e : 0 < 2 ^ e.
Proof. by apply Qpower_0_lt. Qed.

Lemma pow2_plus a b : 2 ^ (a + b) == 2 ^ a * 2 ^ b.
Proof. by apply Qpower_plus. Qed.

Lemma pow2_inject e : (0 ≤ e)%Z → 2 ^ e == inject_Z (2 ^ e).
Proof. intros H. by rewrite Zpower_Qpower. Qed.

Lemma pow2_le a b : (a ≤ b)%Z → 2 ^ a <= 2 ^ b.
Proof. intros H. by apply Qpower_le_compat_l. Qed.

Lemma pow2_lt_inv a b : 2 ^ a < 2 ^ b → (a < b)%Z.
Proof. intros H. by apply (Qpower_lt_compat_l_inv 2). Qed.

Lemma flog2_spec q :
  0 < q → 2 ^ flog2 q <= q ∧ q < 2 ^ (flog2 q + 1).
Proof.
  intros Hq. destruct q as [n d]. unfold flog2. cbn [Qnum Qden].
  assert (0 < n)%Z as Hn.
  { unfold Qlt in Hq. simpl in Hq. lia. }
  set (a := Z.log2 n). set (b := Z.log2 (Z.pos d)).
  destruct (Z.log2_spec n Hn) as [Ha1 Ha2].
  destruct (Z.log2_spec (Z.pos d) eq_refl) as [Hb1 Hb2].
  fold a in Ha1, Ha2. fold b in Hb1, Hb2.
  assert (0 ≤ a)%Z as Ha0 by apply Z.log2_nonneg.
  assert (0 ≤ b)%Z as Hb0 by apply Z.log2_nonneg.
  assert (n # d == inject_Z n / inject_Z (Z.pos d)) as Eq by apply Qmake_Qdiv.
  assert (0 < inject_Z (Z.pos d)) as Hd by (by apply (inject_Z_lt 0)).
  assert (2 ^ a <= inject_Z n) as Qa1.
  { rewrite pow2_inject by done. by apply inject_Z_le. }
  assert (inject_Z n < 2 ^ (a + 1)) as Qa2.
  { rewrite pow2_inject by lia. apply inject_Z_lt. by rewrite Z.add_1_r. }
  assert (2 ^ b <= inject_Z (Z.pos d)) as Qb1.
  { rewrite pow2_inject by done. by apply inject_Z_le. }
  assert (inject_Z (Z.pos d) < 2 ^ (b + 1)) as Qb2.
  { rewrite pow2_inject by lia. apply inject_Z_lt. by rewrite Z.add_1_r. }
  (* 2^(a-b-1) < q < 2^(a-b+1) *)
  assert (2 ^ (a - b - 1) < n # d) as Hlo.
  { rewrite Eq. apply Qlt_shift_div_l; [done|].
    apply Qlt_le_trans with (y := 2 ^ (a - b - 1) * 2 ^ (b + 1)).
    - apply Qmult_lt_l; [apply pow2_pos|done].
    - rewrite <- pow2_plus. replace (a - b - 1 + (b + 1))%Z with a by lia.
      done. }
  assert (n # d < 2 ^ (a - b + 1)) as Hhi.
  { rewrite Eq. apply Qlt_shift_div_r; [done|].
    apply Qlt_le_trans with (y := 2 ^ (a + 1)); [done|].
    replace (a + 1)%Z with (a - b + 1 + b)%Z by lia. rewrite pow2_plus.
    apply Qmult_le_l; [apply pow2_pos|done]. }
  destruct (Qle_bool (2 ^ (a - b)) (n # d)) eqn:E.
  - apply Qle_bool_iff in E. done.
  - split; [by apply Qlt_le_weak|].
    replace (a - b - 1 + 1)%Z with (a - b)%Z by lia.
    apply Qnot_le_lt. intros H. apply Qle_bool_iff in H. congruence.
Qed.

Lemma flog2_mono x y : 0 < x → x <= y → (flog2 x ≤ flog2 y)%Z.
Proof.
  intros Hx Hxy.
  destruct (flog2_spec x Hx) as [Hx1 _].
  destruct (flog2_spec y) as [_ Hy2]; [by eapply Qlt_le_trans|].
  assert (2 ^ flog2 x < 2 ^ (flog2 y + 1)) as H.
  { eapply Qle_lt_trans; [exact Hx1|]. by eapply Qle_lt_trans. }
  apply pow2_lt_inv in H. lia.
Qed.

Lemma Qabs_pos_eq q : 0 <= q → Qabs q = q.
Proof.
  destruct q as [n d]. unfold Qle. simpl. intros H.
  f_equal. lia.
Qed.

Lemma nearest_double_nonneg x : 0 <= x → 0 <= nearest_double x.
Proof.
  intros Hx. unfold nearest_double.
  destruct (Qeq_bool x 0); [apply Qle_refl|]. rewrite Qred_correct.
  apply Qmult_le_0_compat; [|apply Qlt_le_weak, pow2_pos].
  apply (inject_Z_le 0). apply round_half_even_ge.
  apply Qle_shift_div_l; [apply pow2_pos|]. by rewrite Qmult_0_l.
Qed.

Lemma nearest_double_mono x y :
  0 <= x → x <= y → nearest_double x <= nearest_double y.
Proof.
  intros Hx Hxy.
  assert (0 <= y) as Hy by (by eapply Qle_trans).
  unfold nearest_double at 1.
  destruct (Qeq_bool x 0) eqn:Ex; [by apply nearest_double_nonneg|].
  assert (0 < x) as Hx'.
  { apply Qle_lteq in Hx as [?|E]; [done|].
    symmetry in E. apply Qeq_bool_iff in E. congruence. }
  assert (0 < y) as Hy' by (by eapply Qlt_le_trans).
  unfold nearest_double.
  destruct (Qeq_bool y 0) eqn:Ey.
  { apply Qeq_bool_iff in Ey. rewrite Ey in Hy'. by apply Qlt_irrefl in Hy'. }
  rewrite !Qred_correct. unfold ulp_exp.
  rewrite (Qabs_pos_eq x), (Qabs_pos_eq y) by done.
  pose proof (flog2_mono x y Hx' Hxy) as Hm.
  destruct (flog2_spec x Hx') as [Hx1 Hx2].
  destruct (flog2_spec y Hy') as [Hy1 Hy2].
  set (ex := flog2 x) in *. set (ey := flog2 y) in *.
  set (kx := Z.max (-1074) (ex - 52)). set (ky := Z.max (-1074) (ey - 52)).
  destruct (decide (kx = ky)) as [E|E].
  - rewrite E. apply Qmult_le_compat_r; [|apply Qlt_le_weak, pow2_pos].
    apply inject_Z_le, round_half_even_mono.
    apply Qmult_le_compat_r; [done|].
    apply Qlt_le_weak, Qinv_lt_0_compat, pow2_pos.
  - assert (kx < ky)%Z as Hk by lia.
    assert (ky = ey - 52)%Z as Eky by lia.
    assert (ex + 1 ≤ ey)%Z as Hex by lia.
    apply Qle_trans with (y := 2 ^ ey).
    + assert (round_half_even (x / 2 ^ kx) ≤ 2 ^ (ey - kx))%Z as Hr.
      { apply round_half_even_le. rewrite <- pow2_inject by lia.
        apply Qle_shift_div_r; [apply pow2_pos|].
        rewrite <- pow2_plus. replace (ey - kx + kx)%Z with ey by lia.
        apply Qle_trans with (y := 2 ^ (ex + 1)); [by apply Qlt_le_weak|].
        by apply pow2_le. }
      apply inject_Z_le in Hr. rewrite <- pow2_inject in Hr by lia.
      apply Qle_trans with (y := 2 ^ (ey - kx) * 2 ^ kx).
      * apply Qmult_le_compat_r; [done|apply Qlt_le_weak, pow2_pos].
      * rewrite <- pow2_plus. replace (ey - kx + kx)%Z with ey by lia.
        apply Qle_refl.
    + assert (2 ^ 52 ≤ round_half_even (y / 2 ^ ky))%Z as Hr.
      { apply round_half_even_ge. rewrite <- pow2_inject by lia.
        apply Qle_shift_div_l; [apply pow2_pos|].
        rewrite <- pow2_plus, Eky. replace (52 + (ey - 52))%Z with ey by lia.
        done. }
      apply inject_Z_le in Hr. rewrite <- pow2_inject in Hr by lia.
      apply Qle_trans with (y := 2 ^ 52 * 2 ^ ky).
      * rewrite <- pow2_plus, Eky. replace (52 + (ey - 52))%Z with ey by lia.
        apply Qle_refl.
      * apply Qmult_le_compat_r; [done|apply Qlt_le_weak, pow2_pos].
Qed.

(** A representable bound survives the rounding. *)
Lemma nearest_double_within (x b : Q) :
  nearest_double b == b → 0 <= x → x <= b →
  0 <= nearest_double x ∧ nearest_double x <= b.
Proof.
  intros Hb H0 Hx. split; [by apply nearest_double_nonneg|].
  rewrite <- Hb. by apply nearest_double_mono.
Qed.

Lemma fadd_within (x y a b c : Q) :
  nearest_double c == c → a + b == c →
  0 <= x → x <= a → 0 <= y → y <= b →
  0 <= fadd x y ∧ fadd x y <= c.
Proof.
  intros Hc Hab Hx0 Hxa Hy0 Hyb. apply nearest_double_within; [done|..].
  - change 0 with (0 + 0). by apply Qplus_le_compat.
  - rewrite <- Hab. by apply Qplus_le_compat.
Qed.

Lemma round2_within (q : Q) (n : Z) :
  nearest_double (inject_Z n) == inject_Z n →
  0 <= q → q <= inject_Z n → 0 <= round2 q ∧ round2 q <= inject_Z n.
Proof.
  intros Hn H0 Hq. unfold round2.
  assert (0 ≤ round_half_even (q * 100))%Z as Hlo.
  { apply round_half_even_ge. change (inject_Z 0) with (0 * 100).
    by apply Qmult_le_compat_r. }
  assert (round_half_even (q * 100) ≤ n * 100)%Z as Hhi.
  { apply round_half_even_le. rewrite inject_Z_mult.
    by apply Qmult_le_compat_r. }
  apply nearest_double_within; [done|..]; unfold Qle; simpl; lia.
Qed.

Lemma round_half_even_Z (x : Q) (n : Z) :
  x == inject_Z n → round_half_even x = n.
Proof.
  intros H. apply Z.le_antisymm.
  - apply round_half_even_le. rewrite H. apply Qle_refl.
  - apply round_half_even_ge. rewrite H. apply Qle_refl.
Qed.

Lemma pow2_le_inv a b : 2 ^ a <= 2 ^ b → (a ≤ b)%Z.
Proof. intros H. by apply (Qpower_le_compat_l_inv 2). Qed.

(** The integers below 2^53 are floats. *)
Lemma nearest_double_Z (n : Z) :
  (0 ≤ n < 2 ^ 53)%Z → nearest_double (inject_Z n) == inject_Z n.
Proof.
  intros [H0 H53]. unfold nearest_double.
  destruct (Qeq_bool (inject_Z n) 0) eqn:E.
  { apply Qeq_bool_iff in E. by rewrite E. }
  assert (0 < n)%Z as Hn.
  { destruct (decide (n = 0%Z)) as [->|?]; [done|lia]. }
  assert (0 < inject_Z n) as Hq by (by apply (inject_Z_lt 0)).
  rewrite Qred_correct. unfold ulp_exp.
  rewrite Qabs_pos_eq by (by apply Qlt_le_weak).
  destruct (flog2_spec (inject_Z n) Hq) as [He _].
  set (e := flog2 (inject_Z n)) in *.
  assert (e ≤ 52)%Z as He52.
  { assert (2 ^ e < 2 ^ 53) as H.
    { eapply Qle_lt_trans; [exact He|]. rewrite (pow2_inject 53) by done.
      by apply inject_Z_lt. }
    apply pow2_lt_inv in H. lia. }
  set (k := Z.max (-1074) (e - 52)).
  assert (k ≤ 0)%Z as Hk by lia.
  assert (inject_Z n / 2 ^ k == inject_Z (n * 2 ^ (- k))) as Hdiv.
  { rewrite inject_Z_mult, <- pow2_inject by lia.
    rewrite Qpower_opp. reflexivity. }
  rewrite (round_half_even_Z _ _ Hdiv), inject_Z_mult.
  rewrite <- pow2_inject by lia. rewrite <- Qmult_assoc, <- pow2_plus.
  replace (- k + k)%Z with 0%Z by lia. apply Qmult_1_r.
Qed.

(** A sum of floats within 0..100 is within 0..100 times their number. *)
Lemma float_sum_within (l : list Q) :
  Forall (λ x, 0 <= x ∧ x <= 100) l →
  (100 * Z.of_nat (length l) < 2 ^ 53)%Z →
  0 <= float_sum l ∧ float_sum l <= inject_Z (100 * Z.of_nat (length l)).
Proof.
  unfold float_sum. induction l as [|x l IH] using rev_ind; intros Hall Hlen.
  - split; apply Qle_refl.
  - apply Forall_app in Hall as [Hall Hx].
    apply Forall_singleton in Hx as [Hx0 Hx100].
    rewrite length_app in *. cbn [length] in *.
    rewrite Nat.add_1_r, Nat2Z.inj_succ in *.
    change (2 ^ 53)%Z with 9007199254740992%Z in *.
    assert (100 * Z.of_nat (length l) < 9007199254740992)%Z as Hl by lia.
    destruct (IH Hall Hl) as [IH0 IH100].
    rewrite foldl_app. cbn [foldl].
    apply (fadd_within _ _ (inject_Z (100 * Z.of_nat (length l))) 100);
      try done.
    + apply nearest_double_Z.
      change (2 ^ 53)%Z with 9007199254740992%Z. lia.
    + replace (100 * Z.succ (Z.of_nat (length l)))%Z
        with (100 * Z.of_nat (length l) + 100)%Z by lia.
      by rewrite inject_Z_plus.
Qed.

(** ** The required-subject resolver *)

Lemma base_required_loop_acc subjects allocs acc :
  foldl (base_required_step subjects) acc allocs
  = acc ++ dedup_first acc
             (filter (λ c, c ≠ EmptyString
                           ∧ (c ∉ grading_only) ∧ (c ∉ optional_codes))
                (allocation_codes subjects allocs)).
Proof.
  revert acc. induction allocs as [|a allocs IH]; intros acc; simpl.
  - by rewrite app_nil_r.
  - unfold allocation_codes in *. unfold base_required_step at 2. simpl.
    destruct (subjects !! TeacherSubjectAllocation.subject_id a) as [code|];
      simpl; [|apply IH].
    rewrite IH. rewrite filter_cons.
    destruct (decide (code = EmptyString)) as [->|Hne].
    { destruct (decide (EmptyString ≠ EmptyString ∧ _ ∧ _)) as [[? _]|_]; done. }
    destruct (decide (code ∈ grading_only ∨ code ∈ optional_codes)) as [Hx|Hx].
    { destruct (decide (code ≠ EmptyString ∧ _ ∧ _)) as [Hk|_];
        [exfalso; tauto|done]. }
    destruct (decide (code ≠ EmptyString ∧ _ ∧ _)) as [_|Hk]; [|exfalso; tauto].
    simpl.
    destruct (decide (code ∈ acc)); [done|].
    by rewrite <- app_assoc.
Qed.

Lemma base_required_of_resolved subjects allocs :
  base_required_of subjects allocs = resolved_base_required subjects allocs.
Proof.
  destruct allocs as [|a allocs]; [done|].
  unfold base_required_of, resolved_base_required, base_required_loop.
  by rewrite base_required_loop_acc.
Qed.

Lemma elem_of_pair (c a b : string) : c ∈ [a; b] ↔ c = a ∨ c = b.
Proof. rewrite !elem_of_cons, elem_of_nil. tauto. Qed.

Lemma required_codes_of_extension base student :
  required_codes_of base student = base ++ optional_extension student.
Proof.
  unfold required_codes_of, optional_extension.
  destruct (Student.optional_subject student) as [c1|],
           (Student.optional_subject_2 student) as [c2|]; simpl.
  all: repeat match goal with
       | |- context [bool_decide (?c ∈ [?a; ?b])] =>
           rewrite (bool_decide_ext _ _ (elem_of_pair c a b))
       end.
  all: repeat case_bool_decide; simpl;
       rewrite ?app_nil_r, <- ?app_assoc; done.
Qed.

(** C3, as amended: the required codes of a student are the division's
    allocation codes, without empty codes, EVS, PE, HINDI, IT, MATHS and SP,
    deduplicated in first-seen order, or [ENG; ECO; BK; OC] when the
    division has no allocation at all; followed by the student's
    optional_subject when it is HINDI or IT and optional_subject_2 when it is
    MATHS or SP. *)
Theorem required_codes_resolved db student :
  student_required_codes db student
  = resolved_base_required (subjects_dict (subject_table db))
      (division_allocs db (Student.division student))
    ++ optional_extension student.
Proof.
  unfold student_required_codes.
  by rewrite required_codes_of_extension, base_required_of_resolved.
Qed.

(** C3 as stated fails: with a single allocation, for HINDI, the filtered
    list is empty and the source requires nothing, where the specification
    falls back to the four core codes. *)
Lemma required_codes_no_fallback :
  student_required_codes hindi_only_db asha = []
  ∧ spec_required_codes (subjects_dict (subject_table hindi_only_db))
      (division_allocs hindi_only_db "A") asha
    = ["ENG"; "ECO"; "BK"; "OC"]
  ∧ student_required_codes hindi_only_db asha
    ≠ spec_required_codes (subjects_dict (subject_table hindi_only_db))
        (division_allocs hindi_only_db "A") asha.
Proof. vm_compute. split; [done|]. split; [done|]. discriminate. Qed.

(** ** Columns of a result row *)

Lemma Result_ext r r' : (∀ c, read c r = read c r') → r = r'.
Proof.
  intros H. destruct r, r'.
  pose proof (H c_roll_no). pose proof (H c_name). pose proof (H c_division).
  pose proof (H c_total_grace). pose proof (H c_percentage).
  pose proof (H c_evs_grade). pose proof (H c_pe_grade).
  pose proof (H (c_avg eng)). pose proof (H (c_avg eco)).
  pose proof (H (c_avg bk)). pose proof (H (c_avg oc)).
  pose proof (H (c_avg hindi)). pose proof (H (c_avg it)).
  pose proof (H (c_avg maths)). pose proof (H (c_avg sp)).
  pose proof (H (c_grace eng)). pose proof (H (c_grace eco)).
  pose proof (H (c_grace bk)). pose proof (H (c_grace oc)).
  pose proof (H (c_grace hindi)). pose proof (H (c_grace it)).
  pose proof (H (c_grace maths)). pose proof (H (c_grace sp)).
  clear H. simpl in *. by simplify_eq.
Qed.

Lemma overwrites_id c : overwrites c (λ r, r).
Proof. by right. Qed.

Lemma overwrites_comp c F1 F2 :
  overwrites c F1 → overwrites c F2 → overwrites c (λ r, F2 (F1 r)).
Proof.
  intros H1 [[v Hv]|H2].
  - left. exists v. intros r. apply Hv.
  - destruct H1 as [[v Hv]|H1].
    + left. exists v. intros r. by rewrite H2.
    + right. intros r. by rewrite H2.
Qed.

Lemma overwrites_ext c F F' :
  (∀ r, F r = F' r) → overwrites c F → overwrites c F'.
Proof.
  intros E [[v Hv]|H]; [left; exists v|right]; intros r; rewrite <- E; auto.
Qed.

Lemma overwrites_foldl {A} c (step : Result.t → A → Result.t) l :
  (∀ x, overwrites c (λ r, step r x)) →
  overwrites c (λ r, foldl step r l).
Proof.
  intros H. induction l as [|x l IH]; simpl.
  - apply overwrites_id.
  - apply (overwrites_comp c (λ r, step r x) (λ r, foldl step r l)); auto.
Qed.

Lemma overwrites_set_avg c f v : overwrites c (Result.set_avg f v).
Proof.
  destruct c as [| | |g|g| | | |]; try (right; reflexivity).
  destruct (decide (f = g)) as [->|Hne].
  - left. exists (VNum v). intros r. by destruct g.
  - right. intros r. destruct f, g; try reflexivity; congruence.
Qed.

Lemma overwrites_set_grace c f v : overwrites c (Result.set_grace f v).
Proof.
  destruct c as [| | |g|g| | | |]; try (right; reflexivity).
  destruct (decide (f = g)) as [->|Hne].
  - left. exists (VNum v). intros r. by destruct g.
  - right. intros r. destruct f, g; try reflexivity; congruence.
Qed.

Lemma overwrites_set_percentage c v : overwrites c (Result.set_percentage v).
Proof.
  destruct c as [| | |g|g| | | |];
    try (right; intros r; by try destruct g).
  left. by exists (VNum v).
Qed.

Lemma overwrites_set_evs_grade c v : overwrites c (Result.set_evs_grade v).
Proof.
  destruct c as [| | |g|g| | | |];
    try (right; intros r; by try destruct g).
  left. by exists (VGrade v).
Qed.

Lemma overwrites_set_pe_grade c v : overwrites c (Result.set_pe_grade v).
Proof.
  destruct c as [| | |g|g| | | |];
    try (right; intros r; by try destruct g).
  left. by exists (VGrade v).
Qed.

Lemma read_set_total_grace c v r :
  c ≠ c_total_grace → read c (Result.set_total_grace v r) = read c r.
Proof. intros Hc. destruct c as [| | |g|g| | | |]; try done; by destruct g. Qed.

Lemma read_set_percentage c v r :
  c ≠ c_percentage → read c (Result.set_percentage v r) = read c r.
Proof. intros Hc. destruct c as [| | |g|g| | | |]; try done; by destruct g. Qed.

(** ** The scoring loops, component by component *)

Lemma core_loop_split mark_map l r t c :
  foldl (core_step mark_map) (r, t, c) l
  = (core_rows mark_map l r, core_total mark_map l t, core_count mark_map l c).
Proof.
  revert r t c. induction l as [|cf l IH]; intros r t c; [done|].
  simpl. destruct (mark_map !! cf.1); apply IH.
Qed.

Lemma optional_group_1_split mark_map student r t c :
  optional_group_1 mark_map student (r, t, c)
  = (chosen_row (chosen_1 student) mark_map r,
     chosen_total (chosen_1 student) mark_map t,
     chosen_count (chosen_1 student) c).
Proof.
  unfold optional_group_1, chosen_1. repeat case_decide; try done.
  all: unfold optional_pass, chosen_row, chosen_total, optional_row,
         annual_of, grace_of; simpl; by case_match.
Qed.

Lemma optional_group_2_split mark_map student r t c :
  optional_group_2 mark_map student (r, t, c)
  = (chosen_row (chosen_2 student) mark_map r,
     chosen_total (chosen_2 student) mark_map t,
     chosen_count (chosen_2 student) c).
Proof.
  unfold optional_group_2, chosen_2. repeat case_decide; try done.
  all: unfold optional_pass, chosen_row, chosen_total, optional_row,
         annual_of, grace_of; simpl; by case_match.
Qed.

Lemma score_student_split mark_map student r :
  score_student mark_map student r
  = grade_pass "PE" Result.set_pe_grade mark_map
      (grade_pass "EVS" Result.set_evs_grade mark_map
         (final_calc (scored_row mark_map student r,
                      scored_total mark_map student,
                      scored_count mark_map student))).
Proof.
  unfold score_student.
  by rewrite core_loop_split, optional_group_1_split, optional_group_2_split.
Qed.

Lemma overwrites_core_rows c mark_map l : overwrites c (core_rows mark_map l).
Proof.
  apply overwrites_foldl. intros cf. destruct (mark_map !! cf.1).
  - apply (overwrites_comp c (Result.set_avg _ _) (Result.set_grace _ _)).
    + apply overwrites_set_avg.
    + apply overwrites_set_grace.
  - apply overwrites_id.
Qed.

Lemma overwrites_chosen_row c ch mark_map :
  overwrites c (chosen_row ch mark_map).
Proof.
  destruct ch as [[code f]|]; simpl; [|apply overwrites_id].
  apply (overwrites_comp c (Result.set_avg _ _) (Result.set_grace _ _)).
  - apply overwrites_set_avg.
  - apply overwrites_set_grace.
Qed.

Lemma overwrites_scored_row c mark_map student :
  overwrites c (scored_row mark_map student).
Proof.
  unfold scored_row.
  apply (overwrites_comp c
           (λ r, chosen_row (chosen_1 student) mark_map
                   (core_rows mark_map core_fields r))
           (chosen_row (chosen_2 student) mark_map));
    [|apply overwrites_chosen_row].
  apply (overwrites_comp c (core_rows mark_map core_fields)
           (chosen_row (chosen_1 student) mark_map)).
  - apply overwrites_core_rows.
  - apply overwrites_chosen_row.
Qed.

Lemma overwrites_final_calc c t n :
  c ≠ c_total_grace → overwrites c (λ r, final_calc (r, t, n)).
Proof.
  intros Hc. unfold final_calc. destruct (0 <? n)%Z.
  - apply (overwrites_comp c
             (λ r, Result.set_total_grace
                     (Some (sum_not_none (total_grace_columns r))) r)
             (Result.set_percentage _)).
    + right. intros r. by apply read_set_total_grace.
    + apply overwrites_set_percentage.
  - right. intros r. by apply read_set_total_grace.
Qed.

Lemma overwrites_grade_pass c code set_grade mark_map :
  (∀ v, overwrites c (set_grade v)) →
  overwrites c (grade_pass code set_grade mark_map).
Proof.
  intros H. unfold grade_pass.
  destruct (mark_map !! code) as [m|]; [|apply overwrites_id].
  destruct (Mark.annual m); [apply H|apply overwrites_id].
Qed.

Lemma overwrites_score_student c mark_map student :
  c ≠ c_total_grace → overwrites c (score_student mark_map student).
Proof.
  intros Hc.
  eapply overwrites_ext; [intros r; symmetry; apply score_student_split|].
  apply (overwrites_comp c
           (λ r, grade_pass "EVS" Result.set_evs_grade mark_map
                   (final_calc (scored_row mark_map student r,
                                scored_total mark_map student,
                                scored_count mark_map student)))
           (grade_pass "PE" Result.set_pe_grade mark_map)).
  2: { apply overwrites_grade_pass, overwrites_set_pe_grade. }
  apply (overwrites_comp c
           (λ r, final_calc (scored_row mark_map student r,
                             scored_total mark_map student,
                             scored_count mark_map student))
           (grade_pass "EVS" Result.set_evs_grade mark_map)).
  2: { apply overwrites_grade_pass, overwrites_set_evs_grade. }
  apply (overwrites_comp c (scored_row mark_map student)
           (λ r, final_calc (r, scored_total mark_map student,
                             scored_count mark_map student))).
  - apply overwrites_scored_row.
  - by apply overwrites_final_calc.
Qed.

Lemma overwrites_row_update c db student :
  c ≠ c_total_grace → overwrites c (row_update db student).
Proof.
  intros Hc. unfold row_update. case_match.
  - apply overwrites_set_percentage.
  - by apply overwrites_score_student.
Qed.

(** ** [total_grace] *)

Lemma total_grace_columns_read r r' :
  (∀ f, read (c_grace f) r = read (c_grace f) r') →
  total_grace_columns r = total_grace_columns r'.
Proof.
  intros H. unfold total_grace_columns.
  pose proof (H eng). pose proof (H hindi). pose proof (H it).
  pose proof (H maths). pose proof (H sp). pose proof (H bk).
  pose proof (H oc). simpl in *. congruence.
Qed.

Lemma settled_final_calc r t n : total_grace_settled (final_calc (r, t, n)).
Proof. unfold final_calc, total_grace_settled. by destruct (0 <? n)%Z. Qed.

Lemma settled_set_percentage v r :
  total_grace_settled r → total_grace_settled (Result.set_percentage v r).
Proof. done. Qed.

Lemma settled_grade_pass_evs mark_map r :
  total_grace_settled r →
  total_grace_settled (grade_pass "EVS" Result.set_evs_grade mark_map r).
Proof. intros H. unfold grade_pass. repeat case_match; done. Qed.

Lemma settled_grade_pass_pe mark_map r :
  total_grace_settled r →
  total_grace_settled (grade_pass "PE" Result.set_pe_grade mark_map r).
Proof. intros H. unfold grade_pass. repeat case_match; done. Qed.

Lemma settled_score_student mark_map student r :
  total_grace_settled (score_student mark_map student r).
Proof.
  rewrite score_student_split.
  apply settled_grade_pass_pe, settled_grade_pass_evs, settled_final_calc.
Qed.

Lemma settled_row_update db student r :
  total_grace_settled r → total_grace_settled (row_update db student r).
Proof.
  intros H. unfold row_update. case_match.
  - by apply settled_set_percentage.
  - apply settled_score_student.
Qed.

Lemma settled_row_update_complete db student r :
  student_complete db student = true →
  total_grace_settled (row_update db student r).
Proof.
  unfold student_complete, row_update. intros H.
  destruct (missing_required _ _); [done|]. apply settled_score_student.
Qed.

Lemma total_grace_row_update_incomplete db student r :
  student_complete db student = false →
  Result.total_grace (row_update db student r) = Result.total_grace r.
Proof.
  unfold student_complete, row_update. intros H.
  by destruct (missing_required _ _).
Qed.

(** ** The iterations that address one row

    Every column but [total_grace] is assigned a value fixed by the marks or
    left alone, so a second run assigns what the first one did;
    [total_grace] is recomputed from columns that then agree. *)

Section row_run.
Context (db : DB) (roll : Z) (dv : string).

Lemma overwrites_row_run c students :
  c ≠ c_total_grace → overwrites c (row_run db roll dv students).
Proof.
  intros Hc. unfold row_run.
  apply (overwrites_foldl c
           (λ r s, if same_key roll dv s then row_update db s r else r)).
  intros s. destruct (same_key roll dv s).
  - by apply overwrites_row_update.
  - apply overwrites_id.
Qed.

Lemma settled_row_run students r :
  total_grace_settled r → total_grace_settled (row_run db roll dv students r).
Proof.
  revert r. induction students as [|s l IH]; intros r H; [done|].
  simpl. apply IH. destruct (same_key roll dv s); [|done].
  by apply settled_row_update.
Qed.

Lemma settled_row_run_scored students r :
  scores_row db roll dv students = true →
  total_grace_settled (row_run db roll dv students r).
Proof.
  revert r. induction students as [|s l IH]; intros r H; [done|].
  simpl in *. apply orb_true_iff in H as [H|H].
  - apply andb_true_iff in H as [Hk Hc]. rewrite Hk.
    by apply settled_row_run, settled_row_update_complete.
  - by apply IH.
Qed.

Lemma total_grace_row_run_unscored students r :
  scores_row db roll dv students = false →
  Result.total_grace (row_run db roll dv students r) = Result.total_grace r.
Proof.
  revert r. induction students as [|s l IH]; intros r H; [done|].
  simpl in *. apply orb_false_iff in H as [H1 H2].
  rewrite IH by done. destruct (same_key roll dv s); [|done].
  by apply total_grace_row_update_incomplete.
Qed.

(** Two runs that agree on every column but [total_grace] agree on it too. *)
Lemma row_run_eq students x y :
  (∀ c, c ≠ c_total_grace →
        read c (row_run db roll dv students y)
        = read c (row_run db roll dv students x)) →
  (scores_row db roll dv students = false →
   Result.total_grace y = Result.total_grace x) →
  row_run db roll dv students y = row_run db roll dv students x.
Proof.
  intros Hcols Htg. apply Result_ext. intros c.
  destruct (decide (c = c_total_grace)) as [->|Hc]; [|by apply Hcols].
  simpl. f_equal.
  destruct (scores_row db roll dv students) eqn:Hs.
  - rewrite (settled_row_run_scored students y Hs).
    rewrite (settled_row_run_scored students x Hs).
    do 2 f_equal. apply total_grace_columns_read. intros f. by apply Hcols.
  - rewrite !total_grace_row_run_unscored by done. by apply Htg.
Qed.

Lemma row_run_idem students x :
  row_run db roll dv students (row_run db roll dv students x)
  = row_run db roll dv students x.
Proof.
  apply row_run_eq.
  - intros c Hc.
    destruct (overwrites_row_run c students Hc) as [[v Hv]|H].
    + by rewrite !Hv.
    + by rewrite H.
  - intros Hs. by apply total_grace_row_run_unscored.
Qed.

Lemma row_run_cleared students x :
  scores_row db roll dv students = true →
  Result.percentage x = None →
  row_run db roll dv students
    (Result.set_percentage None (row_run db roll dv students x))
  = row_run db roll dv students x.
Proof.
  intros Hs Hx. apply row_run_eq; [|by rewrite Hs].
  intros c Hc.
  destruct (overwrites_row_run c students Hc) as [[v Hv]|H].
  - by rewrite !Hv.
  - rewrite H. destruct (decide (c = c_percentage)) as [->|Hp].
    + rewrite H. simpl. by rewrite Hx.
    + by apply read_set_percentage.
Qed.

End row_run.

(** ** Identity columns are never assigned *)

Lemma same_identity_core_rows mark_map l r :
  same_identity r (core_rows mark_map l r).
Proof.
  revert r. induction l as [|cf l IH]; intros r; [done|].
  simpl. destruct (mark_map !! cf.1); [|apply IH].
  destruct (IH (Result.set_grace cf.2 (Some (or_zero (Mark.grace t)))
                  (Result.set_avg cf.2
                     (Some (not_none_or_zero (Mark.annual t))) r)))
    as (H1 & H2 & H3).
  unfold same_identity. by rewrite H1, H2, H3.
Qed.

Lemma same_identity_chosen_row ch mark_map r :
  same_identity r (chosen_row ch mark_map r).
Proof. by destruct ch as [[code f]|]. Qed.

Lemma same_identity_trans r1 r2 r3 :
  same_identity r1 r2 → same_identity r2 r3 → same_identity r1 r3.
Proof. intros (?&?&?) (?&?&?). repeat split; congruence. Qed.

Lemma same_identity_score_student mark_map student r :
  same_identity r (score_student mark_map student r).
Proof.
  rewrite score_student_split.
  eapply same_identity_trans;
    [apply (same_identity_core_rows mark_map core_fields)|].
  eapply same_identity_trans;
    [apply (same_identity_chosen_row (chosen_1 student) mark_map)|].
  eapply same_identity_trans;
    [apply (same_identity_chosen_row (chosen_2 student) mark_map)|].
  fold (scored_row mark_map student r).
  unfold grade_pass, final_calc. by repeat case_match.
Qed.

Lemma same_identity_row_update db student r :
  same_identity r (row_update db student r).
Proof.
  unfold row_update. case_match; [done|apply same_identity_score_student].
Qed.

Lemma result_matches_same_identity roll dv r r' :
  same_identity r r' → result_matches roll dv r' = result_matches roll dv r.
Proof. intros (H1 & _ & H3). unfold result_matches. by rewrite H1, H3. Qed.

(** ** The table after one iteration, and after the loop *)

Lemma result_matches_same_key student r :
  result_matches (Student.roll_no student) (Student.division student) r
  = same_key (Result.roll_no r) (Result.division r) student.
Proof.
  unfold result_matches, same_key. apply bool_decide_ext.
  split; intros [? ?]; split; congruence.
Qed.

Lemma row_pass_some db student r :
  row_pass db student (Some r) = Some (row_update db student r).
Proof. unfold row_pass, row_update. by case_match. Qed.

Lemma student_pass_cons db r rs student :
  student_pass db (r :: rs) student
  = if same_key (Result.roll_no r) (Result.division r) student
    then row_update db student r :: rs
    else r :: student_pass db rs student.
Proof.
  unfold student_pass, query_result, row_update. simpl.
  rewrite result_matches_same_key.
  destruct (same_key _ _ student); simpl.
  - by destruct (missing_required _ _).
  - destruct (missing_required _ _); by destruct (List.find _ rs).
Qed.

Lemma student_pass_nil db student :
  student_pass db [] student
  = match row_pass db student None with Some r => [r] | None => [] end.
Proof. unfold student_pass, row_pass. simpl. by case_match. Qed.

Lemma query_result_cons roll dv r rs :
  query_result roll dv (r :: rs)
  = if result_matches roll dv r then Some r else query_result roll dv rs.
Proof. done. Qed.

Lemma same_key_exclusive roll dv roll' dv' student :
  same_key roll dv student = true → same_key roll' dv' student = true →
  roll' = roll ∧ dv' = dv.
Proof.
  unfold same_key. rewrite !bool_decide_eq_true.
  intros [? ?] [? ?]. split; congruence.
Qed.

Lemma result_matches_key r :
  result_matches (Result.roll_no r) (Result.division r) r = true.
Proof. unfold result_matches. by apply bool_decide_eq_true. Qed.

Lemma result_matches_inv roll dv r :
  result_matches roll dv r = true →
  Result.roll_no r = roll ∧ Result.division r = dv.
Proof. unfold result_matches. by rewrite bool_decide_eq_true. Qed.

Lemma query_student_pass db rs student roll dv :
  query_result roll dv (student_pass db rs student)
  = if same_key roll dv student
    then row_pass db student (query_result roll dv rs)
    else query_result roll dv rs.
Proof.
  induction rs as [|r rs IH].
  - rewrite student_pass_nil. unfold row_pass.
    destruct (missing_required _ _); [simpl; by case_match|].
    rewrite query_result_cons.
    rewrite (result_matches_same_identity roll dv _ _
               (same_identity_score_student _ _ _)).
    unfold result_matches, same_key. simpl. by case_bool_decide.
  - rewrite student_pass_cons.
    destruct (same_key (Result.roll_no r) (Result.division r) student) eqn:Hk.
    + rewrite !query_result_cons.
      rewrite (result_matches_same_identity roll dv _ _
                 (same_identity_row_update db student r)).
      destruct (result_matches roll dv r) eqn:Hm.
      * apply result_matches_inv in Hm as [<- <-].
        by rewrite Hk, row_pass_some.
      * destruct (same_key roll dv student) eqn:Hk'; [|done].
        destruct (same_key_exclusive _ _ _ _ _ Hk Hk') as [-> ->].
        by rewrite result_matches_key in Hm.
    + rewrite !query_result_cons.
      destruct (result_matches roll dv r) eqn:Hm; [|apply IH].
      apply result_matches_inv in Hm as [<- <-]. by rewrite Hk.
Qed.

Lemma query_generate db students rs roll dv :
  query_result roll dv (foldl (student_pass db) rs students)
  = row_run_opt db roll dv students (query_result roll dv rs).
Proof.
  revert rs. induction students as [|s l IH]; intros rs; [done|].
  simpl. by rewrite IH, query_student_pass.
Qed.

Lemma same_identity_row_run db roll dv students r :
  same_identity r (row_run db roll dv students r).
Proof.
  revert r. induction students as [|s l IH]; intros r; [done|].
  simpl. eapply same_identity_trans; [|apply IH].
  destruct (same_key roll dv s); [apply same_identity_row_update|done].
Qed.

Lemma generate_cons db r rs students :
  foldl (student_pass db) (r :: rs) students
  = row_run db (Result.roll_no r) (Result.division r) students r
    :: foldl (student_pass db) rs
         (filter (λ s, same_key (Result.roll_no r) (Result.division r) s = false)
            students).
Proof.
  revert r rs. induction students as [|s l IH]; intros r rs; [done|].
  simpl. rewrite student_pass_cons, filter_cons.
  destruct (same_key (Result.roll_no r) (Result.division r) s) eqn:Hk.
  - rewrite IH.
    destruct (same_identity_row_update db s r) as (-> & _ & ->).
    by rewrite decide_False.
  - rewrite IH. by rewrite decide_True.
Qed.

Lemma row_run_opt_some db roll dv students r :
  row_run_opt db roll dv students (Some r)
  = Some (row_run db roll dv students r).
Proof.
  revert r. induction students as [|s l IH]; intros r; [done|].
  simpl. destruct (same_key roll dv s); [|apply IH].
  by rewrite row_pass_some, IH.
Qed.

Lemma row_run_no_key db roll dv students r :
  (∀ s, s ∈ students → same_key roll dv s = false) →
  row_run db roll dv students r = r.
Proof.
  revert r. induction students as [|s l IH]; intros r H; [done|].
  simpl. rewrite (H s) by apply list_elem_of_here.
  apply IH. intros s' Hs'. apply H. by apply list_elem_of_further.
Qed.

Lemma row_run_filter db roll dv roll' dv' students r :
  ¬ (roll = roll' ∧ dv = dv') →
  row_run db roll dv
    (filter (λ s, same_key roll' dv' s = false) students) r
  = row_run db roll dv students r.
Proof.
  intros Hne. revert r. induction students as [|s l IH]; intros r; [done|].
  rewrite filter_cons. simpl.
  destruct (same_key roll' dv' s) eqn:Hk'.
  - rewrite decide_False by done. rewrite IH.
    destruct (same_key roll dv s) eqn:Hk; [|done].
    destruct (same_key_exclusive _ _ _ _ _ Hk Hk') as [-> ->]. by destruct Hne.
  - rewrite decide_True by done. simpl. apply IH.
Qed.

Lemma row_pass_none_incomplete db student :
  student_complete db student = false → row_pass db student None = None.
Proof.
  unfold student_complete, row_pass. by destruct (missing_required _ _).
Qed.

Lemma row_pass_complete db student o :
  student_complete db student = true →
  row_pass db student o
  = Some (score_student (student_mark_map db student) student
            (default (Result.new (Student.roll_no student)
                        (Student.name student) (Student.division student)) o)).
Proof.
  unfold student_complete, row_pass. by destruct (missing_required _ _).
Qed.

Lemma row_update_complete db student r :
  student_complete db student = true →
  row_update db student r
  = score_student (student_mark_map db student) student r.
Proof.
  unfold student_complete, row_update. by destruct (missing_required _ _).
Qed.

Lemma row_update_incomplete db student r :
  student_complete db student = false →
  row_update db student r = Result.set_percentage None r.
Proof.
  unfold student_complete, row_update. by destruct (missing_required _ _).
Qed.

Lemma generate_nil_unscored db students :
  (∀ s, s ∈ students → student_complete db s = false) →
  foldl (student_pass db) [] students = [].
Proof.
  induction students as [|s l IH]; intros H; [done|].
  simpl. rewrite student_pass_nil, row_pass_none_incomplete.
  - apply IH. intros s' Hs'. apply H. by apply list_elem_of_further.
  - apply H, list_elem_of_here.
Qed.

(** A table is left as it is when every addressed row is a fixed point of
    its iterations and no row has to be created. *)
Lemma generate_fixed db students rs :
  (∀ roll dv r, query_result roll dv rs = Some r →
                row_run db roll dv students r = r) →
  (∀ s, s ∈ students → student_complete db s = true →
        query_result (Student.roll_no s) (Student.division s) rs ≠ None) →
  foldl (student_pass db) rs students = rs.
Proof.
  revert students. induction rs as [|r rs IH]; intros students Hfix Hrow.
  - apply generate_nil_unscored. intros s Hs.
    destruct (student_complete db s) eqn:Hc; [|done].
    by destruct (Hrow s Hs Hc).
  - rewrite generate_cons. f_equal.
    + apply Hfix. by rewrite query_result_cons, result_matches_key.
    + apply IH.
      * intros roll dv r' Hq.
        destruct (decide (roll = Result.roll_no r ∧ dv = Result.division r))
          as [[-> ->]|Hne].
        { apply row_run_no_key. intros s Hs.
          by apply list_elem_of_filter in Hs as [Hs _]. }
        rewrite row_run_filter by done. apply Hfix.
        rewrite query_result_cons.
        destruct (result_matches roll dv r) eqn:Hm; [|done].
        apply result_matches_inv in Hm as [<- <-]. by destruct Hne.
      * intros s Hs Hc. apply list_elem_of_filter in Hs as [Hk Hs].
        specialize (Hrow s Hs Hc). rewrite query_result_cons in Hrow.
        by rewrite result_matches_same_key, Hk in Hrow.
Qed.

Lemma row_run_opt_fixed_new db roll dv students r :
  row_run_opt db roll dv students None = Some r →
  row_run db roll dv students r = r
  ∧ row_run db roll dv students (Result.set_percentage None r) = r.
Proof.
  induction students as [|s l IH]; intros H; [done|].
  simpl in H. simpl.
  destruct (same_key roll dv s) eqn:Hk.
  - destruct (student_complete db s) eqn:Hc.
    + rewrite row_pass_complete in H by done. simpl in H.
      rewrite row_run_opt_some in H. injection H as <-.
      rewrite <- (row_update_complete db s) by done.
      pose proof (row_run_idem db roll dv (s :: l)) as Hidem.
      pose proof (row_run_cleared db roll dv (s :: l)) as Hclr.
      simpl in Hidem, Hclr. rewrite Hk in Hidem, Hclr.
      split; [apply Hidem|]. apply Hclr; [|done].
      by rewrite Hc.
    + rewrite row_pass_none_incomplete in H by done.
      rewrite !row_update_incomplete by done.
      destruct (IH H) as [H1 H2]. by split.
  - apply (IH H).
Qed.

Lemma row_run_opt_fixed db roll dv students o r :
  row_run_opt db roll dv students o = Some r →
  row_run db roll dv students r = r.
Proof.
  destruct o as [x|].
  - rewrite row_run_opt_some. intros [= <-]. apply row_run_idem.
  - intros H. by apply row_run_opt_fixed_new in H as [? _].
Qed.

Lemma row_run_opt_scored db roll dv students o s :
  s ∈ students → same_key roll dv s = true →
  student_complete db s = true →
  row_run_opt db roll dv students o ≠ None.
Proof.
  revert o. induction students as [|s' l IH]; intros o Hs Hk Hc.
  - by apply elem_of_nil in Hs.
  - simpl. apply elem_of_cons in Hs as [<-|Hs].
    + rewrite Hk, row_pass_complete by done. by rewrite row_run_opt_some.
    + by apply IH.
Qed.

(** C7: running the engine twice on a division, with no change in between,
    leaves the store, and so every [Result] row, as one run leaves it. *)
Theorem generate_results_idempotent division db :
  generate_results_for_division division
    (generate_results_for_division division db)
  = generate_results_for_division division db.
Proof.
  unfold generate_results_for_division. simpl. f_equal.
  set (students := division_students db division).
  set (rs := foldl (student_pass db) (result_table db) students).
  change (foldl (student_pass db) rs students = rs).
  subst rs. apply generate_fixed.
  - intros roll dv r. rewrite query_generate. apply row_run_opt_fixed.
  - intros s Hs Hc. rewrite query_generate.
    apply (row_run_opt_scored db _ _ _ _ s); try done.
    unfold same_key. by apply bool_decide_eq_true.
Qed.

(** ** The row of a student after the run *)

Lemma row_run_opt_no_key db roll dv students o :
  (∀ s, s ∈ students → same_key roll dv s = false) →
  row_run_opt db roll dv students o = o.
Proof.
  revert o. induction students as [|s l IH]; intros o H; [done|].
  simpl. rewrite (H s) by apply list_elem_of_here.
  apply IH. intros s' Hs'. apply H. by apply list_elem_of_further.
Qed.

Lemma row_run_opt_unique db students s o :
  s ∈ students → NoDup (Student.roll_no <$> students) →
  row_run_opt db (Student.roll_no s) (Student.division s) students o
  = row_pass db s o.
Proof.
  revert o. induction students as [|s' l IH]; intros o Hs Hnd.
  - by apply elem_of_nil in Hs.
  - simpl in *. apply NoDup_cons in Hnd as [Hnotin Hnd].
    apply elem_of_cons in Hs as [<-|Hs].
    + unfold same_key at 1. rewrite bool_decide_eq_true_2 by done.
      apply row_run_opt_no_key. intros s' Hs'.
      apply bool_decide_eq_false_2. intros [Hr _]. apply Hnotin.
      rewrite <- Hr. by apply list_elem_of_fmap_2.
    + unfold same_key at 1. rewrite bool_decide_eq_false_2; [by apply IH|].
      intros [Hr _]. apply Hnotin. rewrite Hr. by apply list_elem_of_fmap_2.
Qed.

Lemma division_students_division db division s :
  s ∈ division_students db division → Student.division s = division.
Proof. intros H. by apply list_elem_of_filter in H as [? _]. Qed.

(** The row of a student after the run is what the loop body makes of the
    row the student had before. *)
Lemma generate_row db division s :
  s ∈ division_students db division →
  unique_rolls db division →
  query_result (Student.roll_no s) division
    (result_table (generate_results_for_division division db))
  = row_pass db s
      (query_result (Student.roll_no s) division (result_table db)).
Proof.
  intros Hs Hnd. pose proof (division_students_division _ _ _ Hs) as Hd.
  simpl. rewrite query_generate. subst division.
  by apply row_run_opt_unique.
Qed.

(** ** The completeness check *)

Lemma missing_required_true mark_map codes :
  missing_required mark_map codes = true
  ↔ ∃ code, code ∈ codes ∧ mark_map !! code ≫= Mark.annual = None.
Proof.
  unfold missing_required. induction codes as [|c l IH]; simpl.
  - split; [done|]. intros (code & H & _). by apply elem_of_nil in H.
  - rewrite orb_true_iff, IH. split.
    + intros [H|(code & Hin & H)].
      * exists c. split; [apply list_elem_of_here|].
        destruct (mark_map !! c) as [m|]; [|done]. simpl.
        by destruct (Mark.annual m).
      * exists code. split; [by apply list_elem_of_further|done].
    + intros (code & Hin & H). apply elem_of_cons in Hin as [->|Hin].
      * left. destruct (mark_map !! c) as [m|]; [|done]. simpl in H.
        by rewrite H.
      * right. by exists code.
Qed.

Lemma missing_required_false mark_map codes :
  missing_required mark_map codes = false
  ↔ ∀ code, code ∈ codes → is_Some (mark_map !! code ≫= Mark.annual).
Proof.
  split.
  - intros H code Hin.
    destruct (mark_map !! code ≫= Mark.annual) eqn:E; [by eexists|].
    assert (missing_required mark_map codes = true) as H'; [|congruence].
    apply missing_required_true. by exists code.
  - intros H. destruct (missing_required mark_map codes) eqn:E; [|done].
    apply missing_required_true in E as (code & Hin & E).
    destruct (H code Hin) as [a Ha]. congruence.
Qed.

(** C2: in a division whose roll numbers are unique, a student who lacks
    the annual mark of a required subject (no mark row, or a null annual)
    keeps the [Result] row they had: after the run its [percentage] is
    null and every other column reads as it did; a student who had no row
    gets none. *)
Theorem incomplete_student_percentage_cleared db division s code :
  s ∈ division_students db division →
  unique_rolls db division →
  code ∈ student_required_codes db s →
  annual_mark db s code = None →
  match query_result (Student.roll_no s) division (result_table db) with
  | Some old =>
      ∃ r, query_result (Student.roll_no s) division
             (result_table (generate_results_for_division division db))
           = Some r
           ∧ Result.percentage r = None
           ∧ ∀ c, c ≠ c_percentage → read c r = read c old
  | None =>
      query_result (Student.roll_no s) division
        (result_table (generate_results_for_division division db)) = None
  end.
Proof.
  intros Hs Hnd Hcode Hnone. rewrite generate_row by done.
  unfold row_pass.
  replace (missing_required _ _) with true.
  2: { symmetry. apply missing_required_true. by exists code. }
  destruct (query_result _ _ (result_table db)) as [old|]; [|done].
  eexists. split; [done|]. split; [done|].
  intros c Hc. by apply read_set_percentage.
Qed.

Lemma incomplete_student_percentage_cleared_witness :
  student_101 ∈ division_students stale_db "A"
  ∧ unique_rolls stale_db "A"
  ∧ "MATHS" ∈ student_required_codes stale_db student_101
  ∧ annual_mark stale_db student_101 "MATHS" = None
  ∧ Result.percentage stale_row = Some (nearest_double (7333 # 100))
  ∧ ∃ r, query_result 101 "A"
           (result_table (generate_results_for_division "A" stale_db))
         = Some r
         ∧ Result.percentage r = None
         ∧ ∀ c, c ≠ c_percentage → read c r = read c stale_row.
Proof.
  assert (student_101 ∈ division_students
            stale_db "A") as H1.
  { vm_compute. apply list_elem_of_here. }
  assert (unique_rolls stale_db "A") as H2.
  { vm_compute. apply NoDup_singleton. }
  assert ("MATHS" ∈ student_required_codes
            stale_db student_101) as H3.
  { vm_compute. do 5 apply list_elem_of_further. apply list_elem_of_here. }
  assert (annual_mark stale_db
            student_101 "MATHS" = None) as H4.
  { vm_compute. reflexivity. }
  split; [exact H1|]. split; [exact H2|]. split; [exact H3|].
  split; [exact H4|]. split; [reflexivity|].
  exact (incomplete_student_percentage_cleared _ "A" student_101 "MATHS"
           H1 H2 H3 H4).
Defined.

Lemma student_complete_spec db s :
  student_complete db s = true
  ↔ ∀ code, code ∈ student_required_codes db s →
            is_Some (annual_mark db s code).
Proof.
  unfold student_complete. rewrite negb_true_iff.
  apply missing_required_false.
Qed.

(** ** Columns written by the scoring *)

Lemma read_set_avg_plain c f v r :
  subject_column c = false → read c (Result.set_avg f v r) = read c r.
Proof. by destruct c. Qed.

Lemma read_set_grace_plain c f v r :
  subject_column c = false → read c (Result.set_grace f v r) = read c r.
Proof. by destruct c. Qed.

Lemma read_core_rows c mark_map l r :
  subject_column c = false → read c (core_rows mark_map l r) = read c r.
Proof.
  intros Hc. revert r. induction l as [|cf l IH]; intros r; [done|].
  simpl. destruct (mark_map !! cf.1); [|apply IH].
  by rewrite IH, read_set_grace_plain, read_set_avg_plain.
Qed.

Lemma read_chosen_row c ch mark_map r :
  subject_column c = false → read c (chosen_row ch mark_map r) = read c r.
Proof.
  intros Hc. destruct ch as [[code f]|]; [|done]. simpl. unfold optional_row.
  by rewrite read_set_grace_plain, read_set_avg_plain.
Qed.

Lemma read_scored_row c mark_map student r :
  subject_column c = false → read c (scored_row mark_map student r) = read c r.
Proof.
  intros Hc. unfold scored_row.
  by rewrite !read_chosen_row, read_core_rows.
Qed.

Lemma evs_grade_score_student mark_map student r :
  Result.evs_grade (score_student mark_map student r)
  = match mark_map !! "EVS" ≫= Mark.annual with
    | Some a => Some (letter_grade a)
    | None => Result.evs_grade r
    end.
Proof.
  rewrite score_student_split.
  pose proof (read_scored_row c_evs_grade mark_map student r eq_refl) as H.
  simpl in H. injection H as H.
  unfold grade_pass, final_calc.
  destruct (mark_map !! "EVS") as [m|]; simpl; [destruct (Mark.annual m)|];
    repeat case_match; simpl; done.
Qed.

Lemma pe_grade_score_student mark_map student r :
  Result.pe_grade (score_student mark_map student r)
  = match mark_map !! "PE" ≫= Mark.annual with
    | Some a => Some (letter_grade a)
    | None => Result.pe_grade r
    end.
Proof.
  rewrite score_student_split.
  pose proof (read_scored_row c_pe_grade mark_map student r eq_refl) as H.
  simpl in H. injection H as H.
  unfold grade_pass, final_calc.
  destruct (mark_map !! "PE") as [m|]; simpl; [destruct (Mark.annual m)|];
    repeat case_match; simpl; done.
Qed.

Lemma percentage_score_student mark_map student r :
  Result.percentage (score_student mark_map student r)
  = if (0 <? scored_count mark_map student)%Z
    then Some (round2 (fdiv (scored_total mark_map student)
                         (inject_Z (scored_count mark_map student))))
    else Result.percentage r.
Proof.
  rewrite score_student_split.
  pose proof (read_scored_row c_percentage mark_map student r eq_refl) as H.
  simpl in H. injection H as H.
  unfold grade_pass, final_calc. repeat case_match; simpl; done.
Qed.

(** ** Letter grades *)

Lemma letter_grade_band a : grade_band a (letter_grade a).
Proof.
  unfold letter_grade, grade_band.
  destruct (Qle_bool 75 a) eqn:H75.
  { apply Qle_bool_iff in H75. by left. }
  assert (a < 75) by (apply Qnot_le_lt; rewrite <- Qle_bool_iff; congruence).
  destruct (Qle_bool 60 a) eqn:H60.
  { apply Qle_bool_iff in H60. right. by left. }
  assert (a < 60) by (apply Qnot_le_lt; rewrite <- Qle_bool_iff; congruence).
  destruct (Qle_bool 50 a) eqn:H50.
  { apply Qle_bool_iff in H50. right. right. by left. }
  assert (a < 50) by (apply Qnot_le_lt; rewrite <- Qle_bool_iff; congruence).
  destruct (Qle_bool 35 a) eqn:H35.
  { apply Qle_bool_iff in H35. right. right. right. by left. }
  assert (a < 35) by (apply Qnot_le_lt; rewrite <- Qle_bool_iff; congruence).
  right. right. right. by right.
Qed.

Lemma scores_row_intro db roll dv students s :
  s ∈ students → same_key roll dv s = true →
  student_complete db s = true →
  scores_row db roll dv students = true.
Proof.
  intros Hs Hk Hc. induction students as [|s' l IH].
  - by apply elem_of_nil in Hs.
  - simpl. apply orb_true_iff. apply elem_of_cons in Hs as [<-|Hs].
    + left. by rewrite Hk, Hc.
    + right. by apply IH.
Qed.

Lemma same_key_student s :
  same_key (Student.roll_no s) (Student.division s) s = true.
Proof. unfold same_key. by apply bool_decide_eq_true. Qed.

(** Students with the same key have the same marks. *)
Lemma annual_mark_same_key db roll dv s s' code :
  same_key roll dv s = true → same_key roll dv s' = true →
  annual_mark db s' code = annual_mark db s code.
Proof.
  unfold same_key. rewrite !bool_decide_eq_true. intros [H1 H2] [H3 H4].
  unfold annual_mark, student_mark_map, student_marks.
  by rewrite H1, H2, H3, H4.
Qed.

Lemma evs_grade_row_update db roll dv s s' r :
  same_key roll dv s = true → same_key roll dv s' = true →
  Result.evs_grade (row_update db s' r)
  = if student_complete db s'
    then graded_value (annual_mark db s "EVS") (Result.evs_grade r)
    else Result.evs_grade r.
Proof.
  intros Hk Hk'. destruct (student_complete db s') eqn:Hc.
  - rewrite row_update_complete, evs_grade_score_student by done.
    by rewrite <- (annual_mark_same_key db roll dv s s').
  - by rewrite row_update_incomplete.
Qed.

Lemma pe_grade_row_update db roll dv s s' r :
  same_key roll dv s = true → same_key roll dv s' = true →
  Result.pe_grade (row_update db s' r)
  = if student_complete db s'
    then graded_value (annual_mark db s "PE") (Result.pe_grade r)
    else Result.pe_grade r.
Proof.
  intros Hk Hk'. destruct (student_complete db s') eqn:Hc.
  - rewrite row_update_complete, pe_grade_score_student by done.
    by rewrite <- (annual_mark_same_key db roll dv s s').
  - by rewrite row_update_incomplete.
Qed.

(** A grade column [G] of the row [(roll, dv)], fed by the annual [A] of the
    marks of that key. *)
Section grade_column.
Context (db : DB) (roll : Z) (dv : string).
Context (G : Result.t → option string) (A : option Q).
Hypothesis G_update : ∀ s r,
  same_key roll dv s = true →
  G (row_update db s r)
  = if student_complete db s then graded_value A (G r) else G r.
Hypothesis G_new : ∀ s,
  G (Result.new (Student.roll_no s) (Student.name s) (Student.division s))
  = None.

Lemma grade_row_run students x :
  G (row_run db roll dv students x)
  = if scores_row db roll dv students then graded_value A (G x) else G x.
Proof.
  revert x. induction students as [|s l IH]; intros x; [done|].
  simpl. rewrite IH. destruct (same_key roll dv s) eqn:Hk; [|done].
  rewrite G_update by done. simpl.
  destruct (student_complete db s); simpl; [|done].
  destruct (scores_row db roll dv l); [|done]. by destruct A.
Qed.

Lemma grade_row_run_opt_new students r :
  row_run_opt db roll dv students None = Some r →
  G r = graded_value A None.
Proof.
  induction students as [|s l IH]; [done|]. simpl.
  destruct (same_key roll dv s) eqn:Hk; [|done].
  destruct (student_complete db s) eqn:Hc.
  - rewrite row_pass_complete by done. simpl.
    rewrite row_run_opt_some. intros [= <-].
    rewrite grade_row_run, <- (row_update_complete db s) by done.
    rewrite G_update, Hc, G_new by done.
    destruct (scores_row db roll dv l); [|done]. by destruct A.
  - by rewrite row_pass_none_incomplete.
Qed.

Lemma grade_generate students rs s :
  s ∈ students → same_key roll dv s = true →
  student_complete db s = true →
  ∃ r, query_result roll dv (foldl (student_pass db) rs students) = Some r
       ∧ G r = graded_value A (query_result roll dv rs ≫= G).
Proof.
  intros Hs Hk Hc. rewrite query_generate.
  destruct (query_result roll dv rs) as [x|]; simpl.
  - rewrite row_run_opt_some. eexists. split; [done|].
    by rewrite grade_row_run, (scores_row_intro db roll dv students s).
  - destruct (row_run_opt db roll dv students None) as [r|] eqn:E.
    + exists r. split; [done|]. by apply grade_row_run_opt_new in E.
    + by apply (row_run_opt_scored db roll dv students None s) in E.
Qed.

End grade_column.

Lemma graded_value_graded annual before :
  graded annual before (graded_value annual before).
Proof.
  destruct annual as [a|]; simpl; [|done].
  eexists. split; [done|]. apply letter_grade_band.
Qed.

(** C5, as amended: for a student of the division whose required annual
    marks are all present, the run stores in [evs_grade] (and likewise in
    [pe_grade]) the grade of the band of the EVS (PE) annual: A+ from 75, A
    from 60, B from 50, C from 35, F below; with no such mark, or a null
    annual, the column is left as it was. *)
Theorem grade_only_subjects_graded db division s :
  s ∈ division_students db division →
  student_complete db s = true →
  let before := query_result (Student.roll_no s) division (result_table db) in
  ∃ r, query_result (Student.roll_no s) division
         (result_table (generate_results_for_division division db))
       = Some r
       ∧ graded (annual_mark db s "EVS") (before ≫= Result.evs_grade)
           (Result.evs_grade r)
       ∧ graded (annual_mark db s "PE") (before ≫= Result.pe_grade)
           (Result.pe_grade r).
Proof.
  intros Hs Hc before.
  pose proof (division_students_division _ _ _ Hs) as Hd. subst division.
  pose proof (same_key_student s) as Hk.
  destruct (grade_generate db _ _ Result.evs_grade _
              (λ s' r, evs_grade_row_update db _ _ s s' r Hk) (λ _, eq_refl)
              _ (result_table db) s Hs Hk Hc) as (r & Hr & Hevs).
  destruct (grade_generate db _ _ Result.pe_grade _
              (λ s' r, pe_grade_row_update db _ _ s s' r Hk) (λ _, eq_refl)
              _ (result_table db) s Hs Hk Hc) as (r' & Hr' & Hpe).
  simpl. rewrite Hr in Hr'. injection Hr' as <-.
  exists r. split; [done|]. rewrite Hevs, Hpe.
  split; apply graded_value_graded.
Qed.

Lemma grade_only_subjects_graded_witness :
  student_101 ∈ division_students graded_db "A"
  ∧ student_complete graded_db student_101 = true
  ∧ ∃ r, query_result 101 "A"
           (result_table (generate_results_for_division "A" graded_db)) = Some r
         ∧ graded (Some 74) None (Result.evs_grade r)
         ∧ graded None None (Result.pe_grade r).
Proof.
  assert (student_101 ∈ division_students graded_db "A") as H1.
  { vm_compute. apply list_elem_of_here. }
  assert (student_complete graded_db student_101 = true) as H2.
  { vm_compute. reflexivity. }
  split; [exact H1|]. split; [exact H2|].
  exact (grade_only_subjects_graded _ "A" student_101 H1 H2).
Defined.

(** C5 as stated fails: a student with an EVS annual of 80 but no MATHS
    annual is skipped as incomplete, and no grade is stored. *)
Lemma evs_not_graded_when_incomplete :
  ¬ evs_graded_unconditionally ungraded_db "A" student_101.
Proof.
  intros H. destruct (H 80) as (r & g & Hq & _).
  - vm_compute. reflexivity.
  - vm_compute in Hq. discriminate.
Qed.

(** The two grade columns of a scored student after the run. *)
Lemma grades_generate db division s :
  s ∈ division_students db division →
  student_complete db s = true →
  ∃ r, query_result (Student.roll_no s) division
         (result_table (generate_results_for_division division db))
       = Some r
       ∧ Result.evs_grade r
         = graded_value (annual_mark db s "EVS")
             (query_result (Student.roll_no s) division (result_table db)
              ≫= Result.evs_grade)
       ∧ Result.pe_grade r
         = graded_value (annual_mark db s "PE")
             (query_result (Student.roll_no s) division (result_table db)
              ≫= Result.pe_grade).
Proof.
  intros Hs Hc.
  pose proof (division_students_division _ _ _ Hs) as Hd. subst division.
  pose proof (same_key_student s) as Hk.
  destruct (grade_generate db _ _ Result.evs_grade _
              (λ s' r, evs_grade_row_update db _ _ s s' r Hk) (λ _, eq_refl)
              _ (result_table db) s Hs Hk Hc) as (r & Hr & Hevs).
  destruct (grade_generate db _ _ Result.pe_grade _
              (λ s' r, pe_grade_row_update db _ _ s s' r Hk) (λ _, eq_refl)
              _ (result_table db) s Hs Hk Hc) as (r' & Hr' & Hpe).
  simpl. rewrite Hr in Hr'. injection Hr' as <-.
  exists r. by split.
Qed.

Lemma Qle_bool_comp_r c a b : a == b → Qle_bool c a = Qle_bool c b.
Proof.
  intros H. destruct (Qle_bool c a) eqn:E1, (Qle_bool c b) eqn:E2; try done.
  - apply Qle_bool_iff in E1. rewrite H in E1. apply Qle_bool_iff in E1.
    congruence.
  - apply Qle_bool_iff in E2. rewrite <- H in E2. apply Qle_bool_iff in E2.
    congruence.
Qed.

Lemma letter_grade_comp a b : a == b → letter_grade a = letter_grade b.
Proof.
  intros H. unfold letter_grade.
  by rewrite !(Qle_bool_comp_r _ a b H).
Qed.

(** C6, as amended: in every store, for every student of the division
    whose required annual marks are all present, an EVS or PE mark with an
    annual of 74 yields grade A, 75 yields A+, 49 yields C and 50 yields
    B. *)
Theorem boundary_grades db division s a g x :
  s ∈ division_students db division →
  student_complete db s = true →
  (a, g) ∈ boundary_examples →
  x == a →
  ∃ r, query_result (Student.roll_no s) division
         (result_table (generate_results_for_division division db))
       = Some r
       ∧ (annual_mark db s "EVS" = Some x → Result.evs_grade r = Some g)
       ∧ (annual_mark db s "PE" = Some x → Result.pe_grade r = Some g).
Proof.
  intros Hs Hc Hin Hx.
  destruct (grades_generate db division s Hs Hc) as (r & Hr & Hevs & Hpe).
  exists r. split; [done|].
  assert (letter_grade x = g) as Hg.
  { rewrite (letter_grade_comp x a Hx). unfold boundary_examples in Hin.
    repeat (apply elem_of_cons in Hin as [[= -> ->]|Hin]);
      [..|by apply elem_of_nil in Hin]; reflexivity. }
  split; intros Ha.
  - rewrite Hevs, Ha. simpl. by rewrite Hg.
  - rewrite Hpe, Ha. simpl. by rewrite Hg.
Qed.

Lemma boundary_grades_witness :
  student_101 ∈ division_students graded_db "A"
  ∧ student_complete graded_db student_101 = true
  ∧ (74, "A") ∈ boundary_examples
  ∧ 74 == 74
  ∧ annual_mark graded_db student_101 "EVS" = Some 74
  ∧ ∃ r, query_result (Student.roll_no student_101) "A"
           (result_table (generate_results_for_division "A" graded_db))
         = Some r
         ∧ (annual_mark graded_db student_101 "EVS" = Some 74 →
            Result.evs_grade r = Some "A")
         ∧ (annual_mark graded_db student_101 "PE" = Some 74 →
            Result.pe_grade r = Some "A").
Proof.
  assert (student_101 ∈ division_students graded_db "A") as H1.
  { vm_compute. apply list_elem_of_here. }
  assert (student_complete graded_db student_101 = true) as H2.
  { vm_compute. reflexivity. }
  assert ((74, "A") ∈ boundary_examples) as H3 by apply list_elem_of_here.
  assert (74 == 74) as H4 by reflexivity.
  split; [exact H1|]. split; [exact H2|]. split; [exact H3|].
  split; [exact H4|]. split; [vm_compute; reflexivity|].
  exact (boundary_grades graded_db "A" student_101 74 "A" 74 H1 H2 H3 H4).
Defined.

(** C6 as stated fails: 74 is graded A, not C (and 49 is graded C, not F). *)
Lemma boundary_grades_not_as_stated : ¬ boundary_grades_stated.
Proof. intros [H _]. vm_compute in H. discriminate. Qed.

(** ** [total_grace] of a scored student *)





(** In the worked example the ECO grace of 5 is left out: 2 + 3 + 0 + 1. *)
Example total_grace_example :
  Result.total_grace
  <$> query_result 101 "A"
        (result_table
           (generate_results_for_division "A"
              complete_db))
  = Some (Some 6).
Proof. vm_compute. reflexivity. Qed.

(** With graces 0.1 for ENG and 0.2 for BK the stored total is the float
    0.30000000000000004, not the float 0.3. *)
Example total_grace_floats :
  Result.total_grace
  <$> query_result 1 "A"
        (result_table (generate_results_for_division "A" fraction_db))
  = Some (Some (1351079888211149 # 4503599627370496))
  ∧ nearest_double (3 # 10) = 5404319552844595 # 18014398509481984.
Proof. vm_compute. split; reflexivity. Qed.

(** ** The percentage of a scored student *)

Lemma annual_of_present mark_map code a :
  mark_map !! code ≫= Mark.annual = Some a → annual_of mark_map code = a.
Proof.
  unfold annual_of. destruct (mark_map !! code) as [m|]; [|done]. simpl.
  by intros ->.
Qed.

(** The annuals of codes that all have one. *)
Lemma annuals_present mark_map codes :
  Forall (λ code, is_Some (mark_map !! code ≫= Mark.annual)) codes →
  omap (λ code, mark_map !! code ≫= Mark.annual) codes
  = annual_of mark_map <$> codes.
Proof.
  induction 1 as [|code l [a Ha] _ IH]; [done|].
  rewrite fmap_cons, <- IH, (annual_of_present _ _ a Ha).
  cbn [omap list_omap]. by rewrite Ha.
Qed.

Lemma core_total_spec mark_map l t :
  core_total mark_map l t
  = foldl fadd t
      (annual_of mark_map
       <$> filter (λ code, is_Some (mark_map !! code)) (l.*1)).
Proof.
  revert t. induction l as [|cf l IH]; intros t; [done|].
  change (core_total mark_map (cf :: l) t)
    with (core_total mark_map l
            (match mark_map !! cf.1 with
             | Some m => fadd t (not_none_or_zero (Mark.annual m))
             | None => t
             end)).
  rewrite IH, fmap_cons, filter_cons.
  destruct (mark_map !! cf.1) as [m|] eqn:E.
  - rewrite decide_True by (by eexists). rewrite fmap_cons.
    cbn [foldl]. unfold annual_of at 2. by rewrite E.
  - by rewrite decide_False by (by intros [? ?]).
Qed.

Lemma core_count_spec mark_map l c :
  core_count mark_map l c
  = (c + Z.of_nat
           (length (filter (λ code, is_Some (mark_map !! code)) (l.*1))))%Z.
Proof.
  revert c. induction l as [|cf l IH]; intros c; [simpl; lia|].
  change (core_count mark_map (cf :: l) c)
    with (core_count mark_map l
            (match mark_map !! cf.1 with
             | Some m => (c + 1)%Z
             | None => c
             end)).
  rewrite IH, fmap_cons, filter_cons.
  destruct (mark_map !! cf.1) as [m|] eqn:E.
  - rewrite decide_True by (by eexists). simpl length. lia.
  - rewrite decide_False by (by intros [? ?]). done.
Qed.

Lemma chosen_total_spec ch mark_map t :
  chosen_total ch mark_map t
  = foldl fadd t (annual_of mark_map <$> chosen_codes ch).
Proof. by destruct ch as [[code f]|]. Qed.

Lemma chosen_count_spec ch c :
  chosen_count ch c = (c + Z.of_nat (length (chosen_codes ch)))%Z.
Proof. destruct ch as [[code f]|]; simpl; lia. Qed.

Lemma chosen_codes_extension (o : option string) a b (fa fb : subject_field) :
  chosen_codes (if decide (o = Some a) then Some (a, fa)
                else if decide (o = Some b) then Some (b, fb)
                else None)
  = match o with
    | Some c => if bool_decide (c = a ∨ c = b) then [c] else []
    | None => []
    end.
Proof.
  destruct o as [c|]; [|by repeat case_decide].
  destruct (decide (Some c = Some a)) as [[= ->]|Ha].
  { by rewrite bool_decide_eq_true_2 by auto. }
  destruct (decide (Some c = Some b)) as [[= ->]|Hb].
  { by rewrite bool_decide_eq_true_2 by auto. }
  rewrite bool_decide_eq_false_2; [done|]. intros [-> | ->]; congruence.
Qed.

Lemma optional_extension_chosen student :
  optional_extension student
  = chosen_codes (chosen_1 student) ++ chosen_codes (chosen_2 student).
Proof.
  unfold optional_extension, chosen_1, chosen_2.
  by rewrite !chosen_codes_extension.
Qed.

Lemma scored_total_spec mark_map student :
  scored_total mark_map student
  = float_sum (annual_of mark_map <$> scored_codes mark_map student).
Proof.
  unfold scored_total, scored_codes, float_sum.
  rewrite !chosen_total_spec, core_total_spec, optional_extension_chosen.
  by rewrite !fmap_app, !foldl_app.
Qed.

Lemma scored_count_spec mark_map student :
  scored_count mark_map student
  = Z.of_nat (length (scored_codes mark_map student)).
Proof.
  unfold scored_count, scored_codes.
  rewrite !chosen_count_spec, core_count_spec, optional_extension_chosen.
  rewrite !length_app. simpl (core_fields.*1).
  change ["ENG"; "ECO"; "BK"; "OC"] with fallback_codes. lia.
Qed.

Lemma filter_all {A} (P : A → Prop) `{∀ x, Decision (P x)} (l : list A) :
  Forall P l → filter P l = l.
Proof.
  induction 1 as [|x l Hx _ IH]; [done|].
  by rewrite filter_cons_True, IH.
Qed.

(** When the division resolves to the four core codes, a complete student
    is scored on exactly the required subjects. *)
Lemma required_codes_scored db division s :
  s ∈ division_students db division →
  student_complete db s = true →
  base_required_of (subjects_dict (subject_table db))
    (division_allocs db division) ≡ₚ fallback_codes →
  student_required_codes db s ≡ₚ scored_codes (student_mark_map db s) s.
Proof.
  intros Hs Hc Hbase.
  pose proof (division_students_division _ _ _ Hs) as Hd.
  assert (student_required_codes db s
          ≡ₚ fallback_codes ++ optional_extension s) as Hreq.
  { unfold student_required_codes.
    rewrite required_codes_of_extension, Hd. by rewrite Hbase. }
  rewrite Hreq. unfold scored_codes. rewrite filter_all; [done|].
  apply Forall_forall. intros code Hin.
  destruct (proj1 (student_complete_spec db s) Hc code) as [a Ha].
  - rewrite Hreq. apply elem_of_app. by left.
  - unfold annual_mark in Ha.
    destruct (student_mark_map db s !! code); [by eexists|done].
Qed.

(** C1, as amended: in a division whose roll numbers are unique, for a
    student whose required subjects all have a mark with a non-null annual,
    when the required subjects are exactly the subjects that are scored
    (those of ENG, ECO, BK, OC for which the student has a mark row, and
    the chosen optionals) and there is at least one, the run sets
    [percentage] to [round(S / n, 2)], [n] the number of the required
    subjects and [S] the sum of their annuals, added as floats in the order
    of the scoring: ENG, ECO, BK, OC, optional_subject,
    optional_subject_2. *)
Theorem percentage_mean_of_required db division s :
  s ∈ division_students db division →
  unique_rolls db division →
  student_complete db s = true →
  student_required_codes db s ≡ₚ scored_codes (student_mark_map db s) s →
  student_required_codes db s ≠ [] →
  ∃ r, query_result (Student.roll_no s) division
         (result_table (generate_results_for_division division db))
       = Some r
       ∧ Result.percentage r
         = Some (mean_of_required (student_mark_map db s)
                   (scored_codes (student_mark_map db s) s))
       ∧ length (scored_codes (student_mark_map db s) s)
         = length (student_required_codes db s).
Proof.
  intros Hs Hnd Hc Hreq Hne. rewrite generate_row by done.
  rewrite row_pass_complete by done. eexists. split; [done|].
  assert (length (scored_codes (student_mark_map db s) s)
          = length (student_required_codes db s)) as Hlen.
  { by rewrite Hreq. }
  split; [|done].
  rewrite percentage_score_student, scored_count_spec.
  replace (0 <? _)%Z with true.
  2: { symmetry. apply Z.ltb_lt. rewrite Hlen.
       destruct (student_required_codes db s); [done|simpl; lia]. }
  f_equal. unfold mean_of_required, annual_sum.
  rewrite scored_total_spec, annuals_present; [done|].
  apply Forall_forall. intros code Hin.
  apply (proj1 (student_complete_spec db s) Hc). by rewrite Hreq.
Qed.

Lemma percentage_mean_of_required_witness :
  student_101 ∈ division_students complete_db "A"
  ∧ unique_rolls complete_db "A"
  ∧ student_complete complete_db student_101 = true
  ∧ student_required_codes complete_db student_101
    ≡ₚ scored_codes (student_mark_map complete_db student_101) student_101
  ∧ student_required_codes complete_db student_101 ≠ []
  ∧ ∃ r, query_result (Student.roll_no student_101) "A"
           (result_table (generate_results_for_division "A" complete_db))
         = Some r
         ∧ Result.percentage r
           = Some (mean_of_required
                     (student_mark_map complete_db student_101)
                     (scored_codes
                        (student_mark_map complete_db student_101)
                        student_101))
         ∧ length (scored_codes (student_mark_map complete_db student_101)
                     student_101)
           = length (student_required_codes complete_db student_101).
Proof.
  assert (student_101 ∈ division_students complete_db "A") as H1.
  { vm_compute. apply list_elem_of_here. }
  assert (unique_rolls complete_db "A") as H2.
  { vm_compute. apply NoDup_singleton. }
  assert (student_complete complete_db student_101 = true) as H3.
  { vm_compute. reflexivity. }
  assert (student_required_codes complete_db student_101
          ≡ₚ scored_codes (student_mark_map complete_db student_101)
               student_101) as H4.
  { vm_compute. reflexivity. }
  assert (student_required_codes complete_db student_101 ≠ []) as H5.
  { vm_compute. discriminate. }
  split; [exact H1|]. split; [exact H2|]. split; [exact H3|].
  split; [exact H4|]. split; [exact H5|].
  exact (percentage_mean_of_required _ "A" student_101 H1 H2 H3 H4 H5).
Defined.

(** The worked example stores the float 73.33; with annuals 60.1, 70, 70
    and 70 the sum is 270.1 as a float, the quotient a float just above
    67.525, and the run stores the float 67.53. *)
Example percentage_floats :
  (Result.percentage
   <$> query_result 101 "A"
         (result_table (generate_results_for_division "A" complete_db))
   = Some (Some (nearest_double (7333 # 100))))
  ∧ (Result.percentage
     <$> query_result 1 "A"
           (result_table (generate_results_for_division "A" fraction_db))
     = Some (Some (nearest_double (6753 # 100))))
  ∧ round2 (nearest_double (2675 # 1000)) = nearest_double (267 # 100)
  ∧ fadd (nearest_double (1 # 10)) (nearest_double (2 # 10))
    ≠ nearest_double (3 # 10).
Proof.
  vm_compute. split; [reflexivity|]. split; [reflexivity|].
  split; [reflexivity|]. discriminate.
Qed.

(** C1 as stated fails: when only ENG is allocated, ENG alone is required,
    but an ECO mark that exists is averaged in: the run stores 60 where the
    mean of the required annuals is 80. *)
Lemma percentage_not_required_mean :
  ¬ percentage_is_required_mean eng_only_db "A"
      asha.
Proof.
  intros H. destruct H as (r & p & Hq & Hp & Hmean).
  - vm_compute. reflexivity.
  - vm_compute in Hq. injection Hq as <-. simpl in Hp. injection Hp as <-.
    vm_compute in Hmean. discriminate.
Qed.

(** What the run stores there, and what the claim asks for. *)
Example percentage_eng_only :
  Result.percentage
  <$> query_result 1 "A"
        (result_table (generate_results_for_division "A" eng_only_db))
  = Some (Some 60)
  ∧ student_required_codes eng_only_db asha
    = ["ENG"]
  ∧ mean_of_required
      (student_mark_map eng_only_db asha)
      ["ENG"] = 80.
Proof. vm_compute. repeat split; reflexivity. Qed.

(** ** Frame: what the run leaves alone *)

Lemma query_result_some roll dv rs r :
  query_result roll dv rs = Some r →
  Result.roll_no r = roll ∧ Result.division r = dv.
Proof.
  induction rs as [|x rs IH]; [done|]. rewrite query_result_cons.
  destruct (result_matches roll dv x) eqn:Hm; [|done].
  intros [= <-]. by apply result_matches_inv.
Qed.

Lemma write_back_lookup_keep roll dv r' rs i r :
  rs !! i = Some r → result_matches roll dv r = false →
  write_back roll dv r' rs !! i = Some r.
Proof.
  revert i. induction rs as [|x rs IH]; intros i Hi Hm; [done|].
  simpl. destruct (result_matches roll dv x) eqn:Hx.
  - destruct i as [|i]; simpl in *; [|done]. congruence.
  - destruct i as [|i]; simpl in *; [done|]. by apply IH.
Qed.

Lemma write_back_lookup_inv roll dv r' rs i x :
  write_back roll dv r' rs !! i = Some x → rs !! i = Some x ∨ x = r'.
Proof.
  revert i. induction rs as [|y rs IH]; intros i Hi; [done|].
  simpl in Hi. destruct (result_matches roll dv y).
  - destruct i as [|i]; simpl in *; [right; congruence|by left].
  - destruct i as [|i]; simpl in *; [by left|by apply IH].
Qed.

Lemma student_pass_keeps db rs s i r :
  rs !! i = Some r → Result.division r ≠ Student.division s →
  student_pass db rs s !! i = Some r.
Proof.
  intros Hi Hd.
  assert (result_matches (Student.roll_no s) (Student.division s) r = false)
    as Hm.
  { apply bool_decide_eq_false_2. by intros [_ ?]. }
  unfold student_pass. repeat case_match;
    try (by apply write_back_lookup_keep); try done.
  by apply lookup_app_l_Some.
Qed.

Lemma student_pass_touches db rs s i r' :
  student_pass db rs s !! i = Some r' →
  rs !! i = Some r' ∨ Result.division r' = Student.division s.
Proof.
  unfold student_pass.
  destruct (missing_required _ _);
    destruct (query_result _ _ rs) as [r0|] eqn:Hq; intros Hi.
  - apply write_back_lookup_inv in Hi as [? | ->]; [by left|right].
    by apply query_result_some in Hq as [_ ?].
  - by left.
  - apply write_back_lookup_inv in Hi as [? | ->]; [by left|right].
    destruct (same_identity_score_student (student_mark_map db s) s r0)
      as (_ & _ & ->).
    by apply query_result_some in Hq as [_ ?].
  - apply lookup_app_Some in Hi as [?|[_ Hi]]; [by left|right].
    apply list_lookup_singleton_Some in Hi as [_ <-].
    by destruct (same_identity_score_student (student_mark_map db s) s
                   (Result.new (Student.roll_no s) (Student.name s)
                      (Student.division s))) as (_ & _ & ->).
Qed.

Lemma generate_keeps db division students rs i r :
  Forall (λ s, Student.division s = division) students →
  rs !! i = Some r → Result.division r ≠ division →
  foldl (student_pass db) rs students !! i = Some r.
Proof.
  intros Hall. revert rs. induction Hall as [|s l Hs _ IH]; intros rs Hi Hd;
    [done|].
  simpl. apply IH; [|done]. apply student_pass_keeps; [done|]. by rewrite Hs.
Qed.

Lemma generate_touches db division students rs i r' :
  Forall (λ s, Student.division s = division) students →
  foldl (student_pass db) rs students !! i = Some r' →
  rs !! i = Some r' ∨ Result.division r' = division.
Proof.
  intros Hall. revert rs. induction Hall as [|s l Hs _ IH]; intros rs Hi;
    [by left|].
  simpl in Hi. apply IH in Hi as [Hi|?]; [|by right].
  apply student_pass_touches in Hi as [?|Hi]; [by left|right]. by rewrite <- Hs.
Qed.

Lemma division_students_all db division :
  Forall (λ s, Student.division s = division) (division_students db division).
Proof.
  apply Forall_forall. intros s Hs. by apply division_students_division in Hs.
Qed.

(** C8: the run leaves the Subject, Student, TeacherSubjectAllocation and
    Mark tables as they are; a [Result] row of another division stays where
    it is, unchanged; and every row of the [Result] table after the run is
    either the row that stood there before or a row of the given division. *)
Theorem generate_results_frame division db :
  let db' := generate_results_for_division division db in
  subject_table db' = subject_table db
  ∧ student_table db' = student_table db
  ∧ allocation_table db' = allocation_table db
  ∧ mark_table db' = mark_table db
  ∧ (∀ i r, result_table db !! i = Some r →
            Result.division r ≠ division →
            result_table db' !! i = Some r)
  ∧ (∀ i r', result_table db' !! i = Some r' →
             result_table db !! i = Some r' ∨ Result.division r' = division).
Proof.
  simpl. repeat split.
  - intros i r. apply generate_keeps, division_students_all.
  - intros i r'. apply generate_touches, division_students_all.
Qed.

(** ** The mark handlers *)

Lemma enter_marks_cases GRACE_MAX user_id data db :
  (∃ m, enter_marks GRACE_MAX user_id data db
        = (with_marks db (mark_table db ++ [m]), Status 201)
        ∧ Mark.grace m = Some 0
        ∧ grace_ok GRACE_MAX (get_or_zero (d_grace data)) = true)
  ∨ (∃ code, enter_marks GRACE_MAX user_id data db = (db, Status code)
             ∧ code ≠ 201%Z).
Proof.
  unfold enter_marks.
  repeat case_match; try (right; eexists; split; [reflexivity|lia]).
  left. eexists. split; [reflexivity|]. split; [done|].
  by apply negb_false_iff.
Qed.

(** C10: a request that [enter_marks] accepts passed the range check on the
    grace it supplied, and the mark it stores, appended to the Mark table,
    has grace 0 whatever that grace was. *)
Theorem created_mark_grace_zero GRACE_MAX user_id data db db' :
  enter_marks GRACE_MAX user_id data db = (db', Status 201) →
  grace_ok GRACE_MAX (get_or_zero (d_grace data)) = true
  ∧ ∃ m, mark_table db' = mark_table db ++ [m] ∧ Mark.grace m = Some 0.
Proof.
  intros H.
  destruct (enter_marks_cases GRACE_MAX user_id data db)
    as [(m & E & Hg & Hok)|(code & E & Hne)]; rewrite E in H.
  - injection H as <-. split; [done|]. by exists m.
  - injection H as _ ->. done.
Qed.

Lemma created_mark_grace_zero_witness :
  enter_marks 15 1 maths_entry pending_db = (entered_db, Status 201)
  ∧ grace_ok 15 (get_or_zero (d_grace maths_entry)) = true
  ∧ ∃ m, mark_table entered_db = mark_table pending_db ++ [m]
         ∧ Mark.grace m = Some 0.
Proof.
  assert (enter_marks 15 1 maths_entry pending_db = (entered_db, Status 201))
    as H by (vm_compute; reflexivity).
  split; [exact H|].
  exact (created_mark_grace_zero 15 1 maths_entry pending_db entered_db H).
Defined.

(** The other two handlers: deleting records nothing, and updating is the
    one place where a supplied grace reaches the Mark table. *)
Lemma delete_mark_records_nothing mark_id user_id user_type db m :
  m ∈ mark_table (delete_mark engine mark_id user_id user_type db).1 →
  m ∈ mark_table db.
Proof.
  unfold delete_mark. repeat case_match; simpl; try done.
  intros Hin. by apply list_elem_of_filter in Hin as [_ ?].
Qed.

Example update_marks_records_grace :
  Mark.grace
  <$> get_mark
        (update_marks 15 engine 1 1
           (mkData None None None (Some 20) (Some 20) (Some 40) (Some 80)
              (Some 4)) pending_db).1 1
  = Some (Some 4).
Proof. vm_compute. reflexivity. Qed.

(** [enter_marks] never reaches the engine: the Result table is left as it
    was, whatever the request. *)
Lemma enter_marks_result_table GRACE_MAX user_id data db :
  result_table (enter_marks GRACE_MAX user_id data db).1 = result_table db.
Proof.
  destruct (enter_marks_cases GRACE_MAX user_id data db)
    as [(m & -> & _)|(code & -> & _)]; done.
Qed.

(** [update_marks] and [delete_mark] call the engine after the commit and
    swallow its failure: the status is 200 and the store is the committed
    one. *)
Lemma update_marks_recompute_nonfatal GRACE_MAX recompute mark_id user_id
    data db db1 :
  update_marks GRACE_MAX (λ _ d, Some d) mark_id user_id data db
  = (db1, Status 200) →
  update_marks GRACE_MAX (λ _ _, None) mark_id user_id data db
  = (db1, Status 200)
  ∧ ∃ dv, update_marks GRACE_MAX recompute mark_id user_id data db
          = (try_recompute recompute dv db1, Status 200).
Proof.
  unfold update_marks. repeat case_match; try done.
  all: intros [= <-]; split; [done|]; by eexists.
Qed.

Lemma delete_mark_recompute_nonfatal recompute mark_id user_id user_type
    db db1 :
  delete_mark (λ _ d, Some d) mark_id user_id user_type db
  = (db1, Status 200) →
  delete_mark (λ _ _, None) mark_id user_id user_type db = (db1, Status 200)
  ∧ ∃ dv, delete_mark recompute mark_id user_id user_type db
          = (try_recompute recompute dv db1, Status 200).
Proof.
  unfold delete_mark. repeat case_match; try done.
  all: intros [= <-]; split; [done|]; by eexists.
Qed.

(** C9 fails for [enter_marks]: the request that completes student 101 is
    accepted and the mark is committed, but the Result table is still
    empty, where a run of the engine on the committed store gives the
    student a row with percentage 73.33. *)
Theorem enter_marks_skips_recompute :
  enter_marks 15 1 maths_entry pending_db = (entered_db, Status 201)
  ∧ length (mark_table entered_db) = 6%nat
  ∧ result_table entered_db = []
  ∧ Result.percentage
    <$> query_result 101 "A"
          (result_table (generate_results_for_division "A" entered_db))
    = Some (Some (nearest_double (7333 # 100))).
Proof. vm_compute. repeat split; reflexivity. Qed.

(** * Further properties *)

(** ** [enter_marks] *)

Lemma enter_marks_created GRACE_MAX user_id data db db' :
  enter_marks GRACE_MAX user_id data db = (db', Status 201) →
  ∃ subject student,
    d_subject_id data ≫= get_subject db = Some subject
    ∧ is_Some (_check_teacher_allocation db user_id
                 (Subject.subject_id subject) (d_division data))
    ∧ find_student db (d_roll_no data) (d_division data) = Some student
    ∧ enrolled student subject
    ∧ find_subject_mark db student subject = None
    ∧ components_ok (get_or_zero (d_unit1 data)) (get_or_zero (d_unit2 data))
        (get_or_zero (d_term data)) (get_or_zero (d_annual data)) = true
    ∧ grace_ok GRACE_MAX (get_or_zero (d_grace data)) = true
    ∧ db' = with_marks db
              (mark_table db ++ [entered_mark user_id data db student subject]).
Proof.
  unfold enter_marks, find_student, find_subject_mark, enrolled.
  destruct (d_subject_id data ≫= get_subject db) as [subject|]; [|done].
  destruct (_check_teacher_allocation _ _ _ _) as [alloc|] eqn:Ea; [|done].
  destruct (List.find _ (student_table db)) as [student|]; [|done].
  destruct (bool_decide (_ ∈ ["HINDI"; "IT"]) && _) eqn:E1; [done|].
  destruct (bool_decide (_ ∈ ["MATHS"; "SP"]) && _) eqn:E2; [done|].
  destruct (List.find _ (mark_table db)) as [existing|] eqn:Em; [done|].
  destruct (components_ok _ _ _ _) eqn:E3; [|done]. simpl.
  destruct (grace_ok _ _) eqn:E4; [|done]. simpl.
  intros [= <-]. exists subject, student.
  split; [done|]. split; [by rewrite Ea; eexists|]. split; [done|].
  split; [|done]. cbv zeta. split; intros Hin.
  - apply andb_false_iff in E1 as [E1|E1].
    + by apply bool_decide_eq_false in E1.
    + apply negb_false_iff in E1. by apply bool_decide_eq_true in E1.
  - apply andb_false_iff in E2 as [E2|E2].
    + by apply bool_decide_eq_false in E2.
    + apply negb_false_iff in E2. by apply bool_decide_eq_true in E2.
Qed.

(** X1: a status [enter_marks] returns is 201, 400, 403, 404 or 409;
    unless it is 201 the store is exactly as it was; and whatever the
    status, the Subject, Student, TeacherSubjectAllocation and Result
    tables are as they were. *)
Theorem enter_marks_outcomes GRACE_MAX user_id data db db' code :
  enter_marks GRACE_MAX user_id data db = (db', Status code) →
  code ∈ [201; 400; 403; 404; 409]%Z
  ∧ (code ≠ 201%Z → db' = db)
  ∧ subject_table db' = subject_table db
  ∧ student_table db' = student_table db
  ∧ allocation_table db' = allocation_table db
  ∧ result_table db' = result_table db.
Proof.
  unfold enter_marks.
  repeat case_match; intros [= <- <-];
    (split; [rewrite !elem_of_cons; tauto|]); done.
Qed.

Lemma enter_marks_outcomes_witness :
  enter_marks 15 1 maths_entry pending_db = (entered_db, Status 201)
  ∧ 201%Z ∈ [201; 400; 403; 404; 409]%Z
  ∧ (201%Z ≠ 201%Z → entered_db = pending_db)
  ∧ subject_table entered_db = subject_table pending_db
  ∧ student_table entered_db = student_table pending_db
  ∧ allocation_table entered_db = allocation_table pending_db
  ∧ result_table entered_db = result_table pending_db.
Proof.
  assert (enter_marks 15 1 maths_entry pending_db = (entered_db, Status 201))
    as H by (vm_compute; reflexivity).
  split; [exact H|].
  exact (enter_marks_outcomes 15 1 maths_entry pending_db entered_db 201 H).
Defined.

Lemma enrolled_checks student subject :
  enrolled student subject →
  bool_decide (Subject.subject_code subject ∈ ["HINDI"; "IT"])
  && negb (bool_decide (Student.optional_subject student
                        = Some (Subject.subject_code subject))) = false
  ∧ bool_decide (Subject.subject_code subject ∈ ["MATHS"; "SP"])
    && negb (bool_decide (Student.optional_subject_2 student
                          = Some (Subject.subject_code subject))) = false.
Proof.
  intros [H1 H2]. split.
  - case_bool_decide as Hin; [|done]. simpl.
    by rewrite bool_decide_eq_true_2 by auto.
  - case_bool_decide as Hin; [|done]. simpl.
    by rewrite bool_decide_eq_true_2 by auto.
Qed.

Lemma enter_marks_conflict GRACE_MAX user_id data db subject student :
  d_subject_id data ≫= get_subject db = Some subject →
  is_Some (_check_teacher_allocation db user_id
             (Subject.subject_id subject) (d_division data)) →
  find_student db (d_roll_no data) (d_division data) = Some student →
  enrolled student subject →
  is_Some (find_subject_mark db student subject) →
  enter_marks GRACE_MAX user_id data db = (db, Status 409).
Proof.
  intros Hs [alloc Ha] Hst Hen [m Hm]. unfold enter_marks.
  unfold find_student in Hst. unfold find_subject_mark in Hm.
  rewrite Hs, Ha, Hst. destruct (enrolled_checks _ _ Hen) as [-> ->].
  by rewrite Hm.
Qed.

Lemma find_app_None {A} (f : A → bool) (l : list A) (x : A) :
  List.find f l = None → f x = true → List.find f (l ++ [x]) = Some x.
Proof.
  induction l as [|y l IH]; simpl; intros Hn Hx; [by rewrite Hx|].
  destruct (f y); [done|]. by apply IH.
Qed.

(** X2: a request that [enter_marks] accepted is refused with 409 when it
    is sent again, and the store is left as the first call made it. *)
Theorem enter_marks_twice GRACE_MAX user_id data db db' :
  enter_marks GRACE_MAX user_id data db = (db', Status 201) →
  enter_marks GRACE_MAX user_id data db' = (db', Status 409).
Proof.
  intros H.
  apply enter_marks_created in H
    as (subject & student & Hs & Ha & Hst & Hen & Hm & _ & _ & ->).
  apply (enter_marks_conflict _ _ _ _ subject student); try done.
  eexists. unfold find_subject_mark in *. simpl.
  apply find_app_None; [done|]. by apply bool_decide_eq_true.
Qed.

Lemma enter_marks_twice_witness :
  enter_marks 15 1 maths_entry pending_db = (entered_db, Status 201)
  ∧ enter_marks 15 1 maths_entry entered_db = (entered_db, Status 409).
Proof.
  assert (enter_marks 15 1 maths_entry pending_db = (entered_db, Status 201))
    as H by (vm_compute; reflexivity).
  split; [exact H|].
  exact (enter_marks_twice 15 1 maths_entry pending_db entered_db H).
Defined.

Lemma find_None_not_elem {A} (f : A → bool) (l : list A) (x : A) :
  List.find f l = None → x ∈ l → f x = false.
Proof.
  induction l as [|y l IH]; simpl; intros Hn Hx.
  - by apply elem_of_nil in Hx.
  - destruct (f y) eqn:Hy; [done|].
    apply elem_of_cons in Hx as [->|Hx]; [done|]. by apply IH.
Qed.

(** X3: [enter_marks] keeps the Mark table free of two rows for the same
    (roll_no, division, subject_id). *)
Theorem enter_marks_keeps_keys_unique GRACE_MAX user_id data db :
  mark_keys_unique db →
  mark_keys_unique (enter_marks GRACE_MAX user_id data db).1.
Proof.
  intros Hu.
  destruct (enter_marks_cases GRACE_MAX user_id data db)
    as [(m0 & E & _)|(code & E & _)]; [|by rewrite E].
  rewrite E. simpl.
  apply enter_marks_created in E
    as (subject & student & _ & _ & _ & _ & Hm & _ & _ & ->).
  unfold mark_keys_unique in *. simpl. rewrite fmap_app. simpl.
  apply NoDup_app. split; [done|]. split; [|apply NoDup_singleton].
  intros k Hk Hk'. apply list_elem_of_singleton in Hk'. subst k.
  apply list_elem_of_fmap in Hk as (m & Hkey & Hin).
  pose proof (find_None_not_elem _ _ m Hm Hin) as Hf.
  apply bool_decide_eq_false in Hf. apply Hf.
  unfold mark_key, entered_mark in Hkey. simpl in Hkey.
  injection Hkey as -> -> ->. done.
Qed.

Lemma enter_marks_keeps_keys_unique_witness :
  mark_keys_unique pending_db
  ∧ mark_keys_unique (enter_marks 15 1 maths_entry pending_db).1.
Proof.
  assert (mark_keys_unique pending_db) as H.
  { unfold mark_keys_unique. apply (bool_decide_unpack _).
    vm_compute. exact I. }
  split; [exact H|].
  exact (enter_marks_keeps_keys_unique 15 1 maths_entry pending_db H).
Defined.

Lemma outside_false lo hi x : outside lo hi x = false → lo <= x ∧ x <= hi.
Proof.
  unfold outside. intros H. apply orb_false_iff in H as [H1 H2].
  apply negb_false_iff in H1, H2. by rewrite <- !Qle_bool_iff.
Qed.

Lemma components_ok_within unit1 unit2 term annual :
  components_ok unit1 unit2 term annual = true →
  (0 <= unit1 ∧ unit1 <= 25) ∧ (0 <= unit2 ∧ unit2 <= 25)
  ∧ (0 <= term ∧ term <= 50) ∧ (0 <= annual ∧ annual <= 100).
Proof.
  unfold components_ok. rewrite !andb_true_iff, !negb_true_iff.
  intros [[H12 Ht] Ha]. apply orb_false_iff in H12 as [H1 H2].
  auto using outside_false.
Qed.

Lemma grace_ok_within GRACE_MAX g :
  grace_ok GRACE_MAX g = true → 0 <= g ∧ g <= inject_Z GRACE_MAX.
Proof. unfold grace_ok. rewrite negb_true_iff. apply outside_false. Qed.

Lemma find_some_elem {A} (f : A → bool) (l : list A) (x : A) :
  List.find f l = Some x → x ∈ l ∧ f x = true.
Proof.
  induction l as [|y l IH]; simpl; [done|].
  destruct (f y) eqn:Hy.
  - intros [= ->]. split; [apply list_elem_of_here|done].
  - intros H. destruct (IH H). split; [by apply list_elem_of_further|done].
Qed.

Lemma tot_within (u1 u2 t a : Q) :
  0 <= u1 ∧ u1 <= 25 → 0 <= u2 ∧ u2 <= 25 → 0 <= t ∧ t <= 50 →
  0 <= a ∧ a <= 100 →
  0 <= fadd (fadd (fadd u1 u2) t) a ∧ fadd (fadd (fadd u1 u2) t) a <= 200.
Proof.
  intros [? ?] [? ?] [? ?] [? ?].
  destruct (fadd_within u1 u2 25 25 50) as [? ?]; try done.
  destruct (fadd_within (fadd u1 u2) t 50 50 100) as [? ?]; try done.
  by apply (fadd_within _ a 100 100 200).
Qed.

Lemma half_within (t : Q) :
  0 <= t → t <= 200 →
  0 <= round2 (fdiv t 2) ∧ round2 (fdiv t 2) <= 100.
Proof.
  intros H0 H200.
  assert (t / 2 == t * (1 # 2)) as E by (unfold Qdiv; reflexivity).
  destruct (nearest_double_within (t / 2) 100) as [? ?]; [done|..].
  - rewrite E. lra.
  - rewrite E. lra.
  - by apply (round2_within _ 100).
Qed.

(** X4: the mark [enter_marks] stores has its components within the
    accepted ranges (units 0..25, term 0..50, annual 0..100); its total is
    the float sum unit1 + unit2 + term + annual, a missing component
    counting 0, and is within 0..200; its average is [round(tot / 2, 2)]
    and is within 0..100; its grace is within 0..GRACE_MAX. *)
Theorem entered_mark_in_range GRACE_MAX user_id data db db' :
  enter_marks GRACE_MAX user_id data db = (db', Status 201) →
  ∃ m, mark_table db' = mark_table db ++ [m]
       ∧ mark_in_range GRACE_MAX m
       ∧ Mark.tot m
         = Some (fadd (fadd (fadd (get_or_zero (d_unit1 data))
                               (get_or_zero (d_unit2 data)))
                         (get_or_zero (d_term data)))
                   (get_or_zero (d_annual data)))
       ∧ Mark.sub_avg m = (λ t, round2 (fdiv t 2)) <$> Mark.tot m.
Proof.
  intros H.
  apply enter_marks_created in H
    as (subject & student & _ & _ & _ & _ & _ & Hc & Hg & ->).
  eexists. split; [done|]. split; [|done].
  apply components_ok_within in Hc as (H1 & H2 & H3 & H4).
  apply grace_ok_within in Hg as [Hg1 Hg2].
  destruct (tot_within _ _ _ _ H1 H2 H3 H4) as [Ht0 Ht200].
  destruct (half_within _ Ht0 Ht200) as [Ha Hb].
  unfold mark_in_range, entered_mark, within. simpl.
  destruct H1, H2, H3, H4.
  repeat split; try done; lra.
Qed.

Lemma entered_mark_in_range_witness :
  enter_marks 15 1 maths_entry pending_db = (entered_db, Status 201)
  ∧ ∃ m, mark_table entered_db = mark_table pending_db ++ [m]
         ∧ mark_in_range 15 m
         ∧ Mark.tot m = Some (fadd (fadd (fadd 20 20) 40) 65)
         ∧ Mark.sub_avg m = (λ t, round2 (fdiv t 2)) <$> Mark.tot m.
Proof.
  assert (enter_marks 15 1 maths_entry pending_db = (entered_db, Status 201))
    as H by (vm_compute; reflexivity).
  split; [exact H|].
  exact (entered_mark_in_range 15 1 maths_entry pending_db entered_db H).
Defined.

(** With components 20, 20, 40 and 0.01 the total is the float 80.01, its
    half a float just above 40.005, and the stored average the float
    40.01. *)
Example entered_mark_floats :
  round2 (fdiv (fadd (fadd (fadd 20 20) 40) (nearest_double (1 # 100))) 2)
  = nearest_double (4001 # 100).
Proof. vm_compute. reflexivity. Qed.

(** X5: the mark [enter_marks] stores is entered by the caller, for a
    student of the Student table with that roll number and division, and
    for a subject of the Subject table that the caller is allocated to in
    that division; for HINDI / IT (MATHS / SP) the student has chosen it. *)
Theorem entered_mark_refers GRACE_MAX user_id data db db' :
  enter_marks GRACE_MAX user_id data db = (db', Status 201) →
  ∃ m student subject alloc,
    mark_table db' = mark_table db ++ [m]
    ∧ Mark.entered_by m = Some user_id
    ∧ student ∈ student_table db
    ∧ Mark.roll_no m = Student.roll_no student
    ∧ Mark.division m = Student.division student
    ∧ subject ∈ subject_table db
    ∧ Mark.subject_id m = Subject.subject_id subject
    ∧ enrolled student subject
    ∧ alloc ∈ allocation_table db
    ∧ TeacherSubjectAllocation.teacher_id alloc = user_id
    ∧ TeacherSubjectAllocation.subject_id alloc = Mark.subject_id m
    ∧ TeacherSubjectAllocation.division alloc = Mark.division m.
Proof.
  intros H.
  apply enter_marks_created in H
    as (subject & student & Hs & [alloc Ha] & Hst & Hen & _ & _ & _ & ->).
  destruct (d_subject_id data) as [sid|]; [|done]. simpl in Hs.
  apply find_some_elem in Hs as [Hs _].
  apply find_some_elem in Hst as [Hst Hst'].
  apply bool_decide_eq_true in Hst' as [_ Hdv].
  apply find_some_elem in Ha as [Ha Ha'].
  apply bool_decide_eq_true in Ha' as (? & ? & Hdv').
  exists (entered_mark user_id data db student subject), student, subject,
    alloc.
  simpl. destruct Hen as [He1 He2].
  repeat split; try done. congruence.
Qed.

Lemma entered_mark_refers_witness :
  enter_marks 15 1 maths_entry pending_db = (entered_db, Status 201)
  ∧ ∃ m student subject alloc,
      mark_table entered_db = mark_table pending_db ++ [m]
      ∧ Mark.entered_by m = Some 1%Z
      ∧ student ∈ student_table pending_db
      ∧ Mark.roll_no m = Student.roll_no student
      ∧ Mark.division m = Student.division student
      ∧ subject ∈ subject_table pending_db
      ∧ Mark.subject_id m = Subject.subject_id subject
      ∧ enrolled student subject
      ∧ alloc ∈ allocation_table pending_db
      ∧ TeacherSubjectAllocation.teacher_id alloc = 1%Z
      ∧ TeacherSubjectAllocation.subject_id alloc = Mark.subject_id m
      ∧ TeacherSubjectAllocation.division alloc = Mark.division m.
Proof.
  assert (enter_marks 15 1 maths_entry pending_db = (entered_db, Status 201))
    as H by (vm_compute; reflexivity).
  split; [exact H|].
  exact (entered_mark_refers 15 1 maths_entry pending_db entered_db H).
Defined.

(** ** [update_marks] *)

Lemma update_marks_updated GRACE_MAX recompute mark_id user_id data db db' :
  update_marks GRACE_MAX recompute mark_id user_id data db
  = (db', Status 200) →
  ∃ mark u1 u2 t a grace,
    get_mark db mark_id = Some mark
    ∧ is_Some (get_subject db (Mark.subject_id mark))
    ∧ d_unit1 data = Some u1 ∧ d_unit2 data = Some u2
    ∧ d_term data = Some t ∧ d_annual data = Some a
    ∧ components_ok u1 u2 t a = true
    ∧ match d_grace data with
      | Some g => Some g
      | None => Mark.grace mark
      end = Some grace
    ∧ grace_ok GRACE_MAX grace = true
    ∧ db' = try_recompute recompute (Mark.division mark)
              (with_marks db
                 (replace_mark mark_id (updated_mark mark u1 u2 t a grace)
                    (mark_table db))).
Proof.
  unfold update_marks.
  destruct (get_mark db mark_id) as [mark|]; [|done].
  destruct (get_subject db (Mark.subject_id mark)) as [subject|] eqn:Es;
    [|done].
  destruct (_check_teacher_allocation _ _ _ _) as [alloc|]; [|done].
  destruct (components_ok _ _ _ _) eqn:Ec; [|done]. simpl.
  destruct (match d_grace data with
            | Some g => Some g
            | None => Mark.grace mark
            end) as [grace|] eqn:Eg; [|done].
  destruct (grace_ok _ _) eqn:Ek; [|done]. simpl.
  destruct (d_unit1 data) as [u1|]; [|done].
  destruct (d_unit2 data) as [u2|]; [|done].
  destruct (d_term data) as [t|]; [|done].
  destruct (d_annual data) as [a|]; [|done].
  intros [= <-]. exists mark, u1, u2, t, a, grace.
  rewrite Es. split; [done|]. split; [by eexists|].
  do 4 (split; [done|]). split; [exact Ec|]. split; [done|].
  split; [exact Ek|].
  reflexivity.
Qed.

Lemma update_marks_unchanged GRACE_MAX recompute mark_id user_id data db :
  (update_marks GRACE_MAX recompute mark_id user_id data db).2 ≠ Status 200 →
  (update_marks GRACE_MAX recompute mark_id user_id data db).1 = db.
Proof. unfold update_marks. repeat case_match; simpl; done. Qed.

(** X6: [update_marks] answers 200, 400, 403 or 404 or raises, and unless
    it answers 200 the store is exactly as it was, whatever the engine
    does. *)
Theorem update_marks_outcomes GRACE_MAX recompute mark_id user_id data db :
  ((update_marks GRACE_MAX recompute mark_id user_id data db).2 = Raised
   ∨ ∃ code, (update_marks GRACE_MAX recompute mark_id user_id data db).2
             = Status code
             ∧ code ∈ [200; 400; 403; 404]%Z)
  ∧ ((update_marks GRACE_MAX recompute mark_id user_id data db).2
     ≠ Status 200 →
     (update_marks GRACE_MAX recompute mark_id user_id data db).1 = db).
Proof.
  unfold update_marks.
  repeat case_match; simpl; (split; [|done]);
    first [by left
          | right; eexists; split; [reflexivity|];
            rewrite !elem_of_cons; tauto].
Qed.

(** X7: unlike [enter_marks], [update_marks] does not default a component:
    when the payload lacks unit1, unit2, term or annual it never answers
    200 and the store is left as it was. *)
Theorem update_marks_needs_components GRACE_MAX recompute mark_id user_id
    data db :
  d_unit1 data = None ∨ d_unit2 data = None
  ∨ d_term data = None ∨ d_annual data = None →
  (update_marks GRACE_MAX recompute mark_id user_id data db).2 ≠ Status 200
  ∧ (update_marks GRACE_MAX recompute mark_id user_id data db).1 = db.
Proof.
  intros Habs.
  assert ((update_marks GRACE_MAX recompute mark_id user_id data db).2
          ≠ Status 200) as Hne.
  { destruct (update_marks _ _ _ _ _ _) as [db' out] eqn:E. simpl.
    intros ->. apply update_marks_updated in E
      as (? & ? & ? & ? & ? & ? & _ & _ & H1 & H2 & H3 & H4 & _).
    destruct Habs as [?|[?|[?|?]]]; congruence. }
  split; [done|]. by apply update_marks_unchanged.
Qed.

(** With every check passed the missing key escapes as an exception. *)
Lemma update_marks_needs_components_witness :
  d_unit1 (mkData None None None None (Some 20) (Some 40) (Some 80) None)
  = None
  ∧ update_marks 15 engine 1 1
      (mkData None None None None (Some 20) (Some 40) (Some 80) None)
      pending_db
    = (pending_db, Raised)
  ∧ (update_marks 15 engine 1 1
       (mkData None None None None (Some 20) (Some 40) (Some 80) None)
       pending_db).2 ≠ Status 200
  ∧ (update_marks 15 engine 1 1
       (mkData None None None None (Some 20) (Some 40) (Some 80) None)
       pending_db).1 = pending_db.
Proof.
  split; [reflexivity|]. split; [vm_compute; reflexivity|].
  exact (update_marks_needs_components 15 engine 1 1
           (mkData None None None None (Some 20) (Some 40) (Some 80) None)
           pending_db (or_introl eq_refl)).
Defined.

Lemma mark_table_generate dv db :
  mark_table (generate_results_for_division dv db) = mark_table db.
Proof. reflexivity. Qed.

Lemma mark_table_with_marks db ms : mark_table (with_marks db ms) = ms.
Proof. reflexivity. Qed.

Lemma try_recompute_engine dv db :
  try_recompute engine dv db = generate_results_for_division dv db.
Proof. reflexivity. Qed.

(** X8: a successful [update_marks] rewrites the addressed mark only in its
    components: id, roll number, division, subject and author are kept,
    the new components are the payload's, within the accepted ranges, the
    grace is the payload's or else the stored one, within 0..GRACE_MAX, and
    the Subject, Student and TeacherSubjectAllocation tables are as they
    were. *)
Theorem update_marks_effect GRACE_MAX mark_id user_id data db db' :
  update_marks GRACE_MAX engine mark_id user_id data db = (db', Status 200) →
  ∃ mark mark',
    get_mark db mark_id = Some mark
    ∧ mark_table db' = replace_mark mark_id mark' (mark_table db)
    ∧ Mark.mark_id mark' = Mark.mark_id mark
    ∧ mark_key mark' = mark_key mark
    ∧ Mark.entered_by mark' = Mark.entered_by mark
    ∧ Mark.unit1 mark' = d_unit1 data ∧ Mark.unit2 mark' = d_unit2 data
    ∧ Mark.term mark' = d_term data ∧ Mark.annual mark' = d_annual data
    ∧ Mark.grace mark' = match d_grace data with
                         | Some g => Some g
                         | None => Mark.grace mark
                         end
    ∧ mark_in_range GRACE_MAX mark'
    ∧ subject_table db' = subject_table db
    ∧ student_table db' = student_table db
    ∧ allocation_table db' = allocation_table db.
Proof.
  intros H.
  apply update_marks_updated in H
    as (mark & u1 & u2 & t & a & grace & Hm & _ & -> & -> & -> & -> & Hc
        & Hg & Hk & ->).
  exists mark, (updated_mark mark u1 u2 t a grace).
  apply components_ok_within in Hc as (H1 & H2 & H3 & H4).
  apply grace_ok_within in Hk as [? ?].
  destruct (tot_within _ _ _ _ H1 H2 H3 H4) as [Ht0 Ht200].
  destruct (half_within _ Ht0 Ht200) as [? ?].
  destruct H1, H2, H3, H4.
  rewrite try_recompute_engine. simpl.
  repeat split; try done; try lra.
Qed.

Lemma update_marks_effect_witness :
  update_marks 15 engine 1 1
    (mkData None None None (Some 20) (Some 20) (Some 40) (Some 80) (Some 4))
    pending_db
  = ((update_marks 15 engine 1 1
        (mkData None None None (Some 20) (Some 20) (Some 40) (Some 80)
           (Some 4)) pending_db).1, Status 200)
  ∧ ∃ mark mark',
      get_mark pending_db 1 = Some mark
      ∧ mark_table
          (update_marks 15 engine 1 1
             (mkData None None None (Some 20) (Some 20) (Some 40) (Some 80)
                (Some 4)) pending_db).1
        = replace_mark 1 mark' (mark_table pending_db)
      ∧ Mark.mark_id mark' = Mark.mark_id mark
      ∧ mark_key mark' = mark_key mark
      ∧ Mark.entered_by mark' = Mark.entered_by mark
      ∧ Mark.unit1 mark' = Some 20 ∧ Mark.unit2 mark' = Some 20
      ∧ Mark.term mark' = Some 40 ∧ Mark.annual mark' = Some 80
      ∧ Mark.grace mark' = Some 4
      ∧ mark_in_range 15 mark'
      ∧ subject_table
          (update_marks 15 engine 1 1
             (mkData None None None (Some 20) (Some 20) (Some 40) (Some 80)
                (Some 4)) pending_db).1
        = subject_table pending_db
      ∧ student_table
          (update_marks 15 engine 1 1
             (mkData None None None (Some 20) (Some 20) (Some 40) (Some 80)
                (Some 4)) pending_db).1
        = student_table pending_db
      ∧ allocation_table
          (update_marks 15 engine 1 1
             (mkData None None None (Some 20) (Some 20) (Some 40) (Some 80)
                (Some 4)) pending_db).1
        = allocation_table pending_db.
Proof.
  assert (update_marks 15 engine 1 1
            (mkData None None None (Some 20) (Some 20) (Some 40) (Some 80)
               (Some 4)) pending_db
          = ((update_marks 15 engine 1 1
                (mkData None None None (Some 20) (Some 20) (Some 40) (Some 80)
                   (Some 4)) pending_db).1, Status 200)) as H.
  { vm_compute. reflexivity. }
  split; [exact H|].
  exact (update_marks_effect 15 1 1 _ pending_db _ H).
Defined.

Lemma replace_mark_unique mid m' ms mark :
  NoDup (Mark.mark_id <$> ms) →
  List.find (λ m, bool_decide (Mark.mark_id m = mid)) ms = Some mark →
  ∃ i, ms !! i = Some mark ∧ replace_mark mid m' ms = <[i:=m']> ms.
Proof.
  induction ms as [|m ms IH]; simpl; [done|]. intros Hnd Hf.
  apply NoDup_cons in Hnd as [Hnotin Hnd].
  case_bool_decide as Hid.
  - injection Hf as ->. exists 0%nat. split; [done|]. simpl. f_equal.
    unfold replace_mark. rewrite <- (list_fmap_id ms) at 2.
    apply list_fmap_ext. intros i x Hx. simpl.
    rewrite bool_decide_eq_false_2; [done|]. intros Hx'.
    apply Hnotin. rewrite Hid, <- Hx'.
    apply list_elem_of_fmap_2. by eapply list_elem_of_lookup_2.
  - destruct (IH Hnd Hf) as (i & Hi & Hr). exists (S i). split; [done|].
    simpl. unfold replace_mark in *. by rewrite Hr.
Qed.

(** X9: when mark ids are unique, a successful [update_marks] replaces one
    row of the Mark table, in place, by a row for the same
    (roll_no, division, subject_id); every other row is left as it was, so
    the table keeps its length and stays free of duplicate keys. *)
Theorem update_marks_one_row GRACE_MAX mark_id user_id data db db' :
  mark_ids_unique db →
  update_marks GRACE_MAX engine mark_id user_id data db = (db', Status 200) →
  ∃ i mark mark',
    mark_table db !! i = Some mark
    ∧ Mark.mark_id mark = mark_id
    ∧ mark_table db' = <[i:=mark']> (mark_table db)
    ∧ mark_key <$> mark_table db' = mark_key <$> mark_table db
    ∧ (mark_keys_unique db → mark_keys_unique db').
Proof.
  intros Hu H.
  apply update_marks_updated in H
    as (mark & u1 & u2 & t & a & grace & Hm & _ & _ & _ & _ & _ & _ & _ & _
        & ->).
  destruct (replace_mark_unique mark_id (updated_mark mark u1 u2 t a grace)
              _ mark Hu Hm) as (i & Hi & Hr).
  exists i, mark, (updated_mark mark u1 u2 t a grace).
  apply find_some_elem in Hm as [_ Hid]. apply bool_decide_eq_true in Hid.
  rewrite try_recompute_engine.
  unfold mark_keys_unique.
  rewrite mark_table_generate, mark_table_with_marks, Hr.
  assert (mark_key <$> <[i:=updated_mark mark u1 u2 t a grace]> (mark_table db)
          = mark_key <$> mark_table db) as Hk.
  { rewrite list_fmap_insert. apply list_insert_id.
    by rewrite list_lookup_fmap, Hi. }
  rewrite Hk. repeat split; done.
Qed.

Lemma update_marks_one_row_witness :
  mark_ids_unique pending_db
  ∧ update_marks 15 engine 1 1
      (mkData None None None (Some 20) (Some 20) (Some 40) (Some 80) (Some 4))
      pending_db
    = ((update_marks 15 engine 1 1
          (mkData None None None (Some 20) (Some 20) (Some 40) (Some 80)
             (Some 4)) pending_db).1, Status 200)
  ∧ ∃ i mark mark',
      mark_table pending_db !! i = Some mark
      ∧ Mark.mark_id mark = 1%Z
      ∧ mark_table
          (update_marks 15 engine 1 1
             (mkData None None None (Some 20) (Some 20) (Some 40) (Some 80)
                (Some 4)) pending_db).1
        = <[i:=mark']> (mark_table pending_db)
      ∧ mark_key
        <$> mark_table
              (update_marks 15 engine 1 1
                 (mkData None None None (Some 20) (Some 20) (Some 40)
                    (Some 80) (Some 4)) pending_db).1
        = mark_key <$> mark_table pending_db
      ∧ (mark_keys_unique pending_db →
         mark_keys_unique
           (update_marks 15 engine 1 1
              (mkData None None None (Some 20) (Some 20) (Some 40) (Some 80)
                 (Some 4)) pending_db).1).
Proof.
  assert (mark_ids_unique pending_db) as H1.
  { unfold mark_ids_unique. apply (bool_decide_unpack _).
    vm_compute. exact I. }
  assert (update_marks 15 engine 1 1
            (mkData None None None (Some 20) (Some 20) (Some 40) (Some 80)
               (Some 4)) pending_db
          = ((update_marks 15 engine 1 1
                (mkData None None None (Some 20) (Some 20) (Some 40) (Some 80)
                   (Some 4)) pending_db).1, Status 200)) as H2.
  { vm_compute. reflexivity. }
  split; [exact H1|]. split; [exact H2|].
  exact (update_marks_one_row 15 1 1 _ pending_db _ H1 H2).
Defined.

(** ** [delete_mark], and the results after a mutation *)

Lemma delete_mark_deleted recompute mark_id user_id user_type db db' :
  delete_mark recompute mark_id user_id user_type db = (db', Status 200) →
  ∃ mark,
    get_mark db mark_id = Some mark
    ∧ (user_type = "ADMIN" ∨ Mark.entered_by mark = Some user_id)
    ∧ db' = try_recompute recompute (Mark.division mark)
              (with_marks db
                 (filter (λ m, Mark.mark_id m ≠ mark_id) (mark_table db))).
Proof.
  unfold delete_mark. destruct (get_mark db mark_id) as [mark|]; [|done].
  destruct (negb _ && negb _) eqn:E; [done|]. intros [= <-].
  exists mark. split; [done|]. split; [|done].
  apply andb_false_iff in E as [E|E]; apply negb_false_iff in E;
    apply bool_decide_eq_true in E; auto.
Qed.

Lemma find_filter_None {A} (f : A → bool) (l : list A) :
  List.find f (filter (λ x, f x = false) l) = None.
Proof.
  induction l as [|x l IH]; [done|]. rewrite filter_cons.
  destruct (decide (f x = false)) as [Hx|Hx]; [|done].
  simpl. by rewrite Hx.
Qed.

(** X10: [delete_mark] succeeds only for an existing mark and a caller who
    is an admin or the teacher who entered it; afterwards no mark has that
    id, and the Mark table is the old one without the rows of that id, the
    others in their order. *)
Theorem delete_mark_effect mark_id user_id user_type db db' :
  delete_mark engine mark_id user_id user_type db = (db', Status 200) →
  ∃ mark,
    get_mark db mark_id = Some mark
    ∧ (user_type = "ADMIN" ∨ Mark.entered_by mark = Some user_id)
    ∧ get_mark db' mark_id = None
    ∧ mark_table db'
      = filter (λ m, Mark.mark_id m ≠ mark_id) (mark_table db).
Proof.
  intros H. apply delete_mark_deleted in H as (mark & Hm & Hauth & ->).
  exists mark. rewrite try_recompute_engine. unfold get_mark.
  rewrite mark_table_generate, mark_table_with_marks.
  repeat split; try done.
  rewrite (list_filter_iff (λ m, Mark.mark_id m ≠ mark_id)
             (λ m, bool_decide (Mark.mark_id m = mark_id) = false)).
  - apply find_filter_None.
  - intros m. by rewrite bool_decide_eq_false.
Qed.

Lemma delete_mark_effect_witness :
  delete_mark engine 5 1 "TEACHER" pending_db
  = ((delete_mark engine 5 1 "TEACHER" pending_db).1, Status 200)
  ∧ ∃ mark,
      get_mark pending_db 5 = Some mark
      ∧ ("TEACHER" = "ADMIN" ∨ Mark.entered_by mark = Some 1%Z)
      ∧ get_mark (delete_mark engine 5 1 "TEACHER" pending_db).1 5 = None
      ∧ mark_table (delete_mark engine 5 1 "TEACHER" pending_db).1
        = filter (λ m, Mark.mark_id m ≠ 5%Z) (mark_table pending_db).
Proof.
  assert (delete_mark engine 5 1 "TEACHER" pending_db
          = ((delete_mark engine 5 1 "TEACHER" pending_db).1, Status 200))
    as H by (vm_compute; reflexivity).
  split; [exact H|].
  exact (delete_mark_effect 5 1 "TEACHER" pending_db _ H).
Defined.

(** A teacher who did not enter the mark is refused, and nothing changes. *)
Lemma delete_mark_refused recompute mark_id user_id user_type db mark :
  get_mark db mark_id = Some mark →
  user_type ≠ "ADMIN" → Mark.entered_by mark ≠ Some user_id →
  delete_mark recompute mark_id user_id user_type db = (db, Status 403).
Proof.
  intros Hm Ha Ho. unfold delete_mark. rewrite Hm.
  by rewrite !bool_decide_eq_false_2.
Qed.

(** A second run of the engine finds nothing to change. *)
Lemma generate_again division db :
  generate_results_for_division division
    (generate_results_for_division division db)
  = generate_results_for_division division db.
Proof.
  unfold generate_results_for_division. simpl. f_equal.
  set (students := division_students db division).
  set (rs := foldl (student_pass db) (result_table db) students).
  change (foldl (student_pass db) rs students = rs).
  subst rs. apply generate_fixed.
  - intros roll dv r. rewrite query_generate. apply row_run_opt_fixed.
  - intros s Hs Hc. rewrite query_generate.
    apply (row_run_opt_scored db _ _ _ _ s); [done| |done].
    apply same_key_student.
Qed.

(** X11: after a successful [update_marks] or [delete_mark] with the engine
    in place, the results of the mark's division are up to date: running
    the engine on that division again changes nothing. *)
Theorem results_fresh_after_mutation GRACE_MAX mark_id user_id user_type
    data db db' :
  update_marks GRACE_MAX engine mark_id user_id data db = (db', Status 200)
  ∨ delete_mark engine mark_id user_id user_type db = (db', Status 200) →
  ∃ mark, get_mark db mark_id = Some mark
          ∧ generate_results_for_division (Mark.division mark) db' = db'.
Proof.
  intros [H|H].
  - apply update_marks_updated in H
      as (mark & u1 & u2 & t & a & grace & Hm & _ & _ & _ & _ & _ & _ & _ & _
          & ->).
    exists mark. split; [done|]. apply generate_again.
  - apply delete_mark_deleted in H as (mark & Hm & _ & ->).
    exists mark. split; [done|]. apply generate_again.
Qed.

Lemma results_fresh_after_mutation_witness :
  (update_marks 15 engine 5 1 maths_entry pending_db
   = ((delete_mark engine 5 1 "TEACHER" pending_db).1, Status 200)
   ∨ delete_mark engine 5 1 "TEACHER" pending_db
     = ((delete_mark engine 5 1 "TEACHER" pending_db).1, Status 200))
  ∧ ∃ mark, get_mark pending_db 5 = Some mark
            ∧ generate_results_for_division (Mark.division mark)
                (delete_mark engine 5 1 "TEACHER" pending_db).1
              = (delete_mark engine 5 1 "TEACHER" pending_db).1.
Proof.
  assert (delete_mark engine 5 1 "TEACHER" pending_db
          = ((delete_mark engine 5 1 "TEACHER" pending_db).1, Status 200))
    as H by (vm_compute; reflexivity).
  split; [right; exact H|].
  exact (results_fresh_after_mutation 15 5 1 "TEACHER" maths_entry
           pending_db _ (or_intror H)).
Defined.

(** ** The read handlers: [get_students] *)

Lemma by_roll_no_total : Total by_roll_no.
Proof. intros a b. unfold by_roll_no. lia. Qed.

Lemma by_roll_no_trans : Transitive by_roll_no.
Proof. intros a b c. unfold by_roll_no. lia. Qed.

Lemma order_by_roll_no_sorted l : Sorted by_roll_no (order_by_roll_no l).
Proof. apply Sorted_merge_sort, by_roll_no_total. Qed.

Lemma order_by_roll_no_perm l : order_by_roll_no l ≡ₚ l.
Proof. apply merge_sort_Permutation. Qed.

Lemma falsy_false x : falsy x = false → ∃ s, x = Some s ∧ s ≠ EmptyString.
Proof.
  destruct x as [s|]; [|done]. simpl. intros H.
  apply bool_decide_eq_false in H. by exists s.
Qed.

Lemma enrolled_query_filter db subject dv :
  enrolled_query db subject dv
  = filter (λ s, Student.division s = dv ∧ enrolled s subject)
      (student_table db).
Proof.
  unfold enrolled_query, division_students. cbv zeta.
  repeat case_bool_decide; rewrite ?list_filter_filter;
    apply list_filter_iff; intros s; unfold enrolled; cbv zeta; tauto.
Qed.

Lemma get_students_shown user_id subject_code division db body :
  get_students user_id subject_code division db = Json body 200 →
  ∃ subject dv students,
    subject_code = Some (Subject.subject_code subject)
    ∧ Subject.subject_code subject ≠ EmptyString
    ∧ division = Some dv
    ∧ dv ≠ EmptyString
    ∧ subject ∈ subject_table db
    ∧ is_Some (_check_teacher_allocation db user_id
                 (Subject.subject_id subject) division)
    ∧ body = (λ s, (Student.roll_no s, Student.name s, Student.division s))
             <$> students
    ∧ Sorted by_roll_no students
    ∧ students
      ≡ₚ filter (λ s, Student.division s = dv ∧ enrolled s subject)
           (student_table db).
Proof.
  unfold get_students.
  destruct (falsy subject_code) eqn:E1; [done|].
  destruct (falsy division) eqn:E2; [done|]. simpl.
  apply falsy_false in E1 as (sc & -> & Hsc).
  apply falsy_false in E2 as (dv & -> & Hdv).
  destruct (List.find _ (subject_table db)) as [subject|] eqn:Es; [|done].
  destruct (_check_teacher_allocation _ _ _ _) as [alloc|] eqn:Ea; [|done].
  intros [= <-].
  exists subject, dv, (order_by_roll_no (enrolled_query db subject dv)).
  apply find_some_elem in Es as [Hin Hc]. apply bool_decide_eq_true in Hc.
  injection Hc as Hc. subst sc.
  split; [done|]. split; [done|]. split; [done|]. split; [done|].
  split; [done|]. split; [by eexists|].
  split; [done|]. split; [apply order_by_roll_no_sorted|].
  rewrite <- enrolled_query_filter. apply order_by_roll_no_perm.
Qed.

(** X12: [get_students] answers 200 only when both arguments are present
    and not empty, a subject of the Subject table has that code and the
    caller is allocated to it in that division; the body then lists, in
    ascending roll number, each student of the division once, narrowed to
    those who chose the subject when it is HINDI or IT (optional_subject)
    or MATHS or SP (optional_subject_2). *)
Theorem get_students_lists_enrolled user_id subject_code division db body :
  get_students user_id subject_code division db = Json body 200 →
  ∃ subject dv students,
    subject_code = Some (Subject.subject_code subject)
    ∧ Subject.subject_code subject ≠ EmptyString
    ∧ division = Some dv
    ∧ dv ≠ EmptyString
    ∧ subject ∈ subject_table db
    ∧ is_Some (_check_teacher_allocation db user_id
                 (Subject.subject_id subject) division)
    ∧ body = (λ s, (Student.roll_no s, Student.name s, Student.division s))
             <$> students
    ∧ Sorted by_roll_no students
    ∧ students
      ≡ₚ filter (λ s, Student.division s = dv ∧ enrolled s subject)
           (student_table db).
Proof.
  intros H.
  destruct (get_students_shown _ _ _ _ _ H)
    as (subject & dv & students & H1 & H2 & H3 & H4 & H5 & H6 & H7 & H8
        & H9).
  exists subject, dv, students. repeat split; done.
Qed.

Lemma get_students_lists_enrolled_witness :
  get_students 1 (Some "MATHS") (Some "A") pending_db
  = Json [(101%Z, "Ravi", "A")] 200
  ∧ ∃ subject dv students,
      Some "MATHS" = Some (Subject.subject_code subject)
      ∧ Subject.subject_code subject ≠ EmptyString
      ∧ Some "A" = Some dv
      ∧ dv ≠ EmptyString
      ∧ subject ∈ subject_table pending_db
      ∧ is_Some (_check_teacher_allocation pending_db 1
                   (Subject.subject_id subject) (Some "A"))
      ∧ [(101%Z, "Ravi", "A")]
        = (λ s, (Student.roll_no s, Student.name s, Student.division s))
          <$> students
      ∧ Sorted by_roll_no students
      ∧ students
        ≡ₚ filter (λ s, Student.division s = dv ∧ enrolled s subject)
             (student_table pending_db).
Proof.
  assert (get_students 1 (Some "MATHS") (Some "A") pending_db
          = Json [(101%Z, "Ravi", "A")] 200) as H
    by (vm_compute; reflexivity).
  split; [exact H|].
  exact (get_students_lists_enrolled 1 (Some "MATHS") (Some "A") pending_db
           _ H).
Defined.

(** ** [list_marks] *)

Lemma last_filter_snoc {A} (P : A → Prop) `{∀ x, Decision (P x)} l x :
  last (filter P (l ++ [x]))
  = if decide (P x) then Some x else last (filter P l).
Proof.
  rewrite filter_app, last_app, filter_cons, filter_nil.
  by destruct (decide (P x)).
Qed.

(** A dict filled in a loop answers with the last row of the key. *)
Lemma marks_by_roll_lookup ms roll :
  marks_by_roll ms !! roll = last (filter (λ m, Mark.roll_no m = roll) ms).
Proof.
  unfold marks_by_roll. induction ms as [|m ms IH] using rev_ind; [done|].
  rewrite foldl_app, last_filter_snoc. simpl.
  destruct (decide (Mark.roll_no m = roll)) as [<-|Hne].
  - by rewrite lookup_insert_eq.
  - by rewrite lookup_insert_ne.
Qed.

(** X13: [list_marks] answers 200 only with both arguments present, for a
    caller allocated to the subject in the division or an admin; the body
    then has one row per student of the division, in ascending roll number,
    and the row shows the mark of that roll number, subject and division,
    the last such row of the Mark table when there are several, or the
    blank mark, with grace 0, when there is none. *)
Theorem list_marks_rows user_id user_type subject_id division db rows :
  list_marks user_id user_type subject_id division db = Json rows 200 →
  ∃ sid dv students,
    subject_id = Some sid ∧ division = Some dv
    ∧ (is_Some (_check_teacher_allocation db user_id sid division)
       ∨ user_type = "ADMIN")
    ∧ Sorted by_roll_no students
    ∧ students ≡ₚ division_students db dv
    ∧ rows
      = (λ s, mkMarkRow (Student.roll_no s) (Student.name s)
                (Student.division s)
                (mark_json
                   (last (filter (λ m, Mark.roll_no m = Student.roll_no s
                                       ∧ Mark.subject_id m = sid
                                       ∧ Mark.division m = dv)
                            (mark_table db)))))
        <$> students.
Proof.
  unfold list_marks. destruct subject_id as [sid|]; [|done].
  destruct (falsy division) eqn:E; [done|].
  apply falsy_false in E as (dv & -> & _). simpl.
  destruct (absent _ && negb _) eqn:Ea; [done|]. intros [= <-].
  exists sid, dv, (order_by_roll_no (division_students db dv)).
  split; [done|]. split; [done|]. split.
  { apply andb_false_iff in Ea as [Ea|Ea].
    - left. by destruct (_check_teacher_allocation _ _ _ _).
    - right. apply negb_false_iff in Ea. by apply bool_decide_eq_true in Ea. }
  split; [apply order_by_roll_no_sorted|].
  split; [apply order_by_roll_no_perm|].
  apply list_fmap_ext. intros i s _. simpl.
  rewrite marks_by_roll_lookup, list_filter_filter.
 reflexivity.
Qed.

Lemma list_marks_rows_witness :
  list_marks 1 "TEACHER" (Some 6%Z) (Some "A") entered_db
  = Json (reply_body
            (list_marks 1 "TEACHER" (Some 6%Z) (Some "A") entered_db)) 200
  ∧ ∃ sid dv students,
      Some 6%Z = Some sid ∧ Some "A" = Some dv
      ∧ (is_Some (_check_teacher_allocation entered_db 1 sid (Some "A"))
         ∨ "TEACHER" = "ADMIN")
      ∧ Sorted by_roll_no students
      ∧ students ≡ₚ division_students entered_db dv
      ∧ reply_body (list_marks 1 "TEACHER" (Some 6%Z) (Some "A") entered_db)
        = (λ s, mkMarkRow (Student.roll_no s) (Student.name s)
                  (Student.division s)
                  (mark_json
                     (last (filter (λ m, Mark.roll_no m = Student.roll_no s
                                         ∧ Mark.subject_id m = sid
                                         ∧ Mark.division m = dv)
                              (mark_table entered_db)))))
          <$> students.
Proof.
  assert (list_marks 1 "TEACHER" (Some 6%Z) (Some "A") entered_db
          = Json (reply_body
                    (list_marks 1 "TEACHER" (Some 6%Z) (Some "A")
                       entered_db)) 200) as H
    by (vm_compute; reflexivity).
  split; [exact H|].
  exact (list_marks_rows 1 "TEACHER" (Some 6%Z) (Some "A") entered_db _ H).
Defined.

(** ** [view_complete_table] *)

(** X14: [view_complete_table] is the one read handler that writes, and a
    repeated request is stable: sent again on the store the first call
    left, it answers the same and leaves that store as it is. *)
Theorem view_complete_table_twice user_id user_type division db :
  view_complete_table engine user_id user_type division
    (view_complete_table engine user_id user_type division db).1
  = view_complete_table engine user_id user_type division db.
Proof.
  destruct (view_complete_table engine user_id user_type division db)
    as [db1 reply] eqn:E.
  unfold view_complete_table in *. cbn [fst].
  destruct (falsy division); [by injection E as <- <-|].
  destruct (absent _ && negb _) eqn:Ea.
  - injection E as <- <-. by rewrite Ea.
  - injection E as <- <-.
    change (try_recompute engine ?d ?x)
      with (generate_results_for_division d x).
    change (allocation_table (generate_results_for_division ?d ?x))
      with (allocation_table x).
    by rewrite Ea, generate_again.
Qed.

Lemma float_sum_app l1 l2 :
  float_sum (l1 ++ l2) = foldl fadd (float_sum l1) l2.
Proof. unfold float_sum. by rewrite foldl_app. Qed.

Lemma entry_step_ok result st cf :
  tally_ok st → tally_ok (entry_step result st cf).
Proof.
  destruct st as [[entries ta] tg].
  unfold tally_ok, entry_step, shown_avgs, counted_graces.
  intros (Ha & Hg & Hall).
  set (grace := match result with
                | Some r => Result.get_grace cf.2 r
                | None => Some 0
                end).
  destruct (result ≫= Result.get_avg cf.2) as [a|] eqn:E;
    rewrite filter_app, filter_cons, filter_nil, Forall_app,
      Forall_singleton; cbn [e_avg].
  - rewrite decide_True by (by eexists).
    rewrite !fmap_app, !float_sum_app, <- Ha, <- Hg. by repeat split.
  - rewrite decide_False by (by intros [? ?]).
    rewrite app_nil_r. by repeat split.
Qed.

Lemma entry_step_codes result st cf :
  e_code <$> (entry_step result st cf).1.1 = (e_code <$> st.1.1) ++ [cf.1].
Proof.
  destruct st as [[entries ta] tg]. unfold entry_step.
  destruct (result ≫= Result.get_avg cf.2); simpl; by rewrite fmap_app.
Qed.

Lemma core_entries_ok result l st :
  tally_ok st → tally_ok (foldl (entry_step result) st l).
Proof.
  revert st. induction l as [|cf l IH]; intros st H; [done|].
  simpl. by apply IH, entry_step_ok.
Qed.

Lemma optional_entries_ok s result l st :
  tally_ok st → tally_ok (foldl (optional_entry_step s result) st l).
Proof.
  revert st. induction l as [|cf l IH]; intros st H; [done|].
  simpl. apply IH. unfold optional_entry_step.
  destruct (includes s cf.1); [by apply entry_step_ok|done].
Qed.

Lemma core_entries_codes result l st :
  e_code <$> (foldl (entry_step result) st l).1.1
  = (e_code <$> st.1.1) ++ l.*1.
Proof.
  revert st. induction l as [|cf l IH]; intros st; simpl.
  - by rewrite app_nil_r.
  - rewrite IH, entry_step_codes, <- app_assoc. done.
Qed.

Lemma optional_entries_codes s result l st :
  e_code <$> (foldl (optional_entry_step s result) st l).1.1
  = (e_code <$> st.1.1) ++ filter (λ c, includes s c = true) l.*1.
Proof.
  revert st. induction l as [|cf l IH]; intros st; simpl.
  - by rewrite app_nil_r.
  - rewrite IH, filter_cons. unfold optional_entry_step.
    destruct (includes s cf.1) eqn:E.
    + rewrite decide_True by done.
      rewrite entry_step_codes, <- app_assoc. done.
    + by rewrite decide_False by done.
Qed.

(** X15: a row of the complete table lists ENG, ECO, BK and OC and then
    the optional subjects the student chose; an entry has a final mark
    exactly when it has an average, the float sum of the average and the
    grace; [total_avg] is [round(A, 2)] and [total_grace] is [round(G, 2)],
    [A] and [G] the averages and the graces of the entries that have an
    average, each added as floats in the order of the entries; and
    [final_total], which is never null, is [round(A + G, 2)]. *)
Theorem table_row_totals rs idx s :
  let row := table_row rs idx s in
  e_code <$> t_subjects row
  = ["ENG"; "ECO"; "BK"; "OC"]
    ++ filter (λ c, includes s c = true) ["HINDI"; "IT"; "MATHS"; "SP"]
  ∧ Forall (λ e, e_final e
                 = (λ a, fadd (or_zero (Some a)) (or_zero (e_grace e)))
                   <$> e_avg e)
      (t_subjects row)
  ∧ t_total_avg row = round2 (float_sum (shown_avgs (t_subjects row)))
  ∧ t_total_grace row = round2 (float_sum (counted_graces (t_subjects row)))
  ∧ t_final_total row
    = Some (round2 (fadd (float_sum (shown_avgs (t_subjects row)))
                      (float_sum (counted_graces (t_subjects row))))).
Proof.
  unfold table_row. cbv zeta.
  set (result := query_result _ _ _).
  pose proof (optional_entries_ok s result optional_fields _
                (core_entries_ok result core_fields ([], 0, 0)
                   ltac:(by repeat split))) as Hok.
  pose proof (optional_entries_codes s result optional_fields
                (foldl (entry_step result) ([], 0, 0) core_fields)) as Hc.
  rewrite core_entries_codes in Hc.
  destruct (foldl (optional_entry_step s result) _ optional_fields)
    as [[entries ta] tg].
  destruct Hok as (Ha & Hg & Hall). cbn [t_subjects t_total_avg
    t_total_grace t_final_total fst] in *.
  split; [exact Hc|]. split; [done|].
  split; [by rewrite Ha|]. split; [by rewrite Hg|].
  destruct entries as [|e entries]; [done|].
  cbn [fmap option_fmap option_map]. by rewrite Ha, Hg.
Qed.

(** The row of a student whose ENG average is the float 2.675 shows a
    total of 2.67. *)
Example table_row_floats :
  t_total_avg
    (table_row
       [Result.set_avg eng (Some (nearest_double (2675 # 1000)))
          (Result.new 1 "Asha" "A")] 1 asha)
  = nearest_double (267 # 100).
Proof. vm_compute. reflexivity. Qed.

Lemma view_complete_table_shown recompute user_id user_type division db db'
    rows :
  view_complete_table recompute user_id user_type division db
  = (db', Json rows 200) →
  ∃ dv students,
    division = Some dv
    ∧ db' = try_recompute recompute dv db
    ∧ Sorted by_roll_no students
    ∧ students ≡ₚ division_students db' dv
    ∧ rows = imap (λ i s, table_row (result_table db') (Z.of_nat i + 1) s)
               students.
Proof.
  unfold view_complete_table.
  destruct (falsy division) eqn:E; [done|].
  apply falsy_false in E as (dv & -> & _).
  destruct (absent _ && negb _); [done|]. intros [= <- <-].
  eexists dv, _. split; [done|]. split; [done|].
  split; [apply order_by_roll_no_sorted|].
  split; [apply order_by_roll_no_perm|].
  unfold enumerate_from_1. rewrite fmap_imap. by apply imap_ext.
Qed.

Lemma unique_rolls_inj db division s s' :
  unique_rolls db division →
  s ∈ division_students db division → s' ∈ division_students db division →
  Student.roll_no s' = Student.roll_no s → s' = s.
Proof.
  unfold unique_rolls. induction (division_students db division) as [|x l IH];
    intros Hnd Hs Hs' Hr; [by apply elem_of_nil in Hs|].
  simpl in Hnd. apply NoDup_cons in Hnd as [Hx Hnd].
  apply elem_of_cons in Hs as [->|Hs]; apply elem_of_cons in Hs' as [->|Hs'].
  - done.
  - destruct Hx. rewrite <- Hr. by apply list_elem_of_fmap_2.
  - destruct Hx. rewrite Hr. by apply list_elem_of_fmap_2.
  - by apply IH.
Qed.

(** X16: in a division whose roll numbers are unique, the complete table
    has a row for a student who lacks the annual mark of a required
    subject, and every row of that roll number shows no percentage,
    whatever the Result table held before the request. *)
Theorem complete_table_hides_incomplete user_id user_type division db db'
    rows s code :
  view_complete_table engine user_id user_type (Some division) db
  = (db', Json rows 200) →
  s ∈ division_students db division →
  unique_rolls db division →
  code ∈ student_required_codes db s →
  annual_mark db s code = None →
  (∃ row, row ∈ rows ∧ t_roll_no row = Student.roll_no s)
  ∧ (∀ row, row ∈ rows → t_roll_no row = Student.roll_no s →
            t_percentage row = None).
Proof.
  intros H Hs Hnd Hcode Hnone.
  apply view_complete_table_shown in H
    as (dv & students & [= <-] & -> & _ & Hperm & ->).
  change (try_recompute engine ?d ?x)
    with (generate_results_for_division d x) in *.
  change (division_students (generate_results_for_division division db)
            division) with (division_students db division) in Hperm.
  assert (∀ idx, t_percentage
                   (table_row
                      (result_table
                         (generate_results_for_division division db)) idx s)
                 = None) as Hrow.
  { intros idx. unfold table_row.
    destruct (foldl _ _ optional_fields) as [[entries ta] tg]. cbn [t_percentage].
    rewrite (division_students_division _ _ _ Hs).
    rewrite generate_row by done. unfold row_pass.
    replace (missing_required _ _) with true.
    2: { symmetry. apply missing_required_true. by exists code. }
    by destruct (query_result _ _ (result_table db)). }
  split.
  - rewrite <- Hperm in Hs. apply list_elem_of_lookup_1 in Hs as [i Hi].
    eexists. split; [by eapply elem_of_lookup_imap_2|].
    unfold table_row. by destruct (foldl _ _ optional_fields) as [[? ?] ?].
  - intros row Hin Hr. apply elem_of_lookup_imap_1 in Hin as (i & s' & -> & Hi).
    assert (s' = s) as ->; [|apply Hrow].
    apply (unique_rolls_inj db division); try done.
    + rewrite <- Hperm. by eapply list_elem_of_lookup_2.
    + revert Hr. unfold table_row.
      by destruct (foldl _ _ optional_fields) as [[? ?] ?].
Qed.

Lemma complete_table_hides_incomplete_witness :
  view_complete_table engine 1 "TEACHER" (Some "A") stale_db
  = ((view_complete_table engine 1 "TEACHER" (Some "A") stale_db).1,
     Json (reply_body
             (view_complete_table engine 1 "TEACHER" (Some "A") stale_db).2)
       200)
  ∧ student_101 ∈ division_students stale_db "A"
  ∧ unique_rolls stale_db "A"
  ∧ "MATHS" ∈ student_required_codes stale_db student_101
  ∧ annual_mark stale_db student_101 "MATHS" = None
  ∧ (∃ row,
       row ∈ reply_body
               (view_complete_table engine 1 "TEACHER" (Some "A") stale_db).2
       ∧ t_roll_no row = 101%Z)
  ∧ (∀ row,
       row ∈ reply_body
               (view_complete_table engine 1 "TEACHER" (Some "A") stale_db).2
       → t_roll_no row = 101%Z → t_percentage row = None).
Proof.
  assert (view_complete_table engine 1 "TEACHER" (Some "A") stale_db
          = ((view_complete_table engine 1 "TEACHER" (Some "A") stale_db).1,
             Json (reply_body
                     (view_complete_table engine 1 "TEACHER" (Some "A")
                        stale_db).2) 200)) as H0
    by (vm_compute; reflexivity).
  assert (student_101 ∈ division_students stale_db "A") as H1.
  { vm_compute. apply list_elem_of_here. }
  assert (unique_rolls stale_db "A") as H2.
  { vm_compute. apply NoDup_singleton. }
  assert ("MATHS" ∈ student_required_codes stale_db student_101) as H3.
  { vm_compute. do 5 apply list_elem_of_further. apply list_elem_of_here. }
  assert (annual_mark stale_db student_101 "MATHS" = None) as H4
    by (vm_compute; reflexivity).
  split; [exact H0|]. split; [exact H1|]. split; [exact H2|].
  split; [exact H3|]. split; [exact H4|].
  exact (complete_table_hides_incomplete 1 "TEACHER" "A" stale_db _ _
           student_101 "MATHS" H0 H1 H2 H3 H4).
Defined.

(** ** The keys of the Result table *)

Lemma result_matches_result_key roll dv r :
  result_matches roll dv r = bool_decide (result_key r = (roll, dv)).
Proof.
  unfold result_matches, result_key. apply bool_decide_ext.
  split; [by intros [-> ->]|by intros [= -> ->]].
Qed.

Lemma write_back_keys roll dv r' rs :
  result_key r' = (roll, dv) →
  result_key <$> write_back roll dv r' rs = result_key <$> rs.
Proof.
  intros Hk. induction rs as [|r rs IH]; [done|]. cbn [write_back].
  rewrite result_matches_result_key.
  case_bool_decide as Hr; rewrite !fmap_cons.
  - by rewrite Hk, Hr.
  - by rewrite IH.
Qed.

Lemma query_result_None roll dv rs :
  query_result roll dv rs = None ↔ (roll, dv) ∉ (result_key <$> rs).
Proof.
  induction rs as [|r rs IH].
  - split; [intros _ H; by apply elem_of_nil in H|done].
  - rewrite fmap_cons.
    rewrite query_result_cons, result_matches_result_key, not_elem_of_cons.
    case_bool_decide as Hr.
    + split; [done|]. by intros [? _].
    + rewrite IH. split; [by split|by intros [_ ?]].
Qed.

Lemma same_identity_key r r' : same_identity r r' → result_key r' = result_key r.
Proof. intros (H1 & _ & H3). unfold result_key. by rewrite H1, H3. Qed.

(** One iteration keeps the keys of the table, and appends the student's
    key when the student is complete and had no row. *)
Lemma student_pass_keys db rs s :
  result_key <$> student_pass db rs s
  = (result_key <$> rs)
    ++ (if absent (query_result (Student.roll_no s) (Student.division s) rs)
           && student_complete db s
        then [student_key s] else []).
Proof.
  unfold student_pass, student_complete.
  destruct (query_result _ _ rs) as [r|] eqn:Hq; simpl.
  - rewrite app_nil_r. apply query_result_some in Hq as [Hr Hd].
    destruct (missing_required _ _); apply write_back_keys.
    + unfold result_key. simpl. by rewrite Hr, Hd.
    + rewrite (same_identity_key r), <- Hr, <- Hd; [done|].
      apply same_identity_score_student.
  - destruct (missing_required _ _); simpl; [by rewrite app_nil_r|].
    rewrite fmap_app. simpl. do 2 f_equal.
    by rewrite (same_identity_key _ _ (same_identity_score_student _ _ _)).
Qed.

Lemma generate_keys db students rs :
  ∃ new,
    result_key <$> foldl (student_pass db) rs students
    = (result_key <$> rs) ++ new
    ∧ NoDup new
    ∧ Forall (λ k, (k ∉ result_key <$> rs)
                   ∧ ∃ s, s ∈ students ∧ student_key s = k
                          ∧ student_complete db s = true) new.
Proof.
  revert rs. induction students as [|s l IH]; intros rs.
  - exists []. simpl. rewrite app_nil_r. split; [done|].
    split; [apply NoDup_nil_2|done].
  - simpl. destruct (IH (student_pass db rs s)) as (new & Hk & Hnd & Hall).
    rewrite student_pass_keys in Hk, Hall.
    set (extra := if absent _ && student_complete db s
                  then [student_key s] else []) in *.
    exists (extra ++ new). rewrite Hk, <- app_assoc. split; [done|].
    assert (NoDup extra ∧ Forall (λ k, (k ∉ result_key <$> rs)
                   ∧ ∃ s', s' ∈ s :: l ∧ student_key s' = k
                          ∧ student_complete db s' = true) extra)
      as [Hnde Halle].
    { subst extra.
      destruct (query_result _ _ rs) eqn:Hq; simpl;
        [split; [apply NoDup_nil_2|done]|].
      destruct (student_complete db s) eqn:Hc;
        [|split; [apply NoDup_nil_2|done]].
      split; [apply NoDup_singleton|]. apply Forall_singleton.
      split; [by apply query_result_None|].
      exists s. split; [apply list_elem_of_here|done]. }
    split.
    + apply NoDup_app. split; [done|]. split; [|done].
      intros k Hk1 Hk2. rewrite Forall_forall in Hall.
      destruct (Hall k Hk2) as [Hn _]. apply Hn, elem_of_app. by right.
    + apply Forall_app. split; [done|].
      eapply Forall_impl; [exact Hall|]. intros k [Hn (s' & Hs' & Hks & Hc)].
      split.
      * intros Hin. apply Hn, elem_of_app. by left.
      * exists s'. split; [by apply list_elem_of_further|done].
Qed.

(** X17: the engine never deletes a Result row nor changes the
    (roll_no, division) of one: the keys of the table after a run are the
    keys before, in their order, followed by new keys, which are distinct,
    were not in the table, and are each the key of a student of the given
    division whose required marks are all present. *)
Theorem generate_never_drops_rows division db :
  ∃ new,
    result_key <$> result_table (generate_results_for_division division db)
    = (result_key <$> result_table db) ++ new
    ∧ NoDup new
    ∧ Forall (λ k, (k ∉ result_key <$> result_table db)
                   ∧ ∃ s, s ∈ student_table db
                          ∧ Student.division s = division
                          ∧ student_key s = k
                          ∧ student_complete db s = true) new.
Proof.
  destruct (generate_keys db (division_students db division)
              (result_table db)) as (new & Hk & Hnd & Hall).
  exists new. split; [done|]. split; [done|].
  eapply Forall_impl; [exact Hall|]. intros k [Hn (s & Hs & Hks & Hc)].
  split; [done|]. exists s.
  apply list_elem_of_filter in Hs as [Hd Hs]. done.
Qed.

(** X18: a run of the engine keeps the Result table free of two rows for
    the same (roll_no, division), even when two students of the division
    share a roll number. *)
Theorem generate_keeps_result_keys_unique division db :
  result_keys_unique (result_table db) →
  result_keys_unique
    (result_table (generate_results_for_division division db)).
Proof.
  unfold result_keys_unique. intros Hu.
  destruct (generate_keys db (division_students db division)
              (result_table db)) as (new & Hk & Hnd & Hall).
  simpl. rewrite Hk. apply NoDup_app. split; [done|]. split; [|done].
  intros k Hk1 Hk2. rewrite Forall_forall in Hall.
  by destruct (Hall k Hk2) as [Hn _].
Qed.

Lemma generate_keeps_result_keys_unique_witness :
  result_keys_unique (result_table rerun_db)
  ∧ result_keys_unique
      (result_table (generate_results_for_division "A" rerun_db)).
Proof.
  assert (result_keys_unique (result_table rerun_db)) as H.
  { unfold result_keys_unique. apply (bool_decide_unpack _).
    vm_compute. exact I. }
  split; [exact H|].
  exact (generate_keeps_result_keys_unique "A" rerun_db H).
Defined.

Lemma row_run_opt_is_Some db roll dv students o :
  is_Some (row_run_opt db roll dv students o)
  ↔ is_Some o ∨ ∃ s, s ∈ students ∧ student_key s = (roll, dv)
                     ∧ student_complete db s = true.
Proof.
  revert o. induction students as [|s l IH]; intros o; simpl.
  - split; [by left|]. intros [?|(s & Hs & _)]; [done|].
    by apply elem_of_nil in Hs.
  - rewrite IH. unfold same_key, student_key.
    case_bool_decide as Hk.
    + destruct Hk as [<- <-]. unfold row_pass, student_complete.
      destruct (missing_required _ _) eqn:Hm; simpl.
      * rewrite fmap_is_Some. split.
        { intros [?|(s' & Hs' & Hk' & Hc)]; [by left|right].
          exists s'. split; [by apply list_elem_of_further|done]. }
        { intros [?|(s' & Hs' & Hk' & Hc)]; [by left|].
          apply elem_of_cons in Hs' as [->|Hs'].
          - by rewrite Hm in Hc.
          - right. by exists s'. }
      * split; [|intros _; left; by eexists].
        intros _. right. exists s. split; [apply list_elem_of_here|].
        by rewrite Hm.
    + split.
      * intros [?|(s' & Hs' & Hk' & Hc)]; [by left|right].
        exists s'. split; [by apply list_elem_of_further|done].
      * intros [?|(s' & Hs' & Hk' & Hc)]; [by left|].
        apply elem_of_cons in Hs' as [->|Hs'].
        { destruct Hk. by injection Hk'. }
        right. by exists s'.
Qed.

(** X19: after a run of the engine a Result row answers the query for
    (roll, dv) exactly when one did before, or some student of the given
    division with that roll number has every required mark: rows are
    created for complete students only. *)
Theorem generate_row_exists_iff division db roll dv :
  is_Some (query_result roll dv
             (result_table (generate_results_for_division division db)))
  ↔ is_Some (query_result roll dv (result_table db))
    ∨ ∃ s, s ∈ student_table db ∧ Student.division s = division
           ∧ Student.roll_no s = roll ∧ dv = division
           ∧ student_complete db s = true.
Proof.
  simpl. rewrite query_generate, row_run_opt_is_Some.
  split.
  - intros [?|(s & Hs & Hk & Hc)]; [by left|right]. exists s.
    apply list_elem_of_filter in Hs as [Hd Hs]. injection Hk as <- <-. done.
  - intros [?|(s & Hs & Hd & <- & -> & Hc)]; [by left|right]. exists s.
    split; [by apply list_elem_of_filter|].
    unfold student_key. by rewrite Hd.
Qed.

(** ** The dicts of the engine *)

Lemma subjects_dict_lookup ss sid :
  subjects_dict ss !! sid
  = Subject.subject_code
    <$> last (filter (λ s, Subject.subject_id s = sid) ss).
Proof.
  unfold subjects_dict. induction ss as [|s ss IH] using rev_ind; [done|].
  rewrite foldl_app, last_filter_snoc. simpl.
  destruct (decide (Subject.subject_id s = sid)) as [<-|Hne].
  - by rewrite lookup_insert_eq.
  - by rewrite lookup_insert_ne.
Qed.

Lemma build_mark_map_lookup subjects ms code :
  build_mark_map subjects ms !! code
  = if decide (code = EmptyString) then None
    else last (filter (λ m, subjects !! Mark.subject_id m = Some code) ms).
Proof.
  unfold build_mark_map. induction ms as [|m ms IH] using rev_ind.
  - simpl. by destruct (decide _).
  - rewrite foldl_app, last_filter_snoc. simpl.
    destruct (subjects !! Mark.subject_id m) as [c|] eqn:Ec.
    + destruct (decide (c = EmptyString)) as [->|Hc].
      * rewrite IH. destruct (decide (code = EmptyString)) as [->|Hn]; [done|].
        rewrite decide_False; [done|]. intros [= <-]. done.
      * destruct (decide (c = code)) as [->|Hne].
        { rewrite lookup_insert_eq, decide_False by done.
          by rewrite decide_True. }
        { rewrite lookup_insert_ne by done. rewrite IH.
          destruct (decide (code = EmptyString)); [done|].
          rewrite decide_False; [done|]. by intros [= ->]. }
    + rewrite IH. destruct (decide (code = EmptyString)); [done|].
      by rewrite decide_False.
Qed.

(** X20: the mark the engine uses for a student and a subject code is the
    last row of the Mark table with the student's roll number and division
    whose subject id maps to that code, where a subject id maps to the code
    of the last Subject row with that id; no mark is ever filed under the
    empty code. *)
Theorem mark_map_last_wins db s code :
  student_mark_map db s !! code
  = if decide (code = EmptyString) then None
    else last (filter (λ m, Mark.roll_no m = Student.roll_no s
                            ∧ Mark.division m = Student.division s
                            ∧ Subject.subject_code
                              <$> last (filter (λ sb, Subject.subject_id sb
                                                      = Mark.subject_id m)
                                          (subject_table db))
                              = Some code)
                 (mark_table db)).
Proof.
  unfold student_mark_map, student_marks. rewrite build_mark_map_lookup.
  destruct (decide (code = EmptyString)); [done|].
  rewrite list_filter_filter. f_equal. apply list_filter_iff. intros m.
  rewrite subjects_dict_lookup. tauto.
Qed.

(** ** Ranges *)

Lemma mark_map_elem db s code m :
  student_mark_map db s !! code = Some m → m ∈ mark_table db.
Proof.
  unfold student_mark_map. rewrite build_mark_map_lookup.
  destruct (decide _); [done|]. intros H.
  apply last_Some_elem_of in H.
  apply list_elem_of_filter in H as [_ H].
  by apply list_elem_of_filter in H as [_ H].
Qed.

Lemma annual_of_within db s code :
  annuals_in_range db →
  0 <= annual_of (student_mark_map db s) code
  ∧ annual_of (student_mark_map db s) code <= 100.
Proof.
  intros Hm. unfold annual_of.
  destruct (student_mark_map db s !! code) as [m|] eqn:E; [|done].
  apply mark_map_elem in E. unfold annuals_in_range in Hm.
  rewrite Forall_forall in Hm. specialize (Hm m E).
  by destruct (Mark.annual m).
Qed.

Lemma scored_codes_length mark_map s :
  (length (scored_codes mark_map s) ≤ 6)%nat.
Proof.
  unfold scored_codes, optional_extension. rewrite !length_app.
  pose proof (length_filter (λ code, is_Some (mark_map !! code))
                fallback_codes) as H.
  simpl in H.
  assert (∀ (o : option string) (P : string → Prop)
            `{∀ c, Decision (P c)},
            (length (match o with
                     | Some c => if bool_decide (P c) then [c] else []
                     | None => []
                     end) ≤ 1)%nat) as Hopt.
  { intros [c|] P ?; [|simpl; lia]. case_bool_decide; simpl; lia. }
  pose proof (Hopt (Student.optional_subject s)
                (λ c, c = "HINDI" ∨ c = "IT") _).
  pose proof (Hopt (Student.optional_subject_2 s)
                (λ c, c = "MATHS" ∨ c = "SP") _).
  lia.
Qed.

Lemma mean_within (t : Q) (n : Z) :
  (0 < n)%Z → 0 <= t → t <= inject_Z (100 * n) →
  null_or_within 0 100 (Some (round2 (fdiv t (inject_Z n)))).
Proof.
  intros Hn H0 H100. simpl.
  assert (0 < inject_Z n) as Hpos by (by apply (inject_Z_lt 0)).
  destruct (nearest_double_within (t / inject_Z n) 100) as [? ?]; [done|..].
  - apply Qle_shift_div_l; [done|]. by rewrite Qmult_0_l.
  - apply Qle_shift_div_r; [done|]. change 100 with (inject_Z 100).
    by rewrite <- inject_Z_mult.
  - by apply (round2_within _ 100).
Qed.

Lemma score_student_percentage_within db s r :
  annuals_in_range db →
  null_or_within 0 100 (Result.percentage r) →
  null_or_within 0 100
    (Result.percentage (score_student (student_mark_map db s) s r)).
Proof.
  intros Hm Hr. rewrite percentage_score_student.
  destruct (0 <? _)%Z eqn:Hc; [|done]. apply Z.ltb_lt in Hc.
  pose proof (scored_codes_length (student_mark_map db s) s) as Hlen.
  destruct (float_sum_within
              (annual_of (student_mark_map db s)
               <$> scored_codes (student_mark_map db s) s)) as [H0 H100].
  { apply Forall_fmap, Forall_forall. intros code _.
    by apply annual_of_within. }
  { rewrite length_fmap. lia. }
  rewrite length_fmap in H100.
  apply mean_within; [done|..]; rewrite scored_total_spec; [done|].
  by rewrite scored_count_spec.
Qed.

Lemma row_update_percentage_within db s r :
  annuals_in_range db →
  null_or_within 0 100 (Result.percentage r) →
  null_or_within 0 100 (Result.percentage (row_update db s r)).
Proof.
  intros Hm Hr. unfold row_update. destruct (missing_required _ _); [done|].
  by apply score_student_percentage_within.
Qed.

Lemma Forall_write_back (P : Result.t → Prop) roll dv r' rs :
  P r' → Forall P rs → Forall P (write_back roll dv r' rs).
Proof.
  intros Hr'. induction 1 as [|r rs Hr Hrs IH]; [done|]. simpl.
  destruct (result_matches roll dv r); by constructor.
Qed.

Lemma student_pass_percentages db rs s :
  annuals_in_range db →
  percentages_in_range rs → percentages_in_range (student_pass db rs s).
Proof.
  intros Hm Hrs. unfold percentages_in_range in *. unfold student_pass.
  destruct (missing_required _ _);
    destruct (query_result _ _ rs) as [r|] eqn:Hq; try done.
  - by apply Forall_write_back.
  - apply Forall_write_back; [|done].
    apply score_student_percentage_within; [done|].
    apply find_some_elem in Hq as [Hin _].
    rewrite Forall_forall in Hrs. by apply Hrs.
  - apply Forall_app. split; [done|]. apply Forall_singleton.
    by apply score_student_percentage_within.
Qed.

Lemma generate_percentages division db :
  annuals_in_range db →
  percentages_in_range (result_table db) →
  percentages_in_range
    (result_table (generate_results_for_division division db)).
Proof.
  intros Hm. simpl. generalize (result_table db).
  induction (division_students db division) as [|s l IH]; intros rs Hrs;
    [done|].
  simpl. by apply IH, student_pass_percentages.
Qed.

(** X21: when every annual of the Mark table is null or within 0..100 and
    every stored percentage is null or within 0..100, so is every
    percentage of the Result table after a run of the engine. *)
Theorem generate_keeps_percentages_in_range division db :
  annuals_in_range db →
  percentages_in_range (result_table db) →
  percentages_in_range
    (result_table (generate_results_for_division division db)).
Proof. apply generate_percentages. Qed.

Lemma annuals_in_range_rerun : annuals_in_range rerun_db.
Proof.
  unfold annuals_in_range. simpl.
  repeat (apply Forall_cons; split;
          [simpl; try done; split; by apply Qle_bool_imp_le|]).
  apply Forall_nil_2.
Qed.

Lemma percentages_in_range_rerun :
  percentages_in_range (result_table rerun_db).
Proof.
  unfold percentages_in_range. simpl. apply Forall_singleton.
  simpl. split; by apply Qle_bool_imp_le.
Qed.

Lemma generate_keeps_percentages_in_range_witness :
  annuals_in_range rerun_db
  ∧ percentages_in_range (result_table rerun_db)
  ∧ percentages_in_range
      (result_table (generate_results_for_division "A" rerun_db)).
Proof.
  split; [exact annuals_in_range_rerun|].
  split; [exact percentages_in_range_rerun|].
  exact (generate_keeps_percentages_in_range "A" rerun_db
           annuals_in_range_rerun percentages_in_range_rerun).
Defined.

(** ** The subject columns of a scored row *)

Lemma subject_columns_score_student mark_map s r f :
  Result.get_avg f (score_student mark_map s r)
  = Result.get_avg f (scored_row mark_map s r)
  ∧ Result.get_grace f (score_student mark_map s r)
    = Result.get_grace f (scored_row mark_map s r).
Proof.
  rewrite score_student_split.
  unfold grade_pass, final_calc.
  repeat case_match; by destruct f.
Qed.

Lemma scored_row_core mark_map s r code f :
  (code, f) ∈ core_fields →
  Result.get_avg f (scored_row mark_map s r)
  = match mark_map !! code with
    | Some m => Some (not_none_or_zero (Mark.annual m))
    | None => Result.get_avg f r
    end
  ∧ Result.get_grace f (scored_row mark_map s r)
    = match mark_map !! code with
      | Some m => Some (or_zero (Mark.grace m))
      | None => Result.get_grace f r
      end.
Proof.
  intros Hin. unfold scored_row, chosen_1, chosen_2, core_fields in *.
  cbn [core_rows foldl fst snd].
  repeat (apply elem_of_cons in Hin as [[= -> ->]|Hin]);
    [..|by apply elem_of_nil in Hin].
  all: repeat case_decide; cbn [chosen_row optional_row];
    destruct (mark_map !! "ENG"), (mark_map !! "ECO"), (mark_map !! "BK"),
      (mark_map !! "OC"); done.
Qed.

Lemma scored_row_optional mark_map s r code f :
  (code, f) ∈ chosen_fields s →
  Result.get_avg f (scored_row mark_map s r) = Some (annual_of mark_map code)
  ∧ Result.get_grace f (scored_row mark_map s r)
    = Some (grace_of mark_map code).
Proof.
  unfold chosen_fields, scored_row, chosen_1, chosen_2. intros Hin.
  repeat case_decide; cbn [option_list app] in Hin;
    repeat (apply elem_of_cons in Hin as [[= -> ->]|Hin]);
    try (by apply elem_of_nil in Hin); split; reflexivity.
Qed.

Lemma scored_row_unchosen mark_map s r f :
  f ∈ [hindi; it; maths; sp] → f ∉ (chosen_fields s).*2 →
  Result.get_avg f (scored_row mark_map s r) = Result.get_avg f r
  ∧ Result.get_grace f (scored_row mark_map s r) = Result.get_grace f r.
Proof.
  unfold chosen_fields, scored_row, chosen_1, chosen_2, core_fields.
  intros Hf Hn. cbn [core_rows foldl fst snd].
  repeat (apply elem_of_cons in Hf as [->|Hf]);
    [..|by apply elem_of_nil in Hf].
  all: repeat case_decide; simpl in Hn;
    cbn [chosen_row optional_row];
    try (by destruct Hn; rewrite !elem_of_cons; auto).
  all: destruct (mark_map !! "ENG"), (mark_map !! "ECO"), (mark_map !! "BK"),
      (mark_map !! "OC"); split; reflexivity.
Qed.

(** X22: in a division whose roll numbers are unique, a student whose
    required marks are all present gets a row in which, for each of ENG,
    ECO, BK and OC the student has a mark for, the average column holds
    the annual of that mark and the grace column its grace (zero for
    null); for each optional subject the student chose the two columns
    hold the annual and the grace of the mark, zero without one; and the
    columns of the optional subjects not chosen are as they were. *)
Theorem stored_marks_of_complete_student db division s :
  s ∈ division_students db division →
  unique_rolls db division →
  student_complete db s = true →
  ∃ r,
    query_result (Student.roll_no s) division
      (result_table (generate_results_for_division division db)) = Some r
    ∧ (∀ code f m,
         (code, f) ∈ core_fields →
         student_mark_map db s !! code = Some m →
         Result.get_avg f r = Some (not_none_or_zero (Mark.annual m))
         ∧ Result.get_grace f r = Some (or_zero (Mark.grace m)))
    ∧ (∀ code f,
         (code, f) ∈ chosen_fields s →
         Result.get_avg f r = Some (annual_of (student_mark_map db s) code)
         ∧ Result.get_grace f r
           = Some (grace_of (student_mark_map db s) code))
    ∧ (∀ f,
         f ∈ [hindi; it; maths; sp] → f ∉ (chosen_fields s).*2 →
         Result.get_avg f r
         = (query_result (Student.roll_no s) division (result_table db)
            ≫= Result.get_avg f)
         ∧ Result.get_grace f r
           = (query_result (Student.roll_no s) division (result_table db)
              ≫= Result.get_grace f)).
Proof.
  intros Hs Hnd Hc. rewrite generate_row by done.
  rewrite row_pass_complete by done. eexists. split; [done|].
  split; [|split].
  - intros code f m Hin Hm.
    destruct (subject_columns_score_student (student_mark_map db s) s
                (default (Result.new (Student.roll_no s) (Student.name s)
                            (Student.division s))
                   (query_result (Student.roll_no s) division
                      (result_table db))) f) as [-> ->].
    destruct (scored_row_core (student_mark_map db s) s
                (default (Result.new (Student.roll_no s) (Student.name s)
                            (Student.division s))
                   (query_result (Student.roll_no s) division
                      (result_table db))) code f Hin) as [-> ->].
    by rewrite Hm.
  - intros code f Hin.
    destruct (subject_columns_score_student (student_mark_map db s) s
                (default (Result.new (Student.roll_no s) (Student.name s)
                            (Student.division s))
                   (query_result (Student.roll_no s) division
                      (result_table db))) f) as [-> ->].
    by apply scored_row_optional.
  - intros f Hf Hn.
    destruct (subject_columns_score_student (student_mark_map db s) s
                (default (Result.new (Student.roll_no s) (Student.name s)
                            (Student.division s))
                   (query_result (Student.roll_no s) division
                      (result_table db))) f) as [-> ->].
    destruct (scored_row_unchosen (student_mark_map db s) s
                (default (Result.new (Student.roll_no s) (Student.name s)
                            (Student.division s))
                   (query_result (Student.roll_no s) division
                      (result_table db))) f Hf Hn) as [-> ->].
    destruct (query_result _ _ (result_table db)); [done|]. simpl.
    by destruct f.
Qed.

Lemma stored_marks_of_complete_student_witness :
  student_101 ∈ division_students complete_db "A"
  ∧ unique_rolls complete_db "A"
  ∧ student_complete complete_db student_101 = true
  ∧ ∃ r,
      query_result (Student.roll_no student_101) "A"
        (result_table (generate_results_for_division "A" complete_db))
      = Some r
      ∧ (∀ code f m,
           (code, f) ∈ core_fields →
           student_mark_map complete_db student_101 !! code = Some m →
           Result.get_avg f r = Some (not_none_or_zero (Mark.annual m))
           ∧ Result.get_grace f r = Some (or_zero (Mark.grace m)))
      ∧ (∀ code f,
           (code, f) ∈ chosen_fields student_101 →
           Result.get_avg f r
           = Some (annual_of (student_mark_map complete_db student_101) code)
           ∧ Result.get_grace f r
             = Some (grace_of (student_mark_map complete_db student_101)
                       code))
      ∧ (∀ f,
           f ∈ [hindi; it; maths; sp] →
           f ∉ (chosen_fields student_101).*2 →
           Result.get_avg f r
           = (query_result (Student.roll_no student_101) "A"
                (result_table complete_db) ≫= Result.get_avg f)
           ∧ Result.get_grace f r
             = (query_result (Student.roll_no student_101) "A"
                  (result_table complete_db) ≫= Result.get_grace f)).
Proof.
  assert (student_101 ∈ division_students complete_db "A") as H1.
  { vm_compute. apply list_elem_of_here. }
  assert (unique_rolls complete_db "A") as H2.
  { vm_compute. apply NoDup_singleton. }
  assert (student_complete complete_db student_101 = true) as H3
    by (vm_compute; reflexivity).
  split; [exact H1|]. split; [exact H2|]. split; [exact H3|].
  exact (stored_marks_of_complete_student complete_db "A" student_101
           H1 H2 H3).
Defined.

(** ** The admin handler, and the required codes *)

Lemma DB_eta db :
  mkDB (subject_table db) (student_table db) (allocation_table db)
    (mark_table db) (result_table db) = db.
Proof. by destruct db. Qed.

Lemma filter_none {A} (P : A → Prop) `{∀ x, Decision (P x)} (l : list A) :
  (∀ x, x ∈ l → ¬ P x) → filter P l = [].
Proof.
  induction l as [|x l IH]; intros Hn; [done|].
  rewrite filter_cons_False by (apply Hn, list_elem_of_here).
  apply IH. intros y Hy. by apply Hn, list_elem_of_further.
Qed.

(** X23: the admin's [generate_results] does not check that the division
    exists: for a non-empty division without students it answers 200 and
    leaves the store exactly as it was. *)
Theorem generate_results_unknown_division division db :
  division ≠ EmptyString →
  (∀ s, s ∈ student_table db → Student.division s ≠ division) →
  generate_results (Some division) db = (db, Status 200).
Proof.
  intros Hne Hno. unfold generate_results. simpl.
  rewrite bool_decide_eq_false_2 by done. f_equal.
  unfold generate_results_for_division, division_students.
  rewrite filter_none by done. apply DB_eta.
Qed.

Lemma generate_results_unknown_division_witness :
  "B" ≠ EmptyString
  ∧ (∀ s, s ∈ student_table complete_db → Student.division s ≠ "B")
  ∧ generate_results (Some "B") complete_db = (complete_db, Status 200).
Proof.
  assert ("B" ≠ EmptyString) as H1 by discriminate.
  assert (∀ s, s ∈ student_table complete_db → Student.division s ≠ "B")
    as H2.
  { intros s Hs. simpl in Hs. apply list_elem_of_singleton in Hs.
    rewrite Hs. simpl. discriminate. }
  split; [exact H1|]. split; [exact H2|].
  exact (generate_results_unknown_division "B" complete_db H1 H2).
Defined.

(** X24: once the admin's [generate_results] has run for a division, a
    [view_complete_table] request for it, by any caller, leaves the store
    as it is. *)
Theorem generate_results_then_view user_id user_type division db :
  (view_complete_table engine user_id user_type division
     (generate_results division db).1).1
  = (generate_results division db).1.
Proof.
  unfold generate_results, view_complete_table.
  destruct (falsy division); [done|]. cbn [fst].
  destruct (absent _ && negb _); [done|]. cbn [fst].
  change (try_recompute engine ?d ?x)
    with (generate_results_for_division d x).
  apply generate_again.
Qed.

Lemma base_required_step_inv subjects acc a :
  NoDup acc →
  NoDup (base_required_step subjects acc a)
  ∧ ∀ c, c ∈ base_required_step subjects acc a →
         c ∈ acc
         ∨ (c ≠ EmptyString ∧ (c ∉ grading_only) ∧ (c ∉ optional_codes)
            ∧ subjects !! TeacherSubjectAllocation.subject_id a = Some c).
Proof.
  intros Hnd. unfold base_required_step.
  destruct (subjects !! _) as [code|]; [|by auto].
  destruct (decide (code = EmptyString)); [by auto|].
  destruct (decide (_ ∨ _)) as [|Hn]; [by auto|].
  destruct (decide (code ∈ acc)); [by auto|]. split.
  - apply NoDup_app. split; [done|]. split; [|apply NoDup_singleton].
    intros c Hc Hc'. apply list_elem_of_singleton in Hc'. by subst.
  - intros c Hc. apply elem_of_app in Hc as [?|Hc]; [by left|right].
    apply list_elem_of_singleton in Hc. subst c. tauto.
Qed.

Lemma base_required_loop_inv subjects allocs acc :
  NoDup acc →
  NoDup (foldl (base_required_step subjects) acc allocs)
  ∧ ∀ c, c ∈ foldl (base_required_step subjects) acc allocs →
         c ∈ acc
         ∨ (c ≠ EmptyString ∧ (c ∉ grading_only) ∧ (c ∉ optional_codes)
            ∧ ∃ a, a ∈ allocs
                   ∧ subjects !! TeacherSubjectAllocation.subject_id a
                     = Some c).
Proof.
  revert acc. induction allocs as [|a l IH]; intros acc Hnd; [by auto|].
  simpl. destruct (base_required_step_inv subjects acc a Hnd) as [Hnd' Hin'].
  destruct (IH _ Hnd') as [Hnd'' Hin'']. split; [done|].
  intros c Hc. destruct (Hin'' c Hc) as [Hc'|(? & ? & ? & a' & Ha' & ?)].
  - destruct (Hin' c Hc') as [?|(? & ? & ? & ?)]; [by left|right].
    repeat split; try done. exists a. split; [apply list_elem_of_here|done].
  - right. repeat split; try done. exists a'.
    split; [by apply list_elem_of_further|done].
Qed.

Lemma base_required_of_sound subjects allocs :
  NoDup (base_required_of subjects allocs)
  ∧ ∀ c, c ∈ base_required_of subjects allocs →
         c ≠ EmptyString ∧ (c ∉ grading_only) ∧ (c ∉ optional_codes)
         ∧ (allocs = [] ∧ c ∈ ["ENG"; "ECO"; "BK"; "OC"]
            ∨ ∃ a, a ∈ allocs
                   ∧ subjects !! TeacherSubjectAllocation.subject_id a
                     = Some c).
Proof.
  destruct allocs as [|a l].
  - simpl. split.
    + apply (bool_decide_unpack _). by vm_compute.
    + intros c Hc.
      repeat (apply elem_of_cons in Hc as [->|Hc]);
        [..|by apply elem_of_nil in Hc].
      all: split; [done|]; split; [by apply (bool_decide_unpack _)|];
        split; [by apply (bool_decide_unpack _)|]; left; split; [done|];
        by apply (bool_decide_unpack _).
  - unfold base_required_of, base_required_loop.
    destruct (base_required_loop_inv subjects (a :: l) [] (NoDup_nil_2))
      as [Hnd Hin].
    split; [done|]. intros c Hc.
    destruct (Hin c Hc) as [Hc'|(? & ? & ? & ?)];
      [by apply elem_of_nil in Hc'|].
    repeat split; try done. by right.
Qed.

Lemma optional_extension_sound s :
  NoDup (optional_extension s)
  ∧ ∀ c, c ∈ optional_extension s →
         c ∈ optional_codes
         ∧ (Student.optional_subject s = Some c
            ∨ Student.optional_subject_2 s = Some c).
Proof.
  unfold optional_extension, optional_codes.
  destruct (Student.optional_subject s) as [c1|],
    (Student.optional_subject_2 s) as [c2|]; simpl;
    repeat case_bool_decide; simpl.
  all: split; [| intros c Hc;
                   repeat (apply elem_of_cons in Hc as [->|Hc]);
                   try (by apply elem_of_nil in Hc);
                   (split; [|by auto]);
                   repeat match goal with
                          | H : _ ∨ _ |- _ => destruct H as [->| ->]
                          end;
                   by apply (bool_decide_unpack _)].
  all: repeat match goal with
              | H : _ = _ ∨ _ = _ |- _ => destruct H as [->| ->]
              end;
    by apply (bool_decide_unpack _).
Qed.

(** X25: the required codes of a student are free of duplicates, never
    contain the empty code, EVS or PE, and contain HINDI, IT, MATHS or SP
    only as the student's own optional_subject or optional_subject_2. *)
Theorem required_codes_sound db s :
  NoDup (student_required_codes db s)
  ∧ ∀ c, c ∈ student_required_codes db s →
         c ≠ EmptyString ∧ c ≠ "EVS" ∧ c ≠ "PE"
         ∧ (c ∈ ["HINDI"; "IT"; "MATHS"; "SP"]
            → Student.optional_subject s = Some c
              ∨ Student.optional_subject_2 s = Some c).
Proof.
  unfold student_required_codes. rewrite required_codes_of_extension.
  destruct (base_required_of_sound (subjects_dict (subject_table db))
              (division_allocs db (Student.division s))) as [Hnd1 Hin1].
  destruct (optional_extension_sound s) as [Hnd2 Hin2]. split.
  - apply NoDup_app. split; [done|]. split; [|done].
    intros c Hc1 Hc2. destruct (Hin1 c Hc1) as (_ & _ & Hn & _).
    by destruct (Hin2 c Hc2).
  - intros c Hc. apply elem_of_app in Hc as [Hc|Hc].
    + destruct (Hin1 c Hc) as (? & Hg & Ho & _). split; [done|].
      split; [intros ->; apply Hg; by apply (bool_decide_unpack _)|].
      split; [intros ->; apply Hg; by apply (bool_decide_unpack _)|].
      intros Hopt. by destruct Ho.
    + destruct (Hin2 c Hc) as [Ho Hs]. unfold optional_codes in Ho.
      repeat (apply elem_of_cons in Ho as [->|Ho]);
        [..|by apply elem_of_nil in Ho]; done.
Qed.

(** ** Ranges under the mark handlers; the helper counts *)

Lemma enter_marks_ranges GRACE_MAX user_id data db :
  ranges_ok db → ranges_ok (enter_marks GRACE_MAX user_id data db).1.
Proof.
  intros [Ha Hp].
  destruct (enter_marks GRACE_MAX user_id data db) as [db' out] eqn:E.
  destruct (enter_marks_cases GRACE_MAX user_id data db)
    as [(m0 & E' & _)|(code & E' & _)]; rewrite E' in E;
    injection E as <- <-; [|done].
  apply enter_marks_created in E'
    as (subject & student & _ & _ & _ & _ & _ & Hc & _ & E').
  apply components_ok_within in Hc as (_ & _ & _ & H4).
  injection E' as ->. split; [|done]. unfold annuals_in_range. simpl.
  apply Forall_app. split; [done|]. by apply Forall_singleton.
Qed.

Lemma update_marks_ranges GRACE_MAX mark_id user_id data db :
  ranges_ok db →
  ranges_ok (update_marks GRACE_MAX engine mark_id user_id data db).1.
Proof.
  intros [Ha Hp].
  destruct (update_marks GRACE_MAX engine mark_id user_id data db)
    as [db' out] eqn:E.
  assert (out = Status 200 ∨ out ≠ Status 200) as [->|Hne].
  { destruct out as [code|]; [|by right].
    destruct (decide (code = 200%Z)) as [->|?]; [by left|right; congruence]. }
  - apply update_marks_updated in E
      as (mark & u1 & u2 & t & a & grace & _ & _ & _ & _ & _ & _ & Hc & _ & _
          & ->).
    apply components_ok_within in Hc as (_ & _ & _ & H4).
    change (try_recompute engine ?d ?x)
      with (generate_results_for_division d x).
    assert (annuals_in_range
              (with_marks db
                 (replace_mark mark_id (updated_mark mark u1 u2 t a grace)
                    (mark_table db)))) as Ha'.
    { unfold annuals_in_range, replace_mark in *. simpl.
      apply Forall_fmap. eapply Forall_impl; [exact Ha|].
      intros m Hm. simpl. by case_bool_decide. }
    split; [exact Ha'|].
    by apply generate_percentages.
  - pose proof (update_marks_unchanged GRACE_MAX engine mark_id user_id data
                  db) as Hu.
    rewrite E in Hu. simpl in *. by rewrite (Hu Hne).
Qed.

Lemma delete_mark_ranges mark_id user_id user_type db :
  ranges_ok db →
  ranges_ok (delete_mark engine mark_id user_id user_type db).1.
Proof.
  intros [Ha Hp]. unfold delete_mark.
  destruct (get_mark db mark_id) as [mark|]; [|done].
  destruct (negb _ && negb _); [done|]. cbn [fst].
  change (try_recompute engine ?d ?x)
    with (generate_results_for_division d x).
  assert (annuals_in_range
            (with_marks db
               (filter (λ m, Mark.mark_id m ≠ mark_id) (mark_table db))))
    as Ha'.
  { unfold annuals_in_range in *. simpl. rewrite Forall_forall in *.
    intros m Hm. apply list_elem_of_filter in Hm as [_ Hm]. by apply Ha. }
  split; [exact Ha'|]. by apply generate_percentages.
Qed.

(** X26: the three mark handlers, with the engine in place, keep every
    annual of the Mark table and every percentage of the Result table null
    or within 0..100, whatever the request and its outcome. *)
Theorem mark_handlers_keep_ranges GRACE_MAX mark_id user_id user_type data
    db :
  ranges_ok db →
  ranges_ok (enter_marks GRACE_MAX user_id data db).1
  ∧ ranges_ok (update_marks GRACE_MAX engine mark_id user_id data db).1
  ∧ ranges_ok (delete_mark engine mark_id user_id user_type db).1.
Proof.
  intros H. split; [by apply enter_marks_ranges|].
  split; [by apply update_marks_ranges|by apply delete_mark_ranges].
Qed.

Lemma ranges_ok_pending : ranges_ok pending_db.
Proof.
  split; [|apply Forall_nil_2]. unfold annuals_in_range. simpl.
  repeat (apply Forall_cons; split;
          [simpl; split; by apply Qle_bool_imp_le|]).
  apply Forall_nil_2.
Qed.

Lemma mark_handlers_keep_ranges_witness :
  ranges_ok pending_db
  ∧ ranges_ok (enter_marks 15 1 maths_entry pending_db).1
  ∧ ranges_ok (update_marks 15 engine 1 1 maths_entry pending_db).1
  ∧ ranges_ok (delete_mark engine 1 1 "TEACHER" pending_db).1.
Proof.
  split; [exact ranges_ok_pending|].
  exact (mark_handlers_keep_ranges 15 1 1 "TEACHER" maths_entry pending_db
           ranges_ok_pending).
Defined.

Lemma find_unique_key {A} (key : A → Z) (l : list A) (x : A) :
  NoDup (key <$> l) → x ∈ l →
  List.find (λ y, bool_decide (key y = key x)) l = Some x.
Proof.
  induction l as [|y l IH]; intros Hnd Hx; [by apply elem_of_nil in Hx|].
  simpl in *. apply NoDup_cons in Hnd as [Hy Hnd].
  apply elem_of_cons in Hx as [->|Hx].
  - by rewrite bool_decide_eq_true_2.
  - rewrite bool_decide_eq_false_2; [by apply IH|].
    intros Hk. apply Hy. rewrite Hk. by apply list_elem_of_fmap_2.
Qed.

(** X27: when subject ids are unique, the number of students
    [get_students] lists for a subject and a division is the count
    [_eligible_student_count_for_subject] gives for them. *)
Theorem eligible_count_is_listing user_id subject_code division db body :
  NoDup (Subject.subject_id <$> subject_table db) →
  get_students user_id subject_code division db = Json body 200 →
  ∃ subject dv,
    subject ∈ subject_table db
    ∧ subject_code = Some (Subject.subject_code subject)
    ∧ division = Some dv
    ∧ _eligible_student_count_for_subject db (Subject.subject_id subject) dv
      = length body.
Proof.
  intros Hnd H. apply get_students_shown in H
    as (subject & dv & students & -> & _ & -> & _ & Hin & _ & -> & _
        & Hperm).
  exists subject, dv. split; [done|]. split; [done|]. split; [done|].
  unfold _eligible_student_count_for_subject, get_subject.
  rewrite (find_unique_key Subject.subject_id _ subject Hnd Hin).
  rewrite enrolled_query_filter, length_fmap. by rewrite Hperm.
Qed.

Lemma eligible_count_is_listing_witness :
  NoDup (Subject.subject_id <$> subject_table pending_db)
  ∧ get_students 1 (Some "MATHS") (Some "A") pending_db
    = Json [(101%Z, "Ravi", "A")] 200
  ∧ ∃ subject dv,
      subject ∈ subject_table pending_db
      ∧ Some "MATHS" = Some (Subject.subject_code subject)
      ∧ Some "A" = Some dv
      ∧ _eligible_student_count_for_subject pending_db
          (Subject.subject_id subject) dv
        = length [(101%Z, "Ravi", "A")].
Proof.
  assert (NoDup (Subject.subject_id <$> subject_table pending_db)) as H1.
  { apply (bool_decide_unpack _). vm_compute. exact I. }
  assert (get_students 1 (Some "MATHS") (Some "A") pending_db
          = Json [(101%Z, "Ravi", "A")] 200) as H2
    by (vm_compute; reflexivity).
  split; [exact H1|]. split; [exact H2|].
  exact (eligible_count_is_listing 1 (Some "MATHS") (Some "A") pending_db _
           H1 H2).
Defined.

Lemma NoDup_fmap_coarser {A B C} (f : A → B) (g : A → C) (l : list A) :
  (∀ x y, x ∈ l → y ∈ l → g x = g y → f x = f y) →
  NoDup (f <$> l) → NoDup (g <$> l).
Proof.
  induction l as [|x l IH]; intros Hfg Hnd; [apply NoDup_nil_2|].
  rewrite fmap_cons in *. apply NoDup_cons in Hnd as [Hx Hnd].
  apply NoDup_cons. split.
  - intros Hin. apply list_elem_of_fmap in Hin as (y & Hy & Hin).
    apply Hx. rewrite (Hfg x y); [by apply list_elem_of_fmap_2| |
      by apply list_elem_of_further|done].
    apply list_elem_of_here.
  - apply IH; [|done]. intros y z Hy Hz.
    apply Hfg; by apply list_elem_of_further.
Qed.

Lemma subject_marks_rolls_unique db subject_id division :
  mark_keys_unique db →
  NoDup (Mark.roll_no <$> subject_marks db subject_id division).
Proof.
  intros Hu. apply (NoDup_fmap_coarser mark_key).
  - intros x y Hx Hy Hr. unfold subject_marks in *.
    apply list_elem_of_filter in Hx as [[Hx1 Hx2] _].
    apply list_elem_of_filter in Hy as [[Hy1 Hy2] _].
    unfold mark_key. by rewrite Hx1, Hx2, Hy1, Hy2, Hr.
  - apply (sublist_NoDup _ (mark_key <$> mark_table db)); [exact Hu|].
    apply fmap_sublist. unfold subject_marks. apply sublist_filter.
Qed.

(** X28: for a subject of the Subject table, when the eligible students
    of the division have distinct roll numbers, the Mark table has at most
    one row per (roll_no, division, subject_id) and every mark of the
    subject in the division belongs to an eligible student,
    [_are_all_marks_submitted] answers true exactly when there is an
    eligible student and each of them has a mark of the subject. *)
Theorem all_marks_submitted_iff db subject_id division subject :
  get_subject db subject_id = Some subject →
  NoDup (Student.roll_no <$> eligible_students db subject division) →
  mark_keys_unique db →
  (∀ m, m ∈ subject_marks db subject_id division →
        ∃ s, s ∈ eligible_students db subject division
             ∧ Student.roll_no s = Mark.roll_no m) →
  _are_all_marks_submitted db subject_id division = true
  ↔ eligible_students db subject division ≠ []
    ∧ ∀ s, s ∈ eligible_students db subject division →
           ∃ m, m ∈ subject_marks db subject_id division
                ∧ Mark.roll_no m = Student.roll_no s.
Proof.
  intros Hsub Hnd Hu Hown.
  pose proof (subject_marks_rolls_unique db subject_id division Hu) as Hndm.
  unfold _are_all_marks_submitted, _eligible_student_count_for_subject,
    _marks_count_for_subject.
  rewrite Hsub, enrolled_query_filter.
  fold (eligible_students db subject division).
  fold (subject_marks db subject_id division).
  set (E := eligible_students db subject division) in *.
  set (M := subject_marks db subject_id division) in *.
  cbv zeta. destruct (Nat.eqb_spec (length E) 0) as [H0|H0].
  - split; [done|]. intros [Hne _]. destruct E; done.
  - rewrite Nat.leb_le. split.
    + intros Hle. split; [by destruct E|]. intros s Hs.
      assert ((Mark.roll_no <$> M) ≡ₚ (Student.roll_no <$> E)) as Hperm.
      { apply submseteq_length_Permutation; [|by rewrite !length_fmap].
        apply NoDup_submseteq; [done|]. intros r Hr.
        apply list_elem_of_fmap in Hr as (m & -> & Hm).
        destruct (Hown m Hm) as (s' & Hs' & <-).
        by apply list_elem_of_fmap_2. }
      assert (Student.roll_no s ∈ Mark.roll_no <$> M) as Hin.
      { rewrite Hperm. by apply list_elem_of_fmap_2. }
      apply list_elem_of_fmap in Hin as (m & Hr & Hm). by exists m.
    + intros [_ Hall].
      assert ((Student.roll_no <$> E) ⊆+ (Mark.roll_no <$> M)) as Hsub'.
      { apply NoDup_submseteq; [done|]. intros r Hr.
        apply list_elem_of_fmap in Hr as (s & -> & Hs).
        destruct (Hall s Hs) as (m & Hm & <-).
        by apply list_elem_of_fmap_2. }
      apply submseteq_length in Hsub'. by rewrite !length_fmap in Hsub'.
Qed.

Lemma all_marks_submitted_iff_witness :
  get_subject pending_db 1 = Some (Subject.mk 1 "ENG")
  ∧ NoDup (Student.roll_no
           <$> eligible_students pending_db (Subject.mk 1 "ENG") "A")
  ∧ mark_keys_unique pending_db
  ∧ (∀ m, m ∈ subject_marks pending_db 1 "A" →
          ∃ s, s ∈ eligible_students pending_db (Subject.mk 1 "ENG") "A"
               ∧ Student.roll_no s = Mark.roll_no m)
  ∧ (_are_all_marks_submitted pending_db 1 "A" = true
     ↔ eligible_students pending_db (Subject.mk 1 "ENG") "A" ≠ []
       ∧ ∀ s, s ∈ eligible_students pending_db (Subject.mk 1 "ENG") "A" →
              ∃ m, m ∈ subject_marks pending_db 1 "A"
                   ∧ Mark.roll_no m = Student.roll_no s).
Proof.
  assert (get_subject pending_db 1 = Some (Subject.mk 1 "ENG")) as H1
    by (vm_compute; reflexivity).
  assert (NoDup (Student.roll_no
                 <$> eligible_students pending_db (Subject.mk 1 "ENG") "A"))
    as H2.
  { apply (bool_decide_unpack _). vm_compute. exact I. }
  assert (mark_keys_unique pending_db) as H3.
  { unfold mark_keys_unique. apply (bool_decide_unpack _).
    vm_compute. exact I. }
  assert (∀ m, m ∈ subject_marks pending_db 1 "A" →
               ∃ s, s ∈ eligible_students pending_db (Subject.mk 1 "ENG") "A"
                    ∧ Student.roll_no s = Mark.roll_no m) as H4.
  { intros m Hm. vm_compute in Hm. apply list_elem_of_singleton in Hm.
    exists student_101. split; [vm_compute; apply list_elem_of_here|].
    rewrite Hm. reflexivity. }
  split; [exact H1|]. split; [exact H2|]. split; [exact H3|].
  split; [exact H4|].
  exact (all_marks_submitted_iff pending_db 1 "A" (Subject.mk 1 "ENG")
           H1 H2 H3 H4).
Defined.
